(** * ConversaAI front end: security middleware and validation pipeline

    A shallow embedding of

    - [frontend/src/lib/config.ts]   (rate-limiting and security settings,
      [validatePassword], [validateEmail], [validateUsername]),
    - the Astro security middleware  ([checkRateLimit], [generateCSRFToken],
      [validateCSRFToken], [getClientIP], [sanitizeInput], [validateOrigin],
      [onRequest]),
    - the validation module          (the sanitizers of [Validator],
      [Validator.validateField], [Validator.validateForm], the [login]
      schema, [validatePassword] and the [RateLimiter] class),

    followed by the properties proved about them.

    Conventions of the embedding.

    - A JavaScript string is the list of its UTF-16 code units ([jsstring]);
      [length], [slice] and the regular expressions of the source all work
      on code units.
    - A JavaScript number that the code obtains from [parseInt] is an
      integer or [NaN]: [jsnum] is [option Z] with [None] for [NaN].
      Timestamps and counters are integers ([Z]); they stay far below 2^53,
      where doubles are exact.
    - A plain object used as a record (the data of a form, a schema, the
      two maps of a validation result) is the finite map of the properties
      of its own; what it inherits from [Object.prototype] is written out
      where the code reads or assigns a property by a computed name.
    - Module-level mutable stores ([rateLimitStore], [csrfTokens]) are passed
      explicitly: every function takes the store and returns the new one.
    - [Date.now()] and [crypto.randomUUID()] are inputs of the functions that
      call them. *)

From Stdlib Require Import ZArith NArith String Ascii List Lia Bool DecimalString.
From Stdlib Require Import Sorted.
From stdpp Require Import base option list gmap.

Open Scope Z_scope.

(* ===================================================================== *)
(** * Part I: the embedding                                               *)
(* ===================================================================== *)

(** ** JavaScript strings and numbers *)

Module JS.

(** A string is a sequence of UTF-16 code units. *)
Abbreviation jsstring := (list N).

(** ASCII literals of the source. *)
Definition lit (s : string) : jsstring :=
  map N_of_ascii (list_ascii_of_string s).
Arguments lit : simpl never.

(** [None] is [NaN]. *)
Abbreviation jsnum := (option Z).

(** [a + b], [a > b], [a >= b] on numbers; a comparison with [NaN] is
    false. *)
Definition num_add (a b : jsnum) : jsnum :=
  match a, b with
  | Some x, Some y => Some (x + y)
  | _, _ => None
  end.

Definition num_gt (a b : jsnum) : bool :=
  match a, b with
  | Some x, Some y => y <? x
  | _, _ => false
  end.

Definition num_ge (a b : jsnum) : bool :=
  match a, b with
  | Some x, Some y => y <=? x
  | _, _ => false
  end.

(** White space and line terminators of ECMAScript ([String.prototype.trim],
    and the leading blanks skipped by [parseInt]). *)
Definition isWhiteSpace (c : N) : bool :=
  ((9 <=? c) && (c <=? 13) || (c =? 32) || (c =? 160) || (c =? 5760)
   || (8192 <=? c) && (c <=? 8202) || (c =? 8232) || (c =? 8233)
   || (c =? 8239) || (c =? 8287) || (c =? 12288) || (c =? 65279))%N.

Fixpoint trimStart (s : jsstring) : jsstring :=
  match s with
  | c :: s' => if isWhiteSpace c then trimStart s' else s
  | [] => []
  end.

Definition trimEnd (s : jsstring) : jsstring := rev (trimStart (rev s)).

(** [s.trim()] *)
Definition trim (s : jsstring) : jsstring := trimEnd (trimStart s).

(** [s.slice(0, n)] for a non-negative literal [n]. *)
Definition slice0 (n : Z) (s : jsstring) : jsstring := firstn (Z.to_nat n) s.

Definition eqb (a b : jsstring) : bool := bool_decide (a = b).

(** [s.startsWith(p)] *)
Fixpoint startsWith (p s : jsstring) : bool :=
  match p, s with
  | [], _ => true
  | a :: p', b :: s' => (a =? b)%N && startsWith p' s'
  | _ :: _, [] => false
  end.

(** [s.includes(p)] *)
Fixpoint includes (p s : jsstring) : bool :=
  startsWith p s ||
  match s with
  | [] => false
  | _ :: s' => includes p s'
  end.

(** [s.endsWith(p)] *)
Definition endsWith (p s : jsstring) : bool := startsWith (rev p) (rev s).

(** [s.split(sep)] for a one-character separator: the pieces between the
    separators; [acc] holds the current piece, reversed. *)
Fixpoint splitGo (sep : N) (acc : jsstring) (s : jsstring) : list jsstring :=
  match s with
  | [] => [rev acc]
  | c :: s' => if (c =? sep)%N then rev acc :: splitGo sep [] s'
               else splitGo sep (c :: acc) s'
  end.

Definition split (sep : N) (s : jsstring) : list jsstring := splitGo sep [] s.

(** Truthiness of a string: the empty string is falsy. *)
Definition truthyStr (s : jsstring) : bool :=
  match s with [] => false | _ => true end.

(** Truthiness of [string | null] / [string | undefined]. *)
Definition truthyOpt (o : option jsstring) : bool :=
  match o with Some s => truthyStr s | None => false end.

(** [a || b] where [a] may be null/undefined and [b] is a string. *)
Definition orElse (a : option jsstring) (b : jsstring) : jsstring :=
  match a with
  | Some s => if truthyStr s then s else b
  | None => b
  end.

(** Value of a digit in radix 36 notation. *)
Definition digitValue (c : N) : option Z :=
  if ((48 <=? c) && (c <=? 57))%N then Some (Z.of_N c - 48)
  else if ((97 <=? c) && (c <=? 122))%N then Some (Z.of_N c - 87)
  else if ((65 <=? c) && (c <=? 90))%N then Some (Z.of_N c - 55)
  else None.

(** The longest prefix of digits of the radix, read as a number; [None]
    when there is no digit at all. *)
Fixpoint parseDigits (radix : Z) (s : jsstring) (acc : option Z) : option Z :=
  match s with
  | c :: s' =>
      match digitValue c with
      | Some d =>
          if d <? radix
          then parseDigits radix s' (Some (default 0 acc * radix + d))
          else acc
      | None => acc
      end
  | [] => acc
  end.

(** [parseInt(s)] without a radix argument: leading white space, a sign,
    an optional [0x]/[0X] prefix, then digits; [NaN] without digits.  The
    result is the one of JavaScript for digit strings that denote an
    integer up to 2^53 in size (beyond, JavaScript rounds to the nearest
    number it has); the settings read with it are small. *)
Definition parseInt (s : jsstring) : jsnum :=
  let s1 := trimStart s in
  let '(sign, s2) :=
    match s1 with
    | 45%N :: r => (-1, r)
    | 43%N :: r => (1, r)
    | _ => (1, s1)
    end in
  let '(radix, s3) :=
    match s2 with
    | 48%N :: 120%N :: r => (16, r)
    | 48%N :: 88%N :: r => (16, r)
    | _ => (10, s2)
    end in
  option_map (Z.mul sign) (parseDigits radix s3 None).

(** [n.toString()] of an integer or of [NaN].  The text is the one of
    JavaScript for the integers up to 2^53 - 1 in size, which a number
    holds exactly and prints digit by digit; beyond, JavaScript rounds the
    digits, and writes an exponent from 10^21 on.  The integers printed by
    the middleware are counters, quotas and timestamps; where a caller
    chooses the number (the values of a form), the properties ask for an
    integer within that range ([Validator.safe]). *)
Definition numToString (n : jsnum) : jsstring :=
  match n with
  | Some z => lit (NilZero.string_of_int (Z.to_int z))
  | None => lit "NaN"
  end.

(** [Math.ceil(n / 1000)] *)
Definition ceilDiv1000 (n : jsnum) : jsnum :=
  option_map (fun z => - ((- z) / 1000)) n.

(** The outcome of an evaluation that may throw. *)
Inductive Completion (A : Type) :=
| Normal (a : A)
| ThrowTypeError.
Arguments Normal {A} a.
Arguments ThrowTypeError {A}.

End JS.

Import JS.

(** ** [lib/config.ts]: the settings read by the middleware *)

Module Config.

(** [import.meta.env]: the variables the settings below are read from; an
    unset variable is [undefined] ([None]). *)
Record Env := {
  PUBLIC_API_URL : option jsstring;
  PROD : bool;
  DEV : bool;
  PUBLIC_ENABLE_CSRF : option jsstring;
  PUBLIC_ENABLE_RATE_LIMITING : option jsstring;
  PUBLIC_ALLOWED_ORIGINS : option jsstring;
  PUBLIC_LOGIN_MAX_ATTEMPTS : option jsstring;
  PUBLIC_LOGIN_WINDOW_MS : option jsstring;
}.

(** The part of [config] used by the middleware. *)
Record t := {
  apiBaseUrl : jsstring;
  isProd : bool;
  isDev : bool;
  enableCSRF : bool;
  enableRateLimiting : bool;
  allowedOrigins : list jsstring;
  loginAttempts : jsnum;
  loginWindowMs : jsnum;
}.

Definition defaultAllowedOrigins : jsstring :=
  lit "http://localhost:4321,http://localhost:3000,http://127.0.0.1:4321,http://127.0.0.1:3000,http://192.168.1.7:4321,http://192.168.56.1:4321".

(** [x !== 'false'] *)
Definition notFalseString (x : option jsstring) : bool :=
  match x with
  | Some s => negb (JS.eqb s (lit "false"))
  | None => true
  end.

Definition config (env : Env) : t := {|
  apiBaseUrl := orElse (PUBLIC_API_URL env) (lit "http://localhost:8000");
  isProd := PROD env;
  isDev := DEV env;
  enableCSRF := notFalseString (PUBLIC_ENABLE_CSRF env);
  enableRateLimiting := notFalseString (PUBLIC_ENABLE_RATE_LIMITING env);
  allowedOrigins :=
    filter (fun s => Is_true (truthyStr s))
      (split 44 (orElse (PUBLIC_ALLOWED_ORIGINS env) defaultAllowedOrigins));
  loginAttempts := parseInt (orElse (PUBLIC_LOGIN_MAX_ATTEMPTS env) (lit "5"));
  loginWindowMs := parseInt (orElse (PUBLIC_LOGIN_WINDOW_MS env) (lit "300000"));
|}.

(** A development environment in which no variable is set. *)
Definition unsetEnv : Env := {|
  PUBLIC_API_URL := None;
  PROD := false;
  DEV := true;
  PUBLIC_ENABLE_CSRF := None;
  PUBLIC_ENABLE_RATE_LIMITING := None;
  PUBLIC_ALLOWED_ORIGINS := None;
  PUBLIC_LOGIN_MAX_ATTEMPTS := None;
  PUBLIC_LOGIN_WINDOW_MS := None;
|}.

(** [config.validation]: the password and user name rules. *)
Definition passwordMinLength : Z := 8.
Definition requireUppercase : bool := true.
Definition requireLowercase : bool := true.
Definition requireNumbers : bool := true.
Definition requireSpecialChars : bool := false.
Definition usernameMinLength : Z := 3.
Definition usernameMaxLength : Z := 30.

End Config.

(** ** The rate limiter *)

Module RateLimit.

(** A value of [rateLimitStore]. *)
Record Entry := { count : Z; resetTime : jsnum }.

(** [{ allowed: boolean; resetTime?: number }] *)
Record Result := { allowed : bool; resultResetTime : option jsnum }.

(** [rateLimitStore = new Map<string, { count; resetTime }>()] *)
Abbreviation Store := (gmap jsstring Entry).

(** [`${ip}:${endpoint}`] *)
Definition key (ip endpoint : jsstring) : jsstring :=
  ip ++ lit ":" ++ endpoint.

(** [checkRateLimit(ip, endpoint)]; [now] is the value of [Date.now()]. *)
Definition checkRateLimit (cfg : Config.t) (ip endpoint : jsstring)
    (now : Z) (rateLimitStore : Store) : Result * Store :=
  let key := key ip endpoint in
  let windowMs := Config.loginWindowMs cfg in
  let maxAttempts := Config.loginAttempts cfg in
  let fresh :=
    ({| allowed := true; resultResetTime := None |},
     <[key := {| count := 1; resetTime := num_add (Some now) windowMs |}]>
       rateLimitStore) in
  match rateLimitStore !! key with
  | None => fresh
  | Some current =>
      if num_gt (Some now) (resetTime current) then fresh
      else if num_ge (Some (count current)) maxAttempts then
        ({| allowed := false;
            resultResetTime := Some (resetTime current) |},
         rateLimitStore)
      else
        ({| allowed := true; resultResetTime := None |},
         <[key := {| count := count current + 1;
                     resetTime := resetTime current |}]> rateLimitStore)
  end.

(** The result of an allowed call. *)
Definition okResult : Result := {| allowed := true; resultResetTime := None |}.

(** One call of a client: who, which route, and when. *)
Record Call := { callIp : jsstring; callEndpoint : jsstring; callNow : Z }.

Definition step (cfg : Config.t) (st : Store) (c : Call) : Result * Store :=
  checkRateLimit cfg (callIp c) (callEndpoint c) (callNow c) st.

(** The store after a sequence of calls. *)
Definition run (cfg : Config.t) (calls : list Call) (st : Store) : Store :=
  foldl (fun s c => snd (step cfg s c)) st calls.

(** The results of consecutive calls for one client and route at the given
    times, with the store after the last of them. *)
Fixpoint calls (cfg : Config.t) (ip endpoint : jsstring) (times : list Z)
    (st : Store) : list Result * Store :=
  match times with
  | [] => ([], st)
  | now :: rest =>
      let '(r, st1) := checkRateLimit cfg ip endpoint now st in
      let '(rs, st2) := calls cfg ip endpoint rest st1 in
      (r :: rs, st2)
  end.

End RateLimit.

(** ** The CSRF token manager *)

Module Csrf.

(** [csrfTokens = new Set<string>()]: a JavaScript [Set] iterates in
    insertion order, so the set is the list of its members, oldest
    first. *)
Abbreviation TokenSet := (list jsstring).

(** [set.has(t)] *)
Definition has (t : jsstring) (s : TokenSet) : bool := bool_decide (t ∈ s).

(** [set.add(t)]: a member keeps its place, a new one goes last. *)
Definition add (t : jsstring) (s : TokenSet) : TokenSet :=
  if has t s then s else s ++ [t].

(** [set.delete(t)] *)
Definition delete (t : jsstring) (s : TokenSet) : TokenSet :=
  filter (fun x => x ≠ t) s.

(** [generateCSRFToken()]; [uuid] is the value of [crypto.randomUUID()]. *)
Definition generateCSRFToken (uuid : jsstring) (csrfTokens : TokenSet)
    : jsstring * TokenSet :=
  let token := uuid in
  let csrfTokens := add token csrfTokens in
  let csrfTokens :=
    if (100 <? length csrfTokens)%nat then
      let tokensArray := csrfTokens in
      let toRemove := firstn (length tokensArray - 100) tokensArray in
      foldl (fun s token => delete token s) csrfTokens toRemove
    else csrfTokens in
  (token, csrfTokens).

(** [validateCSRFToken(token)] *)
Definition validateCSRFToken (token : jsstring) (csrfTokens : TokenSet)
    : bool * TokenSet :=
  let isValid := has token csrfTokens in
  (isValid, if isValid then delete token csrfTokens else csrfTokens).

(** The calls a client of the manager can make. *)
Inductive Op :=
| Generate (uuid : jsstring)
| Validate (token : jsstring).

#[global] Instance Op_eq_dec : EqDecision Op.
Proof. solve_decision. Defined.

Definition step (s : TokenSet) (o : Op) : TokenSet :=
  match o with
  | Generate uuid => snd (generateCSRFToken uuid s)
  | Validate token => snd (validateCSRFToken token s)
  end.

Definition run (ops : list Op) (s : TokenSet) : TokenSet := foldl step s ops.

(** Number of [generateCSRFToken] calls in a trace. *)
Fixpoint generated (ops : list Op) : nat :=
  match ops with
  | [] => 0
  | Generate _ :: ops' => S (generated ops')
  | Validate _ :: ops' => generated ops'
  end.

(** [T] is a member with at most [g] members after it. *)
Definition recent (T : jsstring) (g : nat) (s : TokenSet) : Prop :=
  NoDup s /\ exists pre post, s = pre ++ T :: post /\ (length post <= g)%nat.

(** Sample tokens in the format of [crypto.randomUUID()], one for each
    number below 1000. *)
Definition sampleUuid (n : nat) : jsstring :=
  lit "00000000-0000-4000-8000-000000000"
  ++ map (fun d => (48 + N.of_nat d)%N)
       [(n / 100) mod 10; (n / 10) mod 10; n mod 10]%nat.

End Csrf.

(** ** Regular expressions of the sanitizers

    The fragment of ECMAScript regular expressions that the sanitizing
    patterns [/[<>]/g], [/javascript:/gi] and [/on\w+=/gi] are written in,
    with the backtracking matcher of the language and the global
    replacement by the empty string. *)

Module Regex.

(** [\w] *)
Definition isWordChar (c : N) : bool :=
  ((97 <=? c) && (c <=? 122) || (65 <=? c) && (c <=? 90)
   || (48 <=? c) && (c <=? 57) || (c =? 95))%N.

(** Case folding of the [i] flag (without the [u] flag).  A code unit
    above 127 is never folded to one below 128, so for the ASCII patterns
    of the source only the folding of [a]-[z] can make two characters
    meet; the others are left alone. *)
Definition upcase (c : N) : N :=
  if ((97 <=? c) && (c <=? 122))%N then (c - 32)%N else c.

Definition canonicalize (ignoreCase : bool) (c : N) : N :=
  if ignoreCase then upcase c else c.

(** Terms that match one character. *)
Inductive atom :=
| Chr (c : N)               (* a pattern character *)
| OneOf (cs : list N)       (* a class [...] of listed characters *)
| WordChar.                 (* \w *)

Inductive regex :=
| Eps
| Atom (a : atom)
| Seq (r1 r2 : regex)
| Plus (a : atom).          (* a+, greedy *)

Definition atomMatches (ignoreCase : bool) (a : atom) (c : N) : bool :=
  let canon := canonicalize ignoreCase in
  match a with
  | Chr p => (canon p =? canon c)%N
  | OneOf cs => existsb (fun p => (canon p =? canon c)%N) cs
  | WordChar => isWordChar (canon c)
  end.

(** One or more characters satisfying [ok], the longest run first, then
    the continuation [k]; on failure of [k] the run is shortened. *)
Fixpoint plusFrom (ok : N -> bool) (s : jsstring)
    (k : jsstring -> option jsstring) : option jsstring :=
  match s with
  | c :: s' =>
      if ok c then
        match plusFrom ok s' k with
        | Some rest => Some rest
        | None => k s'
        end
      else None
  | [] => None
  end.

(** Match [r] at the start of [s] and continue with [k] on what is left. *)
Fixpoint matchFrom (ignoreCase : bool) (r : regex) (s : jsstring)
    (k : jsstring -> option jsstring) : option jsstring :=
  match r with
  | Eps => k s
  | Atom a =>
      match s with
      | c :: s' => if atomMatches ignoreCase a c then k s' else None
      | [] => None
      end
  | Seq r1 r2 => matchFrom ignoreCase r1 s (fun s' => matchFrom ignoreCase r2 s' k)
  | Plus a => plusFrom (atomMatches ignoreCase a) s k
  end.

(** The continuation of [matchFrom] at the last character of
    [/on\w+=/i]: the sign [=], then success. *)
Definition thenEquals (s : jsstring) : option jsstring :=
  match s with
  | c :: s' => if atomMatches true (Chr 61%N) c then Some s' else None
  | [] => None
  end.

(** Length of the match of [r] that starts at the first character of [s],
    if there is one. *)
Definition execAt (ignoreCase : bool) (r : regex) (s : jsstring) : option nat :=
  match matchFrom ignoreCase r s Some with
  | Some rest => Some (length s - length rest)%nat
  | None => None
  end.

(** The scan of a global replacement by [''] with the matcher [at_]:
    [skip] is the number of characters of the current match still to be
    dropped; outside a match, the leftmost match is looked for at the
    current position, then the scan resumes after it.  (An empty match
    replaces nothing.) *)
Fixpoint removeFrom (at_ : jsstring -> option nat) (skip : nat) (s : jsstring)
    : jsstring :=
  match s with
  | [] => []
  | c :: s' =>
      match skip with
      | S n => removeFrom at_ n s'
      | O =>
          match at_ s with
          | Some (S n) => removeFrom at_ n s'
          | _ => c :: removeFrom at_ 0 s'
          end
      end
  end.

(** [s.replace(/r/g, '')] and [s.replace(/r/gi, '')] *)
Definition replaceAllEmpty (ignoreCase : bool) (r : regex) (s : jsstring)
    : jsstring :=
  removeFrom (execAt ignoreCase r) 0 s.

(** The pattern that spells a literal text. *)
Definition text (s : jsstring) : regex :=
  foldr (fun c r => Seq (Atom (Chr c)) r) Eps s.

(** [/[<>]/] *)
Definition angleBrackets : regex := Atom (OneOf [60; 62]%N).

(** [/javascript:/] *)
Definition javascriptProtocol : regex := text (lit "javascript:").

(** [/on\w+=/] *)
Definition eventHandler : regex :=
  Seq (text (lit "on")) (Seq (Plus WordChar) (Atom (Chr 61%N))).

(** *** Further pieces, used by the validation module *)

(** The matcher of a pattern that is a single character class; [member]
    tells the characters of the class. *)
Definition classAt (member : N -> bool) (s : jsstring) : option nat :=
  match s with
  | c :: _ => if member c then Some 1%nat else None
  | [] => None
  end.

(** The scan of a global replacement by the text [by_] (a text without
    [$], so that it is inserted as it is): like [removeFrom], with [by_]
    put in place of each match.  An empty match puts [by_] in front of the
    current character, or at the end of the string. *)
Fixpoint substituteFrom (at_ : jsstring -> option nat) (by_ : jsstring)
    (skip : nat) (s : jsstring) : jsstring :=
  match s with
  | [] =>
      match skip, at_ [] with
      | O, Some _ => by_
      | _, _ => []
      end
  | c :: s' =>
      match skip with
      | S n => substituteFrom at_ by_ n s'
      | O =>
          match at_ s with
          | Some (S n) => by_ ++ substituteFrom at_ by_ n s'
          | Some O => by_ ++ c :: substituteFrom at_ by_ 0 s'
          | None => c :: substituteFrom at_ by_ 0 s'
          end
      end
  end.

(** [s.replace(/r/g, by_)] *)
Definition replaceAll (ignoreCase : bool) (r : regex) (by_ : jsstring)
    (s : jsstring) : jsstring :=
  substituteFrom (execAt ignoreCase r) by_ 0 s.

(** [/r/.test(s)] for a pattern without the flags [g] and [y]: is there a
    match that starts at some position of [s]. *)
Fixpoint test (ignoreCase : bool) (r : regex) (s : jsstring) : bool :=
  match execAt ignoreCase r s with
  | Some _ => true
  | None =>
      match s with
      | [] => false
      | _ :: s' => test ignoreCase r s'
      end
  end.

(** [/^r/.test(s)]: without the flag [m], the assertion [^] holds at the
    first position only. *)
Definition testAtStart (ignoreCase : bool) (r : regex) (s : jsstring) : bool :=
  match execAt ignoreCase r s with
  | Some _ => true
  | None => false
  end.

(** The continuation of [matchFrom] and [plusFrom] for the assertion [$]
    at the end of a pattern: without the flag [m] it holds at the end of
    the string only. *)
Definition atEnd (s : jsstring) : option jsstring :=
  match s with
  | [] => Some []
  | _ :: _ => None
  end.

(** The [n] characters from [first] on: the members of a class [[a-z]]. *)
Definition range (first : N) (n : nat) : list N :=
  map (fun i => (first + N.of_nat i)%N) (seq 0 n).

(** Line terminators: the characters that [.] does not match. *)
Definition isLineTerminator (c : N) : bool :=
  ((c =? 10) || (c =? 13) || (c =? 8232) || (c =? 8233))%N.

End Regex.

(** ** The input sanitizers *)

Module Sanitizer.
Import Regex.

(** [sanitizeInput(input)] of the middleware. *)
Definition sanitizeInput (input : jsstring) : jsstring :=
  slice0 10000
    (trim
       (replaceAllEmpty true eventHandler
          (replaceAllEmpty true javascriptProtocol
             (replaceAllEmpty false angleBrackets input)))).

(** [Validator.sanitizeString(input)]: the same steps, with the trim
    first. *)
Definition sanitizeString (input : jsstring) : jsstring :=
  slice0 10000
    (replaceAllEmpty true eventHandler
       (replaceAllEmpty true javascriptProtocol
          (replaceAllEmpty false angleBrackets (trim input)))).

(** [Validator.sanitizeHTML(input)]: five global replacements, one after
    the other. *)
Definition sanitizeHTML (input : jsstring) : jsstring :=
  replaceAll false (Atom (Chr 47%N)) (lit "&#x2F;")
    (replaceAll false (Atom (Chr 39%N)) (lit "&#x27;")
       (replaceAll false (Atom (Chr 34%N)) (lit "&quot;")
          (replaceAll false (Atom (Chr 62%N)) (lit "&gt;")
             (replaceAll false (Atom (Chr 60%N)) (lit "&lt;") input)))).

(** The class [[^\w@.-]] of [sanitizeEmail]. *)
Definition notEmailChar (c : N) : bool :=
  negb (isWordChar c || (c =? 64) || (c =? 46) || (c =? 45))%N.

Section WithLowerCase.

(** [s.toLowerCase()], the case mapping of Unicode, is taken as it comes
    from the platform. *)
Variable toLowerCase : jsstring -> jsstring.

(** [Validator.sanitizeEmail(email)] *)
Definition sanitizeEmail (email : jsstring) : jsstring :=
  slice0 254 (removeFrom (classAt notEmailChar) 0 (trim (toLowerCase email))).

End WithLowerCase.

End Sanitizer.

(** ** The sanitizing policy, step by step, as the specification words it *)

Module Policy.

(** Two characters that are the same letter up to case. *)
Definition sameLetter (a b : N) : bool := (Regex.upcase a =? Regex.upcase b)%N.

(** [s] starts with the text [p], whatever the case of its letters. *)
Fixpoint startsWithAnyCase (p s : jsstring) : bool :=
  match p, s with
  | [], _ => true
  | a :: p', b :: s' => sameLetter a b && startsWithAnyCase p' s'
  | _ :: _, [] => false
  end.

(** Remove every occurrence, scanning from the left: [occurrence s] is
    the length of the occurrence that starts [s], if one does. *)
Fixpoint removeEvery (occurrence : jsstring -> option nat) (skip : nat)
    (s : jsstring) : jsstring :=
  match s with
  | [] => []
  | c :: s' =>
      match skip with
      | S n => removeEvery occurrence n s'
      | O =>
          match occurrence s with
          | Some (S n) => removeEvery occurrence n s'
          | _ => c :: removeEvery occurrence 0 s'
          end
      end
  end.

(** Step 1: strip the characters [<] and [>]. *)
Definition stripAngleBrackets (s : jsstring) : jsstring :=
  filter (fun c => c ≠ 60%N ∧ c ≠ 62%N) s.

(** Step 2: strip [javascript:], in any case, anywhere. *)
Definition javascriptAt (s : jsstring) : option nat :=
  if startsWithAnyCase (lit "javascript:") s then Some 11%nat else None.

Definition stripJavascript (s : jsstring) : jsstring :=
  removeEvery javascriptAt 0 s.

(** Length of the longest run of word characters that starts [s]. *)
Fixpoint wordRun (s : jsstring) : nat :=
  match s with
  | c :: s' => if Regex.isWordChar c then S (wordRun s') else 0%nat
  | [] => 0%nat
  end.

(** Step 3: strip event handlers [on<word>=]: the letters [on] in any
    case, a non-empty word, and the sign [=]. *)
Definition handlerAt (s : jsstring) : option nat :=
  match s with
  | o :: n :: rest =>
      if sameLetter 111 o && sameLetter 110 n then
        let w := wordRun rest in
        match w, drop w rest with
        | S _, 61%N :: _ => Some (2 + w + 1)%nat
        | _, _ => None
        end
      else None
  | _ => None
  end.

Definition stripHandlers (s : jsstring) : jsstring :=
  removeEvery handlerAt 0 s.

(** Step 4: trim; step 5: truncate to 10,000 characters. *)
Definition truncate (s : jsstring) : jsstring := firstn (Z.to_nat 10000) s.

Definition sanitize (s : jsstring) : jsstring :=
  truncate (trim (stripHandlers (stripJavascript (stripAngleBrackets s)))).

(** What [sanitizeHTML] is for: every character that can open or close a
    tag, an attribute value or an end tag is written as its entity. *)
Definition entity (c : N) : jsstring :=
  if (c =? 60)%N then lit "&lt;"
  else if (c =? 62)%N then lit "&gt;"
  else if (c =? 34)%N then lit "&quot;"
  else if (c =? 39)%N then lit "&#x27;"
  else if (c =? 47)%N then lit "&#x2F;"
  else [c].

Definition escape (s : jsstring) : jsstring := flat_map entity s.

(** The texts that begin at the positions of [s]: [s] itself, [s] without
    its first character, and so on to the empty text. *)
Fixpoint tails_of (s : jsstring) : list jsstring :=
  s :: match s with
       | [] => []
       | _ :: s' => tails_of s'
       end.

End Policy.

(** ** Requests and responses *)

Module Http.

(** A [Headers] object: names are kept in lower case, one value per
    name. *)
Abbreviation Headers := (gmap jsstring jsstring).

(** [headers.set(name, value)] *)
Definition set (name value : jsstring) (h : Headers) : Headers :=
  <[name := value]> h.

(** A value of a [FormData] entry. *)
Inductive FormValue :=
| Text (s : jsstring)
| File (id : N).

Record Request := {
  method : jsstring;
  pathname : jsstring;                 (* url.pathname *)
  csrfTokenParam : option jsstring;    (* url.searchParams.get('csrf_token') *)
  headers : Headers;
  (* what [await request.formData()] gives; [None] when it rejects *)
  formData : option (list (jsstring * FormValue));
}.

(** The JSON bodies of the error responses. *)
Record ErrorBody := {
  error : jsstring;
  message : jsstring;
  retryAfter : option jsnum;
}.

Inductive Body :=
| Page (id : N)        (* whatever the route handler rendered *)
| Empty                (* [null] *)
| Json (b : ErrorBody).

Record Response := {
  status : Z;
  responseHeaders : Headers;
  body : Body;
}.

(** The headers of [new Response(_, { headers: { 'Content-Type':
    'application/json', ...Object.fromEntries(h.entries()) } })]: the
    object has the key [Content-Type] and the lower-case keys of [h], and
    the constructor appends them in that order, so a [content-type] of
    [h] is joined to the first one. *)
Definition jsonHeaders (h : Headers) : Headers :=
  match h !! lit "content-type" with
  | Some v =>
      <[lit "content-type" := lit "application/json, " ++ v]> h
  | None => <[lit "content-type" := lit "application/json"]> h
  end.

Definition jsonResponse (st : Z) (b : ErrorBody) (h : Headers) : Response :=
  {| status := st; responseHeaders := jsonHeaders h; body := Json b |}.

End Http.

(** ** Origin validation *)

Module Origin.
Import Http.

Section WithURL.

(** [new URL(s).origin]: [None] when the constructor throws a
    [TypeError] because [s] does not parse as an absolute URL. *)
Variable urlOrigin : jsstring -> option jsstring.

(** [validateOrigin(request)] *)
Definition validateOrigin (cfg : Config.t) (request : Request)
    : Completion bool :=
  let origin := headers request !! lit "origin" in
  let referer := headers request !! lit "referer" in
  if negb (truthyOpt origin) && negb (truthyOpt referer) then Normal true
  else
    let allowedOrigins := Config.allowedOrigins cfg in
    if (length allowedOrigins =? 0)%nat then Normal true
    else
      let requestOrigin :=
        match origin with
        | Some (c :: o) => Normal (c :: o)
        | _ =>
            match referer with
            | Some (c :: r) =>
                match urlOrigin (c :: r) with
                | Some o => Normal o
                | None => ThrowTypeError
                end
            | _ => Normal []
            end
        end in
      match requestOrigin with
      | Normal o => Normal (bool_decide (o ∈ allowedOrigins))
      | ThrowTypeError => ThrowTypeError
      end.

End WithURL.

(** *** A model of [new URL(s).origin]

    The URL parser belongs to the platform.  This model follows the
    WHATWG URL Standard in its failures: without a base URL, an input
    must begin (after leading C0 controls and spaces) with a scheme, an
    ASCII letter followed by letters, digits, [+], [-] or [.] up to a
    colon, otherwise parsing fails and the constructor throws; and an
    [http] or [https] URL needs a host.  The origin of an [http] or
    [https] URL is printed from the authority as it is written (no
    credentials, IDNA, IP address or port normalisation); other schemes
    have the opaque origin, printed [null].

    It is no full parser: it takes authorities that the parser refuses,
    and normalises nothing.  The properties are proved for every parser,
    which they take as the parameter [urlOrigin]; the model serves the
    examples only, on a text without a scheme and on URLs with a plain
    host name, where it gives what the parser gives. *)

Definition isAlpha (c : N) : bool :=
  ((97 <=? c) && (c <=? 122) || (65 <=? c) && (c <=? 90))%N.

Definition isSchemeChar (c : N) : bool :=
  (isAlpha c || (48 <=? c) && (c <=? 57)
   || (c =? 43) || (c =? 45) || (c =? 46))%N.

(** The scheme (reversed in [acc] while scanning) and what follows the
    colon. *)
Fixpoint schemeGo (acc : jsstring) (s : jsstring)
    : option (jsstring * jsstring) :=
  match s with
  | c :: s' =>
      if (c =? 58)%N then Some (rev acc, s')
      else if isSchemeChar c then schemeGo (Regex.upcase c :: acc) s'
      else None
  | [] => None
  end.

Definition scheme (s : jsstring) : option (jsstring * jsstring) :=
  match s with
  | c :: _ => if isAlpha c then schemeGo [] s else None
  | [] => None
  end.

Fixpoint dropC0 (s : jsstring) : jsstring :=
  match s with
  | c :: s' => if (c <=? 32)%N then dropC0 s' else s
  | [] => []
  end.

Fixpoint dropSlashes (s : jsstring) : jsstring :=
  match s with
  | c :: s' => if ((c =? 47) || (c =? 92))%N then dropSlashes s' else s
  | [] => []
  end.

Fixpoint authority (s : jsstring) : jsstring :=
  match s with
  | c :: s' =>
      if ((c =? 47) || (c =? 92) || (c =? 63) || (c =? 35))%N then []
      else c :: authority s'
  | [] => []
  end.

Definition whatwgOrigin (s : jsstring) : option jsstring :=
  match scheme (dropC0 s) with
  | None => None
  | Some (sch, rest) =>
      if JS.eqb sch (lit "HTTP") || JS.eqb sch (lit "HTTPS") then
        match authority (dropSlashes rest) with
        | [] => None
        | host =>
            Some ((if JS.eqb sch (lit "HTTP") then lit "http://"
                   else lit "https://") ++ host)
        end
      else Some (lit "null")
  end.

End Origin.

(** ** The middleware *)

Module Middleware.
Import Http.

(** The two module-level stores. *)
Record Stores := {
  rateLimitStore : RateLimit.Store;
  csrfTokens : Csrf.TokenSet;
}.

(** What the handler reads from its environment during one request. *)
Record Inputs := {
  next : Response;        (* the response of [await next()] *)
  now : Z;                (* [Date.now()] inside [checkRateLimit] *)
  nowAfter : Z;           (* [Date.now()] when [Retry-After] is computed *)
  randomUUID : jsstring;  (* [crypto.randomUUID()] *)
}.

(** What the handler returns, and the form data it put in place of the
    request's, if it did. *)
Record Outcome := {
  response : Response;
  sanitizedForm : option (list (jsstring * FormValue));
}.

(** [getClientIP(request)] *)
Definition getClientIP (request : Request) : jsstring :=
  let headers := headers request in
  let forwarded :=
    match headers !! lit "x-forwarded-for" with
    | Some v => hd_error (split 44 v)
    | None => None
    end in
  orElse (headers !! lit "cf-connecting-ip")
    (orElse (headers !! lit "x-real-ip")
       (orElse forwarded
          (orElse (headers !! lit "x-client-ip") (lit "127.0.0.1")))).

Definition securityHeaders (cfg : Config.t) : list (jsstring * jsstring) :=
  [ (lit "x-content-type-options", lit "nosniff");
    (lit "x-frame-options", lit "DENY");
    (lit "x-xss-protection", lit "1; mode=block");
    (lit "referrer-policy", lit "strict-origin-when-cross-origin");
    (lit "permissions-policy", lit "camera=(), microphone=(), geolocation=()");
    (lit "strict-transport-security", lit "max-age=31536000; includeSubDomains");
    (lit "content-security-policy",
      lit "default-src 'self'; script-src 'self' 'unsafe-inline' 'unsafe-eval' https://cdn.jsdelivr.net; style-src 'self' 'unsafe-inline' https://cdn.jsdelivr.net; img-src 'self' data: https:; font-src 'self' https://fonts.gstatic.com; connect-src 'self' "
      ++ Config.apiBaseUrl cfg
      ++ lit "; frame-ancestors 'none'; base-uri 'self'; form-action 'self'") ].

Definition setAll (kvs : list (jsstring * jsstring)) (h : Headers) : Headers :=
  foldl (fun h kv => set (fst kv) (snd kv) h) h kvs.

(** The test that skips static assets. *)
Definition isStaticAsset (pathname : jsstring) : bool :=
  startsWith (lit "/_astro/") pathname
  || startsWith (lit "/favicon") pathname
  || existsb (fun ext => endsWith (lit "." ++ ext) pathname)
       (map lit ["js"; "css"; "png"; "jpg"; "jpeg"; "gif"; "svg"; "ico";
                 "woff"; "woff2"; "ttf"]%string).

Definition isSensitive (pathname : jsstring) : bool :=
  existsb (fun endpoint => includes endpoint pathname)
    (map lit ["/login"; "/register"; "/api/"; "/auth/"]%string).

Definition isStateChanging (method : jsstring) : bool :=
  bool_decide (method ∈ map lit ["POST"; "PUT"; "DELETE"; "PATCH"]%string).

Definition boolToString (b : bool) : jsstring :=
  if b then lit "true" else lit "false".

Section WithURL.

Variable urlOrigin : jsstring -> option jsstring.

(** The last stages of [onRequest], after the origin was accepted:
    sanitization of form posts, issue of a CSRF token. *)
Definition finish (cfg : Config.t) (io : Inputs) (request : Request)
    (response : Response) (st : Stores) : Outcome * Stores :=
  let method := method request in
  let pathname := Http.pathname request in
  let sanitized :=
    if JS.eqb method (lit "POST")
       && match headers request !! lit "content-type" with
          | Some ct => includes (lit "application/x-www-form-urlencoded") ct
          | None => false
          end
    then
      match formData request with
      | Some entries =>
          Some (map (fun kv =>
                       match snd kv with
                       | Text v => (fst kv, Text (Sanitizer.sanitizeInput v))
                       | File f => (fst kv, File f)
                       end) entries)
      | None => None         (* caught: the original request goes on *)
      end
    else None in
  if Config.enableCSRF cfg
     && JS.eqb method (lit "GET")
     && (includes (lit "/login") pathname
         || includes (lit "/register") pathname
         || includes (lit "/dashboard") pathname)
  then
    let '(csrfToken, tokens) :=
      Csrf.generateCSRFToken (randomUUID io) (csrfTokens st) in
    let h :=
      set (lit "set-cookie")
        (lit "csrf_token=" ++ csrfToken
         ++ lit "; Path=/; HttpOnly=false; Secure="
         ++ boolToString (Config.isProd cfg)
         ++ lit "; SameSite=Strict; Max-Age=3600")
        (set (lit "x-csrf-token") csrfToken (responseHeaders response)) in
    ({| response := {| status := status response; responseHeaders := h;
                       body := body response |};
        sanitizedForm := sanitized |},
     {| rateLimitStore := rateLimitStore st; csrfTokens := tokens |})
  else ({| response := response; sanitizedForm := sanitized |}, st).

(** The stages from the CSRF check on. *)
Definition afterRateLimit (cfg : Config.t) (io : Inputs) (request : Request)
    (response : Response) (st : Stores) : Completion Outcome * Stores :=
  let method := method request in
  let pathname := Http.pathname request in
  let csrfCheck : bool * Stores :=
    if Config.isProd cfg && Config.enableCSRF cfg && isStateChanging method
    then
      if negb (startsWith (lit "/api/") pathname)
         || negb (truthyOpt (headers request !! lit "authorization"))
      then
        let csrfToken :=
          match headers request !! lit "x-csrf-token" with
          | Some (c :: t) => Some (c :: t)
          | _ => csrfTokenParam request
          end in
        match csrfToken with
        | Some (c :: t) =>
            let '(ok, tokens) :=
              Csrf.validateCSRFToken (c :: t) (csrfTokens st) in
            (ok, {| rateLimitStore := rateLimitStore st;
                    csrfTokens := tokens |})
        | _ => (false, st)
        end
      else (true, st)
    else (true, st) in
  let '(passed, st) := csrfCheck in
  if negb passed then
    (Normal
       {| response :=
            jsonResponse 403
              {| error := lit "CSRF token missing or invalid";
                 message := lit "Request blocked for security reasons";
                 retryAfter := None |}
              (responseHeaders response);
          sanitizedForm := None |}, st)
  else
    match Origin.validateOrigin urlOrigin cfg request with
    | ThrowTypeError => (ThrowTypeError, st)
    | Normal false =>
        (Normal
           {| response :=
                jsonResponse 403
                  {| error := lit "Invalid origin";
                     message := lit "Request from unauthorized origin";
                     retryAfter := None |}
                  (responseHeaders response);
              sanitizedForm := None |}, st)
    | Normal true =>
        let '(o, st) := finish cfg io request response st in
        (Normal o, st)
    end.

(** [onRequest(context, next)] *)
Definition onRequest (cfg : Config.t) (io : Inputs) (request : Request)
    (st : Stores) : Completion Outcome * Stores :=
  let method := method request in
  let pathname := Http.pathname request in
  let clientIP := getClientIP request in
  if isStaticAsset pathname then
    (Normal {| response := next io; sanitizedForm := None |}, st)
  else
    let response := next io in
    let h := setAll (securityHeaders cfg) (responseHeaders response) in
    let h :=
      if (0 <? length (Config.allowedOrigins cfg))%nat then
        match headers request !! lit "origin" with
        | Some (c :: o) =>
            if bool_decide ((c :: o) ∈ Config.allowedOrigins cfg) then
              set (lit "access-control-allow-credentials") (lit "true")
                (set (lit "access-control-allow-origin") (c :: o) h)
            else h
        | _ => h
        end
      else h in
    if JS.eqb method (lit "OPTIONS") then
      let h :=
        setAll
          [ (lit "access-control-allow-methods",
             lit "GET, POST, PUT, DELETE, OPTIONS");
            (lit "access-control-allow-headers",
             lit "Content-Type, Authorization, X-CSRF-Token");
            (lit "access-control-max-age", lit "86400") ] h in
      (Normal {| response := {| status := 200; responseHeaders := h;
                                body := Empty |};
                 sanitizedForm := None |}, st)
    else
      let response :=
        {| status := status response; responseHeaders := h;
           body := body response |} in
      if Config.enableRateLimiting cfg && isSensitive pathname then
        let '(rateLimit, store) :=
          RateLimit.checkRateLimit cfg clientIP pathname (now io)
            (rateLimitStore st) in
        let st := {| rateLimitStore := store; csrfTokens := csrfTokens st |} in
        if negb (RateLimit.allowed rateLimit) then
          let resetTime := default None (RateLimit.resultResetTime rateLimit) in
          let retryAfter :=
            ceilDiv1000 (num_add resetTime (Some (- nowAfter io))) in
          let h :=
            setAll
              [ (lit "retry-after", numToString retryAfter);
                (lit "x-ratelimit-limit",
                 numToString (Config.loginAttempts cfg));
                (lit "x-ratelimit-remaining", lit "0");
                (lit "x-ratelimit-reset", numToString resetTime) ] h in
          (Normal
             {| response :=
                  jsonResponse 429
                    {| error := lit "Too many requests";
                       message :=
                         lit "Rate limit exceeded. Please try again later.";
                       retryAfter := Some retryAfter |} h;
                sanitizedForm := None |}, st)
        else afterRateLimit cfg io request response st
      else afterRateLimit cfg io request response st.

End WithURL.

(** The headers of the response once [onRequest] has set the security
    headers and the CORS headers on those that [next] gave, [h0]. *)
Definition decorated (cfg : Config.t) (request : Request) (h0 : Headers)
    : Headers :=
  let h := setAll (securityHeaders cfg) h0 in
  if (0 <? length (Config.allowedOrigins cfg))%nat then
    match headers request !! lit "origin" with
    | Some (c :: o) =>
        if bool_decide ((c :: o) ∈ Config.allowedOrigins cfg) then
          set (lit "access-control-allow-credentials") (lit "true")
            (set (lit "access-control-allow-origin") (c :: o) h)
        else h
    | _ => h
    end
  else h.

(** The names of the headers that the stages after these set. *)
Definition lateNames : list jsstring :=
  map lit ["access-control-allow-methods"; "access-control-allow-headers";
           "access-control-max-age"; "retry-after"; "x-ratelimit-limit";
           "x-ratelimit-remaining"; "x-ratelimit-reset"; "content-type";
           "x-csrf-token"; "set-cookie"]%string.

(** The condition under which [onRequest] issues a CSRF token. *)
Definition issuesToken (cfg : Config.t) (request : Request) : bool :=
  Config.enableCSRF cfg
  && JS.eqb (method request) (lit "GET")
  && (includes (lit "/login") (pathname request)
      || includes (lit "/register") (pathname request)
      || includes (lit "/dashboard") (pathname request)).

(** What the form sanitization does to one entry. *)
Definition sanitizeEntry (kv : jsstring * FormValue) : jsstring * FormValue :=
  match snd kv with
  | Text v => (fst kv, Text (Sanitizer.sanitizeInput v))
  | File f => (fst kv, File f)
  end.

End Middleware.

(** ** Field and form validation *)

Module Validator.

(** The values a form field can hold: the primitive values of JavaScript,
    numbers being integers or [NaN], and objects (functions and arrays
    among them).  Of an object the validation uses its truthiness and the
    text of its [toString()], nothing else: an object is given by the
    string that this call returns, or by [None] when the call throws, as
    it does for [Object.create(null)] and for the object parsed from the
    JSON text [{"toString": 1}], which have no such method.  Objects are
    plain data: they hold no accessor and no read-only property, and a
    [toString()] that returns anything but a string is left out, as are
    fractions, symbols and big integers. *)
Inductive Value :=
| VUndefined
| VNull
| VBool (b : bool)
| VNum (z : Z)
| VNaN
| VStr (s : jsstring)
| VObject (text : option jsstring).

(** [!v] *)
Definition falsy (v : Value) : bool :=
  match v with
  | VUndefined | VNull | VNaN => true
  | VBool b => negb b
  | VNum z => z =? 0
  | VStr s => negb (truthyStr s)
  | VObject _ => false
  end.

(** [v.toString()]: a [TypeError] ([None]) on [undefined] and [null], and
    on an object whose [toString()] throws. *)
Definition toString (v : Value) : option jsstring :=
  match v with
  | VUndefined | VNull => None
  | VBool b => Some (if b then lit "true" else lit "false")
  | VNum z => Some (numToString (Some z))
  | VNaN => Some (numToString None)
  | VStr s => Some s
  | VObject text => text
  end.

(** [Number.MAX_SAFE_INTEGER], 2^53 - 1. *)
Definition maxSafeInteger : Z := 9007199254740991.

(** The values whose [toString()] the embedding gives as JavaScript does:
    all but the integers beyond [maxSafeInteger] in size, which JavaScript
    rounds and, from 10^21 on, prints with an exponent ([1e+21]). *)
Definition safe (v : Value) : bool :=
  match v with
  | VNum z => (- maxSafeInteger <=? z) && (z <=? maxSafeInteger)
  | _ => true
  end.

(** What a [custom] validator returns: [boolean | string]. *)
Inductive CustomResult :=
| CBool (b : bool)
| CString (s : jsstring).

(** [ValidationRule]; an absent field is [None].  A pattern is the [test]
    method of its regular expression (the patterns of the schemas carry no
    [g] or [y] flag, so [test] keeps no state). *)
Record ValidationRule := {
  required : option bool;
  minLength : option Z;
  maxLength : option Z;
  pattern : option (jsstring -> bool);
  custom : option (Value -> CustomResult);
  sanitize : option (jsstring -> jsstring);
}.

Record ValidationResult := {
  isValid : bool;
  errors : list jsstring;
  sanitizedValue : Value;
}.

Record FormValidationResult := {
  formIsValid : bool;
  formErrors : gmap jsstring (list jsstring);
  sanitizedData : gmap jsstring Value;
}.

(** Truthiness of [boolean | undefined] and of [number | undefined]. *)
Definition isTrue (b : option bool) : bool := default false b.

Definition nonZero (n : option Z) : option Z :=
  match n with
  | Some z => if z =? 0 then None else Some z
  | None => None
  end.

Definition msgRequired : jsstring := lit "Este campo es requerido".

Definition msgMinLength (n : Z) : jsstring :=
  lit "Debe tener al menos " ++ numToString (Some n) ++ lit " caracteres".

(** [No puede tener más de n caracteres]; 225 is the letter a with acute
    accent. *)
Definition msgMaxLength (n : Z) : jsstring :=
  lit "No puede tener m" ++ [225%N] ++ lit "s de " ++ numToString (Some n)
  ++ lit " caracteres".

(** [El formato no es válido], [El valor no es válido] *)
Definition msgPattern : jsstring :=
  lit "El formato no es v" ++ [225%N] ++ lit "lido".

Definition msgCustom : jsstring :=
  lit "El valor no es v" ++ [225%N] ++ lit "lido".

(** The value after the sanitizing step of [validateField]. *)
Definition sanitized (rules : ValidationRule) (value : Value) : Value :=
  match sanitize rules, value with
  | Some f, VStr s => VStr (f s)
  | _, _ => value
  end.

(** [Validator.validateField(value, rules)]; [None] is a [TypeError]
    thrown by a [toString()] call. *)
Definition validateField (value : Value) (rules : ValidationRule)
    : option ValidationResult :=
  let sanitizedValue := sanitized rules value in
  (* rules.required && (!sanitizedValue || sanitizedValue.toString().trim() === '') *)
  missing ←
    (if isTrue (required rules) then
       if falsy sanitizedValue then Some true
       else s ← toString sanitizedValue; Some (JS.eqb (trim s) [])
     else Some false);
  if (missing : bool) then
    Some {| isValid := false; errors := [msgRequired];
            sanitizedValue := sanitizedValue |}
  else if falsy sanitizedValue && negb (isTrue (required rules)) then
    Some {| isValid := true; errors := [];
            sanitizedValue := sanitizedValue |}
  else
    tooShort ←
      match nonZero (minLength rules) with
      | Some n =>
          s ← toString sanitizedValue;
          Some (if Z.of_nat (length s) <? n then [msgMinLength n] else [])
      | None => Some []
      end;
    tooLong ←
      match nonZero (maxLength rules) with
      | Some n =>
          s ← toString sanitizedValue;
          Some (if n <? Z.of_nat (length s) then [msgMaxLength n] else [])
      | None => Some []
      end;
    badFormat ←
      match pattern rules with
      | Some test =>
          s ← toString sanitizedValue;
          Some (if test s then [] else [msgPattern])
      | None => Some []
      end;
    let rejected :=
      match custom rules with
      | Some f =>
          match f sanitizedValue with
          | CString m => [m]
          | CBool b => if b then [] else [msgCustom]
          end
      | None => []
      end in
    let errors := tooShort ++ tooLong ++ badFormat ++ rejected in
    Some {| isValid := (length errors =? 0)%nat; errors := errors;
            sanitizedValue := sanitizedValue |}.

(** The text that V8 and JavaScriptCore give for a built-in function of
    the given name.  ECMAScript leaves the spacing of this text to the
    implementation, so the functions below take the text as a parameter;
    this one serves the examples. *)
Definition nativeCode (name : jsstring) : jsstring :=
  lit "function " ++ name ++ lit "() { [native code] }".

(** The names under which [Object.prototype] holds a method, [constructor]
    apart. *)
Definition objectPrototypeMethods : list jsstring :=
  map lit ["__defineGetter__"; "__defineSetter__"; "__lookupGetter__";
           "__lookupSetter__"; "hasOwnProperty"; "isPrototypeOf";
           "propertyIsEnumerable"; "toLocaleString"; "toString";
           "valueOf"]%string.

(** [obj[name] = value] on a plain object, one that inherits from
    [Object.prototype]; the map holds the properties of the object's own.
    The assignment makes or changes such a property, except under the name
    [__proto__], which [Object.prototype] holds as an accessor: its setter
    replaces the prototype of [obj] when the value is an object or [null],
    does nothing otherwise, and in both cases makes no property.  (The
    prototype itself is not kept: a prototype that is plain data, as an
    array of messages is, does not change what a later assignment
    does.) *)
Definition assign {A : Type} (name : jsstring) (value : A)
    (obj : gmap jsstring A) : gmap jsstring A :=
  if JS.eqb name (lit "__proto__") then obj else <[name := value]> obj.

Section WithNativeText.

(** The text of [f.toString()] for the built-in function named so. *)
Variable nativeText : jsstring -> jsstring.

(** What a plain object inherits under a name: a method of
    [Object.prototype], the function [Object] under [constructor], and
    under [__proto__], through the getter of the accessor,
    [Object.prototype] itself, whose [toString()] is [[object Object]]. *)
Definition inherited (name : jsstring) : option Value :=
  if bool_decide (name ∈ objectPrototypeMethods)
  then Some (VObject (Some (nativeText name)))
  else if JS.eqb name (lit "constructor")
  then Some (VObject (Some (nativeText (lit "Object"))))
  else if JS.eqb name (lit "__proto__")
  then Some (VObject (Some (lit "[object Object]")))
  else None.

(** [data[fieldName]] of a plain object given by the properties of its
    own: the property when there is one, else what the object inherits
    under that name, else [undefined]. *)
Definition field (data : gmap jsstring Value) (fieldName : jsstring) : Value :=
  match data !! fieldName with
  | Some v => v
  | None => default VUndefined (inherited fieldName)
  end.

(** One round of the loop of [validateForm]. *)
Definition validateEntry (data : gmap jsstring Value)
    (acc : option FormValidationResult) (entry : jsstring * ValidationRule)
    : option FormValidationResult :=
  acc ← acc;
  let fieldName := fst entry in
  let rules := snd entry in
  let fieldValue := field data fieldName in
  result ← validateField fieldValue rules;
  let acc :=
    if negb (isValid result) then
      {| formIsValid := false;
         formErrors := assign fieldName (errors result) (formErrors acc);
         sanitizedData := sanitizedData acc |}
    else acc in
  Some {| formIsValid := formIsValid acc;
          formErrors := formErrors acc;
          sanitizedData :=
            assign fieldName (sanitizedValue result) (sanitizedData acc) |}.

Definition validateEntries (data : gmap jsstring Value)
    (entries : list (jsstring * ValidationRule))
    : option FormValidationResult :=
  foldl (validateEntry data)
    (Some {| formIsValid := true; formErrors := ∅; sanitizedData := ∅ |})
    entries.

(** [Validator.validateForm(data, schema)]; [data] and [schema] are plain
    objects, given by the properties of their own, and [Object.entries]
    lists the fields of the schema, each once.  (The order of the listing
    does not show in the result, which is made of two records and a flag.)
    [None] is a [TypeError] thrown by [validateField]. *)
Definition validateForm (data : gmap jsstring Value)
    (schema : gmap jsstring ValidationRule) : option FormValidationResult :=
  validateEntries data (map_to_list schema).

End WithNativeText.

(** The errors that the checks after the required check report, in their
    order, for a value whose text is [s]. *)
Definition checkErrors (rules : ValidationRule) (sanitizedValue : Value)
    (s : jsstring) : list jsstring :=
  match nonZero (minLength rules) with
  | Some n => if Z.of_nat (length s) <? n then [msgMinLength n] else []
  | None => []
  end
  ++ match nonZero (maxLength rules) with
     | Some n => if n <? Z.of_nat (length s) then [msgMaxLength n] else []
     | None => []
     end
  ++ match pattern rules with
     | Some test => if test s then [] else [msgPattern]
     | None => []
     end
  ++ match custom rules with
     | Some f =>
         match f sanitizedValue with
         | CString m => [m]
         | CBool b => if b then [] else [msgCustom]
         end
     | None => []
     end.

(** A schema with two required fields, in the manner of
    [validationSchemas], and a submission that breaks both rules. *)
Definition sampleEmailRule : ValidationRule :=
  {| required := Some true; minLength := Some 5; maxLength := Some 254;
     pattern := None; custom := None;
     sanitize := Some Sanitizer.sanitizeString |}.

Definition samplePasswordRule : ValidationRule :=
  {| required := Some true; minLength := Some 8; maxLength := Some 128;
     pattern := None; custom := None;
     sanitize := Some Sanitizer.sanitizeString |}.

Definition sampleSchema : gmap jsstring ValidationRule :=
  {[ lit "email" := sampleEmailRule; lit "password" := samplePasswordRule ]}.

Definition sampleData : gmap jsstring Value :=
  {[ lit "email" := VStr (lit " <bad> "); lit "password" := VStr (lit "x") ]}.

End Validator.

(** ** [lib/config.ts]: the validation helpers *)

Module ConfigHelpers.
Import Regex.

(** [{ isValid: boolean; errors: string[] }] *)
Record Report := { isValid : bool; errors : list jsstring }.

(** [/[A-Z]/], [/[a-z]/], [/[0-9]/] and the class of special characters
    (34 is the double quote). *)
Definition upperCase : regex := Atom (OneOf (range 65 26)).
Definition lowerCase : regex := Atom (OneOf (range 97 26)).
Definition digit : regex := Atom (OneOf (range 48 10)).
Definition specialChar : regex :=
  Atom (OneOf (lit "!@#$%^&*(),.?" ++ [34%N] ++ lit ":{}|<>")).

(** The messages; 241, 250, 225 are the letters n with tilde, u and a
    with acute accent. *)
Definition laContrasena : jsstring := lit "La contrase" ++ [241%N] ++ lit "a ".

Definition msgPasswordLength : jsstring :=
  laContrasena ++ lit "debe tener al menos "
  ++ numToString (Some Config.passwordMinLength) ++ lit " caracteres".

Definition msgUppercase : jsstring :=
  laContrasena ++ lit "debe contener al menos una letra may" ++ [250%N]
  ++ lit "scula".

Definition msgLowercase : jsstring :=
  laContrasena ++ lit "debe contener al menos una letra min" ++ [250%N]
  ++ lit "scula".

Definition msgNumber : jsstring :=
  laContrasena ++ lit "debe contener al menos un n" ++ [250%N] ++ lit "mero".

Definition msgSpecial : jsstring :=
  laContrasena ++ lit "debe contener al menos un car" ++ [225%N]
  ++ lit "cter especial".

(** The five checks of [validatePassword], in their order. *)
Definition ruleErrors (password : jsstring) : list jsstring :=
  (if Z.of_nat (length password) <? Config.passwordMinLength
   then [msgPasswordLength] else [])
  ++ (if Config.requireUppercase && negb (test false upperCase password)
      then [msgUppercase] else [])
  ++ (if Config.requireLowercase && negb (test false lowerCase password)
      then [msgLowercase] else [])
  ++ (if Config.requireNumbers && negb (test false digit password)
      then [msgNumber] else [])
  ++ (if Config.requireSpecialChars && negb (test false specialChar password)
      then [msgSpecial] else []).

(** [validatePassword(password)] *)
Definition validatePassword (password : jsstring) : Report :=
  let errors := ruleErrors password in
  {| isValid := (length errors =? 0)%nat; errors := errors |}.

(** The class [[^\s@]] of the e-mail pattern. *)
Definition notSpaceNorAt (c : N) : bool :=
  negb (isWhiteSpace c || (c =? 64)%N).

(** [/^[^\s@]+@[^\s@]+\.[^\s@]+$/]: three greedy runs, with the sign [@]
    and a dot between them, from the first position to the end. *)
Definition emailPattern (s : jsstring) : option jsstring :=
  plusFrom notSpaceNorAt s
    (fun s1 =>
       match s1 with
       | 64%N :: s2 =>
           plusFrom notSpaceNorAt s2
             (fun s3 =>
                match s3 with
                | 46%N :: s4 => plusFrom notSpaceNorAt s4 atEnd
                | _ => None
                end)
       | _ => None
       end).

(** [validateEmail(email)] *)
Definition validateEmail (email : jsstring) : bool :=
  match emailPattern email with
  | Some _ => true
  | None => false
  end.

(** The class [[a-zA-Z0-9_-]] and the pattern [/^[a-zA-Z0-9_-]+$/]. *)
Definition isUsernameChar (c : N) : bool := isWordChar c || (c =? 45)%N.

Definition usernamePattern (s : jsstring) : option jsstring :=
  plusFrom isUsernameChar s atEnd.

Definition msgUsernameShort : jsstring :=
  lit "El nombre de usuario debe tener al menos "
  ++ numToString (Some Config.usernameMinLength) ++ lit " caracteres".

Definition msgUsernameLong : jsstring :=
  lit "El nombre de usuario no puede tener m" ++ [225%N] ++ lit "s de "
  ++ numToString (Some Config.usernameMaxLength) ++ lit " caracteres".

Definition msgUsernameChars : jsstring :=
  lit "El nombre de usuario solo puede contener letras, n" ++ [250%N]
  ++ lit "meros, guiones y guiones bajos".

(** [validateUsername(username)] *)
Definition validateUsername (username : jsstring) : Report :=
  let errors :=
    (if Z.of_nat (length username) <? Config.usernameMinLength
     then [msgUsernameShort] else [])
    ++ (if Config.usernameMaxLength <? Z.of_nat (length username)
        then [msgUsernameLong] else [])
    ++ (match usernamePattern username with
        | Some _ => []
        | None => [msgUsernameChars]
        end) in
  {| isValid := (length errors =? 0)%nat; errors := errors |}.

End ConfigHelpers.

(** ** The validation module: the functions beside the [Validator] class *)

Module Validation.
Import Regex.

(** [/(.)\1{3,}/.test(s)]: somewhere in [s], a character that is no line
    terminator is followed by three more of itself. *)
Fixpoint hasRepeatedRun (s : jsstring) : bool :=
  match s with
  | a :: s' =>
      match s' with
      | b :: c :: d :: _ =>
          negb (isLineTerminator a) && (a =? b)%N && (a =? c)%N && (a =? d)%N
      | _ => false
      end
      || hasRepeatedRun s'
  | [] => false
  end.

(** The list [weakPatterns]: [/^123456/], [/^password/i], [/^qwerty/i],
    [/^admin/i], [/(.)\1{3,}/]; the loop stops at the first that
    matches. *)
Definition isWeak (password : jsstring) : bool :=
  testAtStart false (text (lit "123456")) password
  || testAtStart true (text (lit "password")) password
  || testAtStart true (text (lit "qwerty")) password
  || testAtStart true (text (lit "admin")) password
  || hasRepeatedRun password.

(** [La contraseña es demasiado común o débil]; 233 is the letter e with
    acute accent. *)
Definition msgWeak : jsstring :=
  ConfigHelpers.laContrasena ++ lit "es demasiado com" ++ [250%N]
  ++ lit "n o d" ++ [233%N] ++ lit "bil".

(** [validatePassword(password)] of the validation module: the five
    checks of the one in [config.ts], word for word, then the weak
    patterns. *)
Definition validatePassword (password : jsstring) : ConfigHelpers.Report :=
  let errors :=
    ConfigHelpers.ruleErrors password
    ++ (if isWeak password then [msgWeak] else []) in
  {| ConfigHelpers.isValid := (length errors =? 0)%nat;
     ConfigHelpers.errors := errors |}.

(** [validateEmail(email)]: the pattern of [config.ts], written out
    again. *)
Definition validateEmail (email : jsstring) : bool :=
  ConfigHelpers.validateEmail email.

End Validation.

(** ** [validationSchemas]: the schema of the login form *)

Module Schemas.
Import Validator.

Section WithLowerCase.

Variable toLowerCase : jsstring -> jsstring.

(** [validationSchemas.login.email] (the [register] and [contact] schemas
    have the same rule for their [email]); its pattern is the one of
    [validateEmail], written out again. *)
Definition emailRule : ValidationRule :=
  {| required := Some true; minLength := None; maxLength := Some 254;
     pattern := Some Validation.validateEmail; custom := None;
     sanitize := Some (Sanitizer.sanitizeEmail toLowerCase) |}.

(** [validationSchemas.login.password] *)
Definition loginPasswordRule : ValidationRule :=
  {| required := Some true; minLength := Some 1; maxLength := Some 128;
     pattern := None; custom := None;
     sanitize := Some Sanitizer.sanitizeString |}.

(** [validationSchemas.login] *)
Definition login : gmap jsstring ValidationRule :=
  {[ lit "email" := emailRule; lit "password" := loginPasswordRule ]}.

End WithLowerCase.

End Schemas.

(** ** The client-side [RateLimiter] class *)

Module RateLimiter.

(** [attempts = new Map<string, number[]>()] *)
Abbreviation Attempts := (gmap jsstring (list Z)).

(** [isAllowed(key, maxAttempts = 5, windowMs = 60000)]; an argument left
    out is [None]; [now] is the value of [Date.now()]. *)
Definition isAllowed (key : jsstring) (maxAttempts windowMs : option Z)
    (now : Z) (attempts : Attempts) : bool * Attempts :=
  let maxAttempts := default 5 maxAttempts in
  let windowMs := default 60000 windowMs in
  let stored := default [] (attempts !! key) in
  let validAttempts := filter (fun time => now - time < windowMs) stored in
  if maxAttempts <=? Z.of_nat (length validAttempts) then (false, attempts)
  else (true, <[key := validAttempts ++ [now]]> attempts).

(** [Math.min(...l)] of a list that is not empty. *)
Definition minimum (x : Z) (l : list Z) : Z := foldl Z.min x l.

(** [getRemainingTime(key, windowMs = 60000)] *)
Definition getRemainingTime (key : jsstring) (windowMs : option Z) (now : Z)
    (attempts : Attempts) : Z :=
  let windowMs := default 60000 windowMs in
  match default [] (attempts !! key) with
  | [] => 0
  | first :: rest =>
      let oldestAttempt := minimum first rest in
      let remaining := windowMs - (now - oldestAttempt) in
      Z.max 0 remaining
  end.

(** The answers to consecutive [isAllowed] calls for one key at the given
    times, and the store after them. *)
Fixpoint calls (key : jsstring) (maxAttempts windowMs : option Z)
    (times : list Z) (attempts : Attempts) : list bool * Attempts :=
  match times with
  | [] => ([], attempts)
  | now :: rest =>
      let '(ok, attempts1) := isAllowed key maxAttempts windowMs now attempts in
      let '(oks, attempts2) := calls key maxAttempts windowMs rest attempts1 in
      (ok :: oks, attempts2)
  end.

(** The times of the calls that were allowed. *)
Fixpoint granted (times : list Z) (answers : list bool) : list Z :=
  match times, answers with
  | t :: times', ok :: answers' =>
      if (ok : bool) then t :: granted times' answers' else granted times' answers'
  | _, _ => []
  end.

End RateLimiter.

(* ===================================================================== *)
(** * Part II: properties                                                 *)
(* ===================================================================== *)

(** ** The rate limiter *)

Section RateLimitProperties.
Import RateLimit.

Variable cfg : Config.t.
Variables maxAttempts windowMs : Z.
Hypothesis Hmax : Config.loginAttempts cfg = Some maxAttempts.
Hypothesis Hwin : Config.loginWindowMs cfg = Some windowMs.

(** The first call for a key, or the first one after its window ran out,
    stores a fresh entry. *)
Lemma checkRateLimit_fresh (ip endpoint : jsstring) (now : Z) (st : Store) :
  match st !! key ip endpoint with
  | None => True
  | Some e => num_gt (Some now) (resetTime e) = true
  end ->
  checkRateLimit cfg ip endpoint now st =
    (okResult,
     <[key ip endpoint := {| count := 1; resetTime := Some (now + windowMs) |}]> st).
Proof.
  intros H. unfold checkRateLimit. rewrite Hwin. cbn [num_add].
  destruct (st !! key ip endpoint) as [e|]; [|reflexivity].
  rewrite H. reflexivity.
Qed.

(** Inside the window and below the quota, a call is counted. *)
Lemma checkRateLimit_counted (ip endpoint : jsstring) (now : Z) (st : Store) (c r : Z) :
  st !! key ip endpoint = Some {| count := c; resetTime := Some r |} ->
  now <= r -> c < maxAttempts ->
  checkRateLimit cfg ip endpoint now st =
    (okResult,
     <[key ip endpoint := {| count := c + 1; resetTime := Some r |}]> st).
Proof.
  intros Hk Hnow Hc. unfold checkRateLimit. rewrite Hk, Hmax.
  cbn [num_gt num_ge count resetTime].
  destruct (Z.ltb_spec r now); [lia|].
  destruct (Z.leb_spec maxAttempts c); [lia|]. reflexivity.
Qed.

(** Inside the window, once the quota is used up, a call is refused and
    the store is left as it is. *)
Lemma checkRateLimit_refused (ip endpoint : jsstring) (now : Z) (st : Store) (c r : Z) :
  st !! key ip endpoint = Some {| count := c; resetTime := Some r |} ->
  now <= r -> maxAttempts <= c ->
  checkRateLimit cfg ip endpoint now st =
    ({| allowed := false; resultResetTime := Some (Some r) |}, st).
Proof.
  intros Hk Hnow Hc. unfold checkRateLimit. rewrite Hk, Hmax.
  cbn [num_gt num_ge count resetTime].
  destruct (Z.ltb_spec r now); [lia|].
  destruct (Z.leb_spec maxAttempts c); [|lia]. reflexivity.
Qed.

(** Calls that stay inside the window and inside the quota are all
    allowed, and each is counted. *)
Lemma calls_counted (ip endpoint : jsstring) (r : Z) (times : list Z) : forall (st : Store) (c : Z),
  st !! key ip endpoint = Some {| count := c; resetTime := Some r |} ->
  Forall (fun t => t <= r) times ->
  c + Z.of_nat (length times) <= maxAttempts ->
  exists st',
    calls cfg ip endpoint times st = (replicate (length times) okResult, st')
    /\ st' !! key ip endpoint =
         Some {| count := c + Z.of_nat (length times); resetTime := Some r |}.
Proof.
  induction times as [|t times IH]; intros st c Hk Hall Hlen.
  - exists st. simpl. rewrite Z.add_0_r. auto.
  - inversion Hall as [|? ? Ht Hrest]; subst.
    simpl length in Hlen. simpl.
    rewrite (checkRateLimit_counted _ _ _ _ c r Hk Ht) by lia.
    destruct (IH (<[key ip endpoint := {| count := c + 1; resetTime := Some r |}]> st)
                (c + 1)) as (st' & Hcalls & Hk'); auto.
    + by rewrite lookup_insert_eq.
    + lia.
    + exists st'. rewrite Hcalls. split; [reflexivity|].
      rewrite Hk'. do 2 f_equal. lia.
Qed.

(** The store reached from the empty one by any sequence of calls. *)
Lemma run_snoc (cs : list Call) (c : Call) (st : Store) :
  run cfg (cs ++ [c]) st = snd (step cfg (run cfg cs st) c).
Proof. unfold run. by rewrite foldl_app. Qed.

Lemma step_count_bounded (st : Store) (c : Call) :
  1 <= maxAttempts ->
  (forall (k : jsstring) (e : Entry),
      st !! k = Some e -> 1 <= count e <= maxAttempts) ->
  forall (k : jsstring) (e : Entry),
    snd (step cfg st c) !! k = Some e -> 1 <= count e <= maxAttempts.
Proof.
  intros H1 Hinv k e. unfold step, checkRateLimit. rewrite Hmax.
  set (kk := key (callIp c) (callEndpoint c)).
  assert (Hfresh : forall r : jsnum,
             <[kk := {| count := 1; resetTime := r |}]> st !! k = Some e ->
             1 <= count e <= maxAttempts).
  { intros r. destruct (decide (kk = k)) as [->|Hne].
    - rewrite lookup_insert_eq. intros [= <-]. simpl. lia.
    - rewrite lookup_insert_ne by done. apply Hinv. }
  destruct (st !! kk) as [cur|] eqn:Hcur; [|apply Hfresh].
  destruct (num_gt _ _); [apply Hfresh|].
  cbn [num_ge]. destruct (Z.leb_spec maxAttempts (count cur)); cbn [snd].
  - apply Hinv.
  - destruct (decide (kk = k)) as [->|Hne].
    + rewrite lookup_insert_eq. intros [= <-]. simpl.
      specialize (Hinv _ _ Hcur). lia.
    + rewrite lookup_insert_ne by done. apply Hinv.
Qed.

Lemma run_count_bounded (cs : list Call) :
  1 <= maxAttempts ->
  forall (k : jsstring) (e : Entry),
    run cfg cs ∅ !! k = Some e -> 1 <= count e <= maxAttempts.
Proof.
  intros H1. induction cs as [|c cs IH] using rev_ind.
  - intros k e. unfold run. simpl. by rewrite lookup_empty.
  - rewrite run_snoc. by apply step_count_bounded.
Qed.

End RateLimitProperties.

(** C1. With [maxAttempts >= 1], for every client and route whose first
    call opens a window (no entry for the key, or an entry whose reset time
    has passed), [maxAttempts] consecutive calls, all made no later than
    [windowMs] after the first, are allowed; one more call inside the
    window is refused, with the reset time stored by the first call, the
    time of the first call plus [windowMs], and leaves the store alone.
    With no environment variable set, [maxAttempts] is 5 and [windowMs] is
    300000. *)
Theorem checkRateLimit_quota_per_window :
  (Config.loginAttempts (Config.config Config.unsetEnv) = Some 5
   /\ Config.loginWindowMs (Config.config Config.unsetEnv) = Some 300000)
  /\ forall (cfg : Config.t) (maxAttempts windowMs : Z)
            (ip endpoint : jsstring) (t0 : Z) (later : list Z) (t : Z)
            (st : RateLimit.Store),
      Config.loginAttempts cfg = Some maxAttempts ->
      Config.loginWindowMs cfg = Some windowMs ->
      1 <= maxAttempts ->
      match st !! RateLimit.key ip endpoint with
      | None => True
      | Some e => num_gt (Some t0) (RateLimit.resetTime e) = true
      end ->
      Z.of_nat (length (t0 :: later)) = maxAttempts ->
      Forall (fun t' => t' <= t0 + windowMs) later ->
      t <= t0 + windowMs ->
      exists st',
        RateLimit.calls cfg ip endpoint (t0 :: later) st =
          (replicate (length (t0 :: later))
             {| RateLimit.allowed := true; RateLimit.resultResetTime := None |},
           st')
        /\ RateLimit.checkRateLimit cfg ip endpoint t st' =
             ({| RateLimit.allowed := false;
                 RateLimit.resultResetTime := Some (Some (t0 + windowMs)) |},
              st').
Proof.
  split; [split; reflexivity|].
  intros cfg maxAttempts windowMs ip endpoint t0 later t st
    Hmax Hwin H1 Hopen Hlen Hall Ht.
  simpl length in Hlen.
  destruct (calls_counted cfg maxAttempts Hmax ip endpoint (t0 + windowMs) later
              (<[RateLimit.key ip endpoint :=
                   {| RateLimit.count := 1;
                      RateLimit.resetTime := Some (t0 + windowMs) |}]> st) 1)
    as (st' & Hcalls & Hk); auto.
  - by rewrite lookup_insert_eq.
  - lia.
  - exists st'. split.
    + simpl. rewrite (checkRateLimit_fresh cfg windowMs Hwin _ _ _ _ Hopen).
      rewrite Hcalls. reflexivity.
    + apply (checkRateLimit_refused cfg maxAttempts Hmax _ _ _ _ _ _ Hk); lia.
Qed.

(** Five calls in the first two minutes of a window of five minutes, then
    a sixth. *)
Lemma checkRateLimit_quota_per_window_witness :
  exists st',
    RateLimit.calls (Config.config Config.unsetEnv) (lit "203.0.113.7")
      (lit "/login") [1000; 2000; 3000; 60000; 120000] ∅ =
      (replicate 5 {| RateLimit.allowed := true;
                      RateLimit.resultResetTime := None |}, st')
    /\ RateLimit.checkRateLimit (Config.config Config.unsetEnv)
         (lit "203.0.113.7") (lit "/login") 301000 st' =
         ({| RateLimit.allowed := false;
             RateLimit.resultResetTime := Some (Some 301000) |}, st').
Proof.
  apply (proj2 checkRateLimit_quota_per_window
           (Config.config Config.unsetEnv) 5 300000 (lit "203.0.113.7")
           (lit "/login") 1000 [2000; 3000; 60000; 120000] 301000 ∅).
  - reflexivity.
  - reflexivity.
  - lia.
  - rewrite lookup_empty. exact I.
  - reflexivity.
  - repeat constructor; lia.
  - lia.
Defined.

(** C4. In every store reached from the empty one by a sequence of
    [checkRateLimit] calls (any clients, routes and times), with
    [maxAttempts >= 1], the count of every entry lies between 1 and
    [maxAttempts], at any time and so in particular while its reset time
    lies in the future; and a call for the key of an entry whose reset time
    has passed is allowed and puts a fresh entry (count 1, reset time
    [now + windowMs]) in its place, whatever the old count was. *)
Theorem rateLimitStore_count_bounded_and_replaced :
  forall (cfg : Config.t) (maxAttempts : Z) (history : list RateLimit.Call)
         (k : jsstring) (e : RateLimit.Entry),
    Config.loginAttempts cfg = Some maxAttempts ->
    1 <= maxAttempts ->
    RateLimit.run cfg history ∅ !! k = Some e ->
    1 <= RateLimit.count e <= maxAttempts
    /\ forall (ip endpoint : jsstring) (now : Z),
         RateLimit.key ip endpoint = k ->
         num_gt (Some now) (RateLimit.resetTime e) = true ->
         RateLimit.checkRateLimit cfg ip endpoint now (RateLimit.run cfg history ∅) =
           (RateLimit.okResult,
            <[k := {| RateLimit.count := 1;
                      RateLimit.resetTime :=
                        num_add (Some now) (Config.loginWindowMs cfg) |}]>
              (RateLimit.run cfg history ∅)).
Proof.
  intros cfg maxAttempts history k e Hmax H1 Hk. split.
  - by apply (run_count_bounded cfg maxAttempts Hmax history H1 k e).
  - intros ip endpoint now <- Hpast. unfold RateLimit.checkRateLimit.
    rewrite Hk, Hpast. reflexivity.
Qed.

(** Seven calls of one client in one window leave the count at the quota
    of five; a call after the window starts a new one. *)
Lemma rateLimitStore_count_bounded_and_replaced_witness :
  let cfg := Config.config Config.unsetEnv in
  let call t := {| RateLimit.callIp := lit "203.0.113.7";
                   RateLimit.callEndpoint := lit "/login";
                   RateLimit.callNow := t |} in
  let history := map call [1000; 1001; 1002; 1003; 1004; 1005; 1006] in
  1 <= 5 <= 5
  /\ RateLimit.checkRateLimit cfg (lit "203.0.113.7") (lit "/login") 301001
       (RateLimit.run cfg history ∅) =
       (RateLimit.okResult,
        <[RateLimit.key (lit "203.0.113.7") (lit "/login") :=
            {| RateLimit.count := 1; RateLimit.resetTime := Some 601001 |}]>
          (RateLimit.run cfg history ∅)).
Proof.
  intros cfg call history.
  destruct (rateLimitStore_count_bounded_and_replaced cfg 5 history
              (RateLimit.key (lit "203.0.113.7") (lit "/login"))
              {| RateLimit.count := 5; RateLimit.resetTime := Some 301000 |})
    as [Hcount Hnext].
  - reflexivity.
  - lia.
  - vm_compute. reflexivity.
  - split; [exact Hcount|]. apply Hnext; reflexivity.
Defined.

(** ** The CSRF token manager *)

Section CsrfProperties.
Import Csrf.

Implicit Types (s : TokenSet) (t x T uuid : jsstring) (ops : list Op).

Lemma has_spec t s : has t s = true <-> t ∈ s.
Proof. unfold has. apply bool_decide_eq_true. Qed.

Lemma elem_of_delete x t s : x ∈ delete t s <-> x ≠ t /\ x ∈ s.
Proof. unfold delete. apply (list_elem_of_filter (fun y => y ≠ t)). Qed.

Lemma not_elem_of_delete t s : t ∉ delete t s.
Proof. rewrite elem_of_delete. tauto. Qed.

Lemma delete_absent t s : t ∉ s -> delete t s = s.
Proof.
  unfold delete. induction s as [|y s IH]; intros Hn; [reflexivity|].
  rewrite not_elem_of_cons in Hn. destruct Hn as [Hy Hs].
  rewrite filter_cons_True by congruence. by rewrite IH.
Qed.

Lemma delete_head t s : t ∉ s -> delete t (t :: s) = s.
Proof.
  intros Hn. unfold delete. rewrite filter_cons_False by tauto.
  by apply delete_absent.
Qed.

Lemma NoDup_delete t s : NoDup s -> NoDup (delete t s).
Proof. apply NoDup_filter. Qed.

Lemma elem_of_add x t s : x ∈ add t s <-> x = t \/ x ∈ s.
Proof.
  unfold add. destruct (has t s) eqn:Hh.
  - apply has_spec in Hh. split; [tauto|]. intros [->|]; done.
  - rewrite elem_of_app, list_elem_of_singleton. tauto.
Qed.

Lemma NoDup_add t s : NoDup s -> NoDup (add t s).
Proof.
  intros Hs. unfold add. destruct (has t s) eqn:Hh; [done|].
  apply NoDup_app. split; [done|]. split; [|apply NoDup_singleton].
  intros x Hx. rewrite list_elem_of_singleton. intros ->.
  apply has_spec in Hx. congruence.
Qed.

(** Deleting, one by one, the members of a prefix of the set leaves the
    rest of it. *)
Lemma foldl_delete_prefix (xs : TokenSet) : forall ys : TokenSet,
  NoDup (xs ++ ys) ->
  foldl (fun s token => delete token s) (xs ++ ys) xs = ys.
Proof.
  induction xs as [|x xs IH]; intros ys Hnd; [reflexivity|].
  simpl in Hnd. apply NoDup_cons in Hnd as [Hx Hnd].
  simpl. rewrite delete_head by done. by apply IH.
Qed.

Lemma foldl_delete_subset (l : TokenSet) : forall s x,
  x ∈ foldl (fun s token => delete token s) s l -> x ∈ s.
Proof.
  induction l as [|y l IH]; intros s x; simpl; [done|].
  intros H. apply IH in H. apply elem_of_delete in H. tauto.
Qed.

(** The clean-up of [generateCSRFToken] keeps the last 100 members. *)
Lemma generateCSRFToken_trim uuid s :
  NoDup s ->
  generateCSRFToken uuid s =
    (uuid, drop (length (add uuid s) - 100) (add uuid s)).
Proof.
  intros Hnd. unfold generateCSRFToken. f_equal.
  pose proof (NoDup_add uuid s Hnd) as Hadd.
  destruct (Nat.ltb_spec 100 (length (add uuid s))) as [Hlt|Hle].
  - set (l := add uuid s) in *. set (n := (length l - 100)%nat).
    pose proof (foldl_delete_prefix (take n l) (drop n l)) as H.
    rewrite take_drop in H. by apply H.
  - replace (length (add uuid s) - 100)%nat with 0%nat by lia. reflexivity.
Qed.

Lemma generateCSRFToken_subset uuid s x :
  x ∈ snd (generateCSRFToken uuid s) -> x = uuid \/ x ∈ s.
Proof.
  unfold generateCSRFToken. cbn [snd]. intros H. apply elem_of_add.
  destruct (100 <? length (add uuid s))%nat; [|done].
  by apply foldl_delete_subset in H.
Qed.

(** What every reachable set satisfies. *)
Lemma step_NoDup s (o : Op) : NoDup s -> NoDup (step s o).
Proof.
  intros Hnd. destruct o as [uuid|token]; cbn [step validateCSRFToken snd].
  - rewrite generateCSRFToken_trim by done. cbn [snd].
    pose proof (NoDup_add uuid s Hnd) as Hadd.
    rewrite <- (take_drop (length (add uuid s) - 100) (add uuid s)) in Hadd.
    by apply NoDup_app in Hadd as (_ & _ & ?).
  - destruct (has token s); [by apply NoDup_delete|done].
Qed.

Lemma step_length s (o : Op) :
  NoDup s -> (length s <= 100)%nat -> (length (step s o) <= 100)%nat.
Proof.
  intros Hnd Hlen. destruct o as [uuid|token]; cbn [step validateCSRFToken snd].
  - rewrite generateCSRFToken_trim by done. cbn [snd].
    rewrite length_drop. lia.
  - destruct (has token s); [|done].
    etrans; [apply length_filter|done].
Qed.

Lemma run_snoc_csrf ops (o : Op) s : run (ops ++ [o]) s = step (run ops s) o.
Proof. unfold run. by rewrite foldl_app. Qed.

Lemma run_reachable ops :
  NoDup (run ops []) /\ (length (run ops []) <= 100)%nat.
Proof.
  induction ops as [|o ops [IHn IHl]] using rev_ind.
  - split; [apply NoDup_nil_2|simpl; lia].
  - rewrite run_snoc_csrf. split; [by apply step_NoDup|by apply step_length].
Qed.

End CsrfProperties.

Section CsrfOneTimeUse.
Import Csrf.

Variable T : jsstring.

Lemma recent_generate (x : jsstring) (g : nat) (s : TokenSet) :
  recent T g s -> (g < 99)%nat ->
  recent T (S g) (snd (generateCSRFToken x s)).
Proof.
  intros [Hnd (pre & post & Hs & Hlen)] Hg.
  split; [exact (step_NoDup s (Generate x) Hnd)|].
  rewrite generateCSRFToken_trim by done. cbn [snd].
  assert (exists post', add x s = pre ++ T :: post'
                        /\ (length post' <= S g)%nat) as (post' & Hl & Hlen').
  { unfold add. destruct (has x s).
    - exists post. split; [done|lia].
    - exists (post ++ [x]). rewrite Hs, <- app_assoc. split; [done|].
      rewrite length_app. simpl. lia. }
  rewrite Hl. rewrite length_app. cbn [length].
  rewrite drop_app_le by lia.
  eexists _, post'. split; [reflexivity|done].
Qed.

Lemma recent_validate (x : jsstring) (g : nat) (s : TokenSet) :
  recent T g s -> x ≠ T ->
  recent T g (snd (validateCSRFToken x s)).
Proof.
  intros [Hnd (pre & post & Hs & Hlen)] Hx.
  split; [exact (step_NoDup s (Validate x) Hnd)|].
  unfold validateCSRFToken. cbn [snd]. destruct (has x s).
  - exists (delete x pre), (delete x post). split.
    + rewrite Hs. unfold delete. rewrite filter_app.
      rewrite filter_cons_True by congruence. reflexivity.
    + etrans; [apply length_filter|done].
  - by exists pre, post.
Qed.

(** A token stays active as long as fewer than 100 tokens were generated
    after it and it was not validated. *)
Lemma recent_run (ops : list Op) : forall (g : nat) (s : TokenSet),
  recent T g s -> Validate T ∉ ops -> (g + generated ops <= 99)%nat ->
  recent T (g + generated ops) (run ops s).
Proof.
  induction ops as [|o ops IH]; intros g s Hr Hv Hg.
  - simpl. by rewrite Nat.add_0_r.
  - apply not_elem_of_cons in Hv as [Ho Hv].
    change (run (o :: ops) s) with (run ops (step s o)).
    destruct o as [x|x]; cbn [generated step] in *.
    + replace (g + S (generated ops))%nat with (S g + generated ops)%nat by lia.
      apply IH; [|done|lia]. apply recent_generate; [done|lia].
    + apply IH; [|done|done]. apply recent_validate; [done|congruence].
Qed.

(** A token that is not active stays so until it is generated again. *)
Lemma absent_run (ops : list Op) : forall s : TokenSet,
  T ∉ s -> Generate T ∉ ops -> T ∉ run ops s.
Proof.
  induction ops as [|o ops IH]; intros s Hs Hg; [done|].
  apply not_elem_of_cons in Hg as [Ho Hg].
  change (run (o :: ops) s) with (run ops (step s o)).
  apply IH; [|done]. destruct o as [x|x]; cbn [step].
  - intros [->|Hin]%generateCSRFToken_subset; [congruence|done].
  - unfold validateCSRFToken. cbn [snd]. destruct (has x s); [|done].
    rewrite elem_of_delete. tauto.
Qed.

End CsrfOneTimeUse.

(** C3. After every [generateCSRFToken] call (from any reachable state of
    the token set) the set holds at most 100 tokens: it is the set with the
    new token added, cut down to its last 100 entries in insertion order,
    so the oldest tokens go first; the token that the call returns is in
    the set when the call returns. *)
Theorem generateCSRFToken_keeps_newest_100 :
  forall (ops : list Csrf.Op) (uuid : jsstring),
    let s := Csrf.run ops [] in
    let s' := snd (Csrf.generateCSRFToken uuid s) in
    fst (Csrf.generateCSRFToken uuid s) = uuid
    /\ (length s' <= 100)%nat
    /\ s' = drop (length (Csrf.add uuid s) - 100) (Csrf.add uuid s)
    /\ ((100 < length (Csrf.add uuid s))%nat -> length s' = 100%nat)
    /\ uuid ∈ s'.
Proof.
  intros ops uuid s s'. subst s'.
  destruct (run_reachable ops) as [Hnd Hlen]. fold s in Hnd, Hlen.
  rewrite (generateCSRFToken_trim uuid s Hnd). cbn [fst snd].
  split; [reflexivity|]. split; [rewrite length_drop; lia|].
  split; [reflexivity|]. split; [intros; rewrite length_drop; lia|].
  unfold Csrf.add. destruct (Csrf.has uuid s) eqn:Hh.
  - replace (length s - 100)%nat with 0%nat by lia. by apply has_spec.
  - rewrite length_app. cbn [length]. rewrite drop_app_le by lia.
    apply elem_of_app. right. by apply list_elem_of_singleton.
Qed.

(** A hundred tokens are active and one more is generated: the oldest one
    goes, the new one stays. *)
Lemma generateCSRFToken_keeps_newest_100_witness :
  let u := Csrf.sampleUuid in
  let ops := map (fun i => Csrf.Generate (u i)) (seq 1%nat 100%nat) in
  let s' := snd (Csrf.generateCSRFToken (u 0%nat) (Csrf.run ops [])) in
  length s' = 100%nat
  /\ u 0%nat ∈ s'
  /\ s' = map u (seq 2%nat 99%nat) ++ [u 0%nat].
Proof.
  intros u ops s'.
  destruct (generateCSRFToken_keeps_newest_100 ops (u 0%nat))
    as (_ & _ & Htrim & Hfull & Hin).
  split; [|split].
  - apply Hfull. apply (bool_decide_unpack _). vm_compute. exact I.
  - exact Hin.
  - etrans; [exact Htrim|]. vm_compute. reflexivity.
Defined.

(** C2 fails on the code as it is stated: a token is generated, then a
    hundred others; its first validation is refused, because it was
    evicted. *)
Lemma validateCSRFToken_first_use_refused_after_eviction :
  let T := Csrf.sampleUuid 0%nat in
  let others :=
    map (fun i => Csrf.Generate (Csrf.sampleUuid i)) (seq 1%nat 100%nat) in
  fst (Csrf.generateCSRFToken T []) = T
  /\ (Csrf.Validate T ∉ others)
  /\ fst (Csrf.validateCSRFToken T
            (Csrf.run others (snd (Csrf.generateCSRFToken T [])))) = false.
Proof.
  split; [reflexivity|]. split.
  - intros (i & Heq & _)%list_elem_of_fmap. discriminate Heq.
  - vm_compute. reflexivity.
Qed.

(** C2, as the code has it.  Let [T] be returned by [generateCSRFToken]
    in a reachable state in which it was not active, and let any calls
    follow.  If fewer than 100 of the calls before the first
    [validateCSRFToken(T)] are [generateCSRFToken] calls, that first
    validation returns true and removes [T] from the active set; after it,
    as long as [T] is not generated a second time, every
    [validateCSRFToken(T)] returns false.  In any state, validation
    returns true exactly for the members of the active set, and the token
    is not a member afterwards. *)
Theorem validateCSRFToken_one_time_use :
  forall (ops0 ops1 ops2 : list Csrf.Op) (T : jsstring),
    T ∉ Csrf.run ops0 [] ->
    Csrf.Validate T ∉ ops1 ->
    (Csrf.generated ops1 < 100)%nat ->
    Csrf.Generate T ∉ ops2 ->
    let s1 := Csrf.run ops1 (snd (Csrf.generateCSRFToken T (Csrf.run ops0 []))) in
    fst (Csrf.generateCSRFToken T (Csrf.run ops0 [])) = T
    /\ Csrf.validateCSRFToken T s1 = (true, Csrf.delete T s1)
    /\ (T ∉ Csrf.delete T s1)
    /\ fst (Csrf.validateCSRFToken T (Csrf.run ops2 (Csrf.delete T s1))) = false
    /\ (forall (t : jsstring) (s : Csrf.TokenSet),
          fst (Csrf.validateCSRFToken t s) = true <-> t ∈ s)
    /\ (forall (t : jsstring) (s : Csrf.TokenSet),
          t ∉ snd (Csrf.validateCSRFToken t s)).
Proof.
  intros ops0 ops1 ops2 T Hfresh Hv Hg Hg2 s1.
  destruct (run_reachable ops0) as [Hnd Hlen].
  set (s0 := Csrf.run ops0 []) in *.
  assert (Hr0 : Csrf.recent T 0 (snd (Csrf.generateCSRFToken T s0))).
  { split; [exact (step_NoDup s0 (Csrf.Generate T) Hnd)|].
    rewrite generateCSRFToken_trim by done. cbn [snd].
    unfold Csrf.add. destruct (Csrf.has T s0) eqn:Hh.
    { apply has_spec in Hh. done. }
    rewrite length_app. cbn [length]. rewrite drop_app_le by lia.
    eexists _, []. split; [reflexivity|simpl; lia]. }
  pose proof (recent_run T ops1 0 _ Hr0 Hv ltac:(lia)) as [_ (pre & post & Hs1 & _)].
  fold s1 in Hs1.
  assert (Hin : T ∈ s1).
  { rewrite Hs1. apply elem_of_app. right. apply list_elem_of_here. }
  split; [reflexivity|]. split.
  { unfold Csrf.validateCSRFToken. apply has_spec in Hin. by rewrite Hin. }
  split; [apply not_elem_of_delete|]. split.
  { unfold Csrf.validateCSRFToken. cbn [fst].
    apply not_true_is_false. rewrite has_spec.
    apply absent_run; [apply not_elem_of_delete|done]. }
  split.
  - intros t s. unfold Csrf.validateCSRFToken. cbn [fst]. apply has_spec.
  - intros t s. unfold Csrf.validateCSRFToken. cbn [snd].
    destruct (Csrf.has t s) eqn:Hh; [apply not_elem_of_delete|].
    rewrite <- has_spec. congruence.
Qed.

(** A token is issued after two others, one more is issued and one is
    used, then the token is used twice, with one more token issued in
    between. *)
Lemma validateCSRFToken_one_time_use_witness :
  let u := Csrf.sampleUuid in
  let ops0 := [Csrf.Generate (u 1%nat); Csrf.Generate (u 2%nat)] in
  let ops1 := [Csrf.Generate (u 3%nat); Csrf.Validate (u 1%nat)] in
  let ops2 := [Csrf.Generate (u 4%nat); Csrf.Validate (u 0%nat)] in
  let s1 := Csrf.run ops1
              (snd (Csrf.generateCSRFToken (u 0%nat) (Csrf.run ops0 []))) in
  Csrf.validateCSRFToken (u 0%nat) s1 = (true, [u 2%nat; u 3%nat])
  /\ fst (Csrf.validateCSRFToken (u 0%nat)
            (Csrf.run ops2 [u 2%nat; u 3%nat])) = false.
Proof.
  intros u ops0 ops1 ops2 s1.
  destruct (validateCSRFToken_one_time_use ops0 ops1 ops2 (u 0%nat))
    as (_ & Hfirst & _ & Hnext & _).
  - apply (bool_decide_unpack _). vm_compute. exact I.
  - apply (bool_decide_unpack _). vm_compute. exact I.
  - simpl. lia.
  - apply (bool_decide_unpack _). vm_compute. exact I.
  - split; [exact Hfirst | exact Hnext].
Defined.

(** ** The sanitizer *)

Section SanitizerProperties.
Import Regex.

(** Two matchers that agree give the same scan. *)
Lemma removeFrom_removeEvery (at1 at2 : jsstring -> option nat) :
  (forall s, at1 s = at2 s) ->
  forall (s : jsstring) (skip : nat),
    removeFrom at1 skip s = Policy.removeEvery at2 skip s.
Proof.
  intros Hat. induction s as [|c s IH]; intros skip; [reflexivity|].
  simpl. destruct skip as [|n]; [|apply IH].
  rewrite Hat. destruct (at2 (c :: s)) as [[|n]|]; by rewrite ?IH.
Qed.

(** *** Step 1: [/[<>]/g] *)

Lemma execAt_angleBrackets (c : N) (s : jsstring) :
  execAt false angleBrackets (c :: s) =
    if bool_decide (c ≠ 60%N ∧ c ≠ 62%N) then None else Some 1%nat.
Proof.
  unfold execAt, angleBrackets.
  cbn [matchFrom atomMatches canonicalize existsb].
  destruct (N.eqb_spec 60 c) as [<-|H60]; cbn [orb].
  - rewrite bool_decide_eq_false_2 by tauto. f_equal. simpl. lia.
  - destruct (N.eqb_spec 62 c) as [<-|H62]; cbn [orb].
    + rewrite bool_decide_eq_false_2 by tauto. f_equal. simpl. lia.
    + rewrite bool_decide_eq_true_2 by (split; congruence). reflexivity.
Qed.

Lemma replace_angleBrackets (s : jsstring) :
  replaceAllEmpty false angleBrackets s = Policy.stripAngleBrackets s.
Proof.
  unfold replaceAllEmpty, Policy.stripAngleBrackets.
  induction s as [|c s IH]; [reflexivity|].
  cbn [removeFrom]. rewrite execAt_angleBrackets, filter_cons.
  destruct (decide (c ≠ 60%N ∧ c ≠ 62%N)) as [Hc|Hc].
  - rewrite bool_decide_eq_true_2 by done. by rewrite IH.
  - rewrite bool_decide_eq_false_2 by done. exact IH.
Qed.

(** *** Step 2: [/javascript:/gi] *)

Lemma matchFrom_text (p : jsstring) : forall (s : jsstring) k,
  matchFrom true (text p) s k =
    if Policy.startsWithAnyCase p s then k (drop (length p) s) else None.
Proof.
  induction p as [|a p IH]; intros s k; [reflexivity|].
  cbn [text foldr matchFrom]. destruct s as [|b s]; [reflexivity|].
  cbn [Policy.startsWithAnyCase atomMatches canonicalize].
  fold (text p). change (upcase a =? upcase b)%N with (Policy.sameLetter a b).
  destruct (Policy.sameLetter a b); [|reflexivity].
  rewrite IH. reflexivity.
Qed.

Lemma startsWithAnyCase_length (p s : jsstring) :
  Policy.startsWithAnyCase p s = true -> (length p <= length s)%nat.
Proof.
  revert s. induction p as [|a p IH]; intros s; [simpl; lia|].
  destruct s as [|b s]; [discriminate|]. simpl.
  intros [_ H]%andb_prop. apply IH in H. lia.
Qed.

Lemma execAt_text (p s : jsstring) :
  execAt true (text p) s =
    if Policy.startsWithAnyCase p s then Some (length p) else None.
Proof.
  unfold execAt. rewrite matchFrom_text.
  destruct (Policy.startsWithAnyCase p s) eqn:Hp; [|reflexivity].
  apply startsWithAnyCase_length in Hp. rewrite length_drop. f_equal. lia.
Qed.

Lemma replace_javascript (s : jsstring) :
  replaceAllEmpty true javascriptProtocol s = Policy.stripJavascript s.
Proof.
  apply removeFrom_removeEvery. intros s'.
  unfold javascriptProtocol. rewrite execAt_text. reflexivity.
Qed.

(** *** Step 3: [/on\w+=/gi] *)

(** Case analysis on every comparison of code units in the goal. *)
Ltac code_unit_cases :=
  repeat (match goal with
          | |- context [(?a <=? ?b)%N] => destruct (N.leb_spec a b)
          | |- context [(?a =? ?b)%N] => destruct (N.eqb_spec a b)
          end; cbn [andb orb negb] in *);
  try reflexivity; try discriminate; try lia.

Lemma isWordChar_upcase (c : N) : isWordChar (upcase c) = isWordChar c.
Proof. unfold upcase, isWordChar. code_unit_cases. Qed.

Lemma equals_sign_upcase (c : N) : (upcase 61 =? upcase c)%N = (c =? 61)%N.
Proof.
  change (upcase 61) with 61%N. unfold upcase. code_unit_cases.
Qed.

Lemma thenEquals_word (c : N) (s : jsstring) :
  isWordChar c = true -> thenEquals (c :: s) = None.
Proof.
  intros Hw. unfold thenEquals. cbn [atomMatches canonicalize].
  rewrite equals_sign_upcase. destruct (N.eqb_spec c 61) as [->|]; [|done].
  discriminate Hw.
Qed.

(** Backtracking into the word never helps: what can follow a shorter run
    is a word character, not the sign. *)
Lemma plusFrom_word (s : jsstring) :
  plusFrom (atomMatches true WordChar) s thenEquals =
    match Policy.wordRun s with
    | O => None
    | S _ => thenEquals (drop (Policy.wordRun s) s)
    end.
Proof.
  induction s as [|c s IH]; [reflexivity|].
  cbn [plusFrom Policy.wordRun atomMatches canonicalize].
  rewrite isWordChar_upcase. destruct (isWordChar c) eqn:Hc; [|reflexivity].
  rewrite IH. cbn [drop].
  destruct (Policy.wordRun s) as [|n] eqn:Hrun; [reflexivity|].
  destruct (thenEquals (drop (S n) s)) as [r|]; [reflexivity|].
  destruct s as [|c' s]; [reflexivity|].
  simpl in Hrun. destruct (isWordChar c') eqn:Hc'; [|discriminate].
  by apply thenEquals_word.
Qed.

Lemma wordRun_length (s : jsstring) : (Policy.wordRun s <= length s)%nat.
Proof.
  induction s as [|c s IH]; simpl; [lia|].
  destruct (isWordChar c); simpl; lia.
Qed.

Lemma execAt_eventHandler (s : jsstring) :
  execAt true eventHandler s = Policy.handlerAt s.
Proof.
  unfold execAt, eventHandler. cbn [matchFrom]. rewrite matchFrom_text.
  change (fun s' => match s' with
                    | [] => None
                    | c :: s'0 =>
                        if atomMatches true (Chr 61%N) c then Some s'0 else None
                    end) with thenEquals.
  destruct s as [|o [|n rest]]; try reflexivity.
  { change (lit "on") with [111; 110]%N. cbn [Policy.startsWithAnyCase].
    by rewrite andb_false_r. }
  change (lit "on") with [111; 110]%N.
  cbn [Policy.startsWithAnyCase Policy.handlerAt].
  rewrite andb_true_r.
  destruct (Policy.sameLetter 111 o && Policy.sameLetter 110 n); [|reflexivity].
  change (drop (length [111; 110]%N) (o :: n :: rest)) with rest.
  rewrite plusFrom_word.
  pose proof (wordRun_length rest) as Hle.
  destruct (Policy.wordRun rest) as [|w] eqn:Hrun; [reflexivity|].
  pose proof (length_drop rest (S w)) as Hd.
  destruct (drop (S w) rest) as [|c r]; [reflexivity|].
  unfold thenEquals. cbn [atomMatches canonicalize].
  rewrite equals_sign_upcase.
  destruct (N.eqb_spec c 61) as [->|Hne].
  - f_equal. simpl in *. lia.
  - destruct c as [|p]; [reflexivity|].
    do 6 (destruct p as [p|p|]; try reflexivity). congruence.
Qed.

Lemma replace_eventHandler (s : jsstring) :
  replaceAllEmpty true eventHandler s = Policy.stripHandlers s.
Proof. apply removeFrom_removeEvery. exact execAt_eventHandler. Qed.

End SanitizerProperties.

(** The later steps only remove characters. *)
Lemma elem_of_removeEvery (occurrence : jsstring -> option nat) (c : N) :
  forall (s : jsstring) (skip : nat),
    c ∈ Policy.removeEvery occurrence skip s -> c ∈ s.
Proof.
  induction s as [|d s IH]; intros skip; [done|].
  cbn [Policy.removeEvery]. destruct skip as [|n].
  - destruct (occurrence (d :: s)) as [[|n]|].
    + intros [->|H]%elem_of_cons; [left|right; eauto].
    + intros H. right. eauto.
    + intros [->|H]%elem_of_cons; [left|right; eauto].
  - intros H. right. eauto.
Qed.

Lemma elem_of_trimStart (c : N) (s : jsstring) : c ∈ trimStart s -> c ∈ s.
Proof.
  induction s as [|d s IH]; [done|]. cbn [trimStart].
  destruct (isWhiteSpace d); [|done]. intros H. right. auto.
Qed.

Lemma elem_of_trim (c : N) (s : jsstring) : c ∈ trim s -> c ∈ s.
Proof.
  unfold trim, trimEnd. rewrite list_elem_of_In, <- in_rev, <- list_elem_of_In.
  intros H%elem_of_trimStart.
  rewrite list_elem_of_In, <- in_rev, <- list_elem_of_In in H.
  by apply elem_of_trimStart.
Qed.

Lemma elem_of_take_full (c : N) (n : nat) (s : jsstring) : c ∈ take n s -> c ∈ s.
Proof.
  intros (i & Hi & _)%elem_of_take. by eapply list_elem_of_lookup_2.
Qed.

(** C5. [sanitizeInput] is the policy applied in its order: strip [<] and
    [>], strip [javascript:] in any case, strip event handlers
    [on<word>=] in any case, trim, truncate to 10,000 characters.  Its
    result never holds [<] or [>] and is at most 10,000 characters long.
    For [<script>alert(1)</script>] it is [scriptalert(1)/script], and for
    [javascript:alert(1)] it is [alert(1)]. *)
Theorem sanitizeInput_follows_policy :
  (forall s : jsstring, Sanitizer.sanitizeInput s = Policy.sanitize s)
  /\ (forall (s : jsstring) (c : N),
        c ∈ Sanitizer.sanitizeInput s -> c ≠ 60%N /\ c ≠ 62%N)
  /\ (forall s : jsstring, Z.of_nat (length (Sanitizer.sanitizeInput s)) <= 10000)
  /\ Sanitizer.sanitizeInput (lit "<script>alert(1)</script>") =
       lit "scriptalert(1)/script"
  /\ Sanitizer.sanitizeInput (lit "javascript:alert(1)") = lit "alert(1)".
Proof.
  assert (Heq : forall s : jsstring,
             Sanitizer.sanitizeInput s = Policy.sanitize s).
  { intros s. unfold Sanitizer.sanitizeInput, Policy.sanitize, Policy.truncate,
      slice0.
    by rewrite replace_angleBrackets, replace_javascript, replace_eventHandler. }
  split; [exact Heq|]. split; [|split; [|split]].
  - intros s c. rewrite Heq. unfold Policy.sanitize, Policy.truncate.
    intros H%elem_of_take_full%elem_of_trim.
    unfold Policy.stripHandlers, Policy.stripJavascript in H.
    apply elem_of_removeEvery, elem_of_removeEvery in H.
    unfold Policy.stripAngleBrackets in H.
    apply (list_elem_of_filter (fun c => c ≠ 60%N ∧ c ≠ 62%N)) in H. tauto.
  - intros s. unfold Sanitizer.sanitizeInput, slice0. rewrite length_take. lia.
  - vm_compute. reflexivity.
  - vm_compute. reflexivity.
Qed.

(** The letters of [<b>bold</b>] survive, the brackets do not. *)
Lemma sanitizeInput_follows_policy_witness :
  Sanitizer.sanitizeInput (lit "<b>bold</b>") = lit "bbold/b"
  /\ (98%N ≠ 60%N /\ 98%N ≠ 62%N).
Proof.
  split.
  - etrans; [apply (proj1 sanitizeInput_follows_policy)|].
    vm_compute. reflexivity.
  - apply (proj1 (proj2 sanitizeInput_follows_policy) (lit "<b>bold</b>")).
    apply (bool_decide_unpack _). vm_compute. exact I.
Defined.

(** ** Origin validation *)

Section OriginProperties.
Import Http Origin.

Variable urlOrigin : jsstring -> option jsstring.

Lemma truthyOpt_false (o : option jsstring) :
  truthyOpt o = false <-> o = None \/ o = Some [].
Proof.
  destruct o as [[|c s]|]; simpl; split; try tauto; try done.
  intros [H|H]; discriminate H.
Qed.

(** [validateOrigin] throws exactly when it has to parse a [Referer] that
    is not a URL: the allow-list is not empty, there is no [Origin] value,
    and the [Referer] value does not parse. *)
Lemma validateOrigin_throws_iff (cfg : Config.t) (request : Request) :
  validateOrigin urlOrigin cfg request = ThrowTypeError <->
    Config.allowedOrigins cfg ≠ []
    /\ truthyOpt (headers request !! lit "origin") = false
    /\ exists r, headers request !! lit "referer" = Some r /\ r ≠ []
                 /\ urlOrigin r = None.
Proof.
  unfold validateOrigin.
  destruct (headers request !! lit "origin") as [[|c o]|];
    destruct (headers request !! lit "referer") as [[|d r]|];
    destruct (Config.allowedOrigins cfg) as [|a l]; cbn;
    try (split; [discriminate|]; intros (H1 & H2 & r' & H3 & H4 & H5);
         congruence).
  - destruct (urlOrigin (d :: r)) eqn:Hu; cbn.
    + split; [discriminate|]. intros (_ & _ & r' & [= <-] & _ & H). congruence.
    + split; [|done]. intros _. split; [done|]. split; [done|]. eauto.
  - destruct (urlOrigin (d :: r)) eqn:Hu; cbn.
    + split; [discriminate|]. intros (_ & _ & r' & [= <-] & _ & H). congruence.
    + split; [|done]. intros _. split; [done|]. split; [done|]. eauto.
Qed.

End OriginProperties.

(** C6 fails on the code as it is stated: a request whose [Origin] header
    is there with an empty value, checked against the default allow-list,
    is accepted, though the empty string is not on the list. *)
Lemma validateOrigin_empty_origin_accepted :
  let cfg := Config.config Config.unsetEnv in
  let request :=
    {| Http.method := lit "POST";
       Http.pathname := lit "/api/v1/chatbots";
       Http.csrfTokenParam := None;
       Http.headers := {[ lit "origin" := [] ]};
       Http.formData := None |} in
  Config.allowedOrigins cfg ≠ []
  /\ Http.headers request !! lit "origin" = Some []
  /\ ~ (Origin.validateOrigin Origin.whatwgOrigin cfg request = Normal true
        <-> [] ∈ Config.allowedOrigins cfg).
Proof.
  intros cfg request. split; [discriminate|]. split; [reflexivity|].
  intros [Hin _].
  assert (H : Origin.validateOrigin Origin.whatwgOrigin cfg request = Normal true)
    by (vm_compute; reflexivity).
  apply Hin in H. revert H. apply (bool_decide_unpack _). vm_compute. exact I.
Qed.

(** C6, as the code has it.  [validateOrigin] returns true when neither an
    [Origin] nor a [Referer] value is there (a header with an empty value
    counts as absent); it returns true whenever the allow-list is empty;
    with a non-empty allow-list and a non-empty [Origin] value it returns
    true exactly when that value is a member of the list; and with a
    non-empty allow-list, no [Origin] value and a [Referer] value that
    parses as a URL, it returns true exactly when the origin of that URL is
    a member of the list. *)
Theorem validateOrigin_allow_list :
  forall (urlOrigin : jsstring -> option jsstring) (cfg : Config.t)
         (request : Http.Request),
    let origin := Http.headers request !! lit "origin" in
    let referer := Http.headers request !! lit "referer" in
    let result := Origin.validateOrigin urlOrigin cfg request in
    (truthyOpt origin = false -> truthyOpt referer = false ->
       result = Normal true)
    /\ (Config.allowedOrigins cfg = [] -> result = Normal true)
    /\ (forall o : jsstring,
          Config.allowedOrigins cfg ≠ [] -> origin = Some o -> o ≠ [] ->
          result = Normal (bool_decide (o ∈ Config.allowedOrigins cfg)))
    /\ (forall r o : jsstring,
          Config.allowedOrigins cfg ≠ [] -> truthyOpt origin = false ->
          referer = Some r -> r ≠ [] -> urlOrigin r = Some o ->
          result = Normal (bool_decide (o ∈ Config.allowedOrigins cfg))).
Proof.
  intros urlOrigin cfg request origin referer result.
  subst result. unfold Origin.validateOrigin. fold origin referer.
  split; [|split; [|split]].
  - intros -> ->. reflexivity.
  - intros ->. cbn. by destruct (negb (truthyOpt origin) && negb (truthyOpt referer)).
  - intros o Hal -> Ho. destruct o as [|c o]; [done|]. cbn.
    destruct (Config.allowedOrigins cfg); [done|]. reflexivity.
  - intros r o Hal Horigin -> Hr Hu. destruct r as [|d r]; [done|].
    rewrite Horigin. cbn.
    destruct (Config.allowedOrigins cfg) as [|a l] eqn:Ha; [done|]. cbn.
    apply truthyOpt_false in Horigin as [->| ->]; by rewrite Hu.
Qed.

(** A request from an origin of the default allow-list, one from an origin
    that is not on it, and one that only has a [Referer]. *)
Lemma validateOrigin_allow_list_witness :
  let cfg := Config.config Config.unsetEnv in
  let request h :=
    {| Http.method := lit "GET"; Http.pathname := lit "/dashboard";
       Http.csrfTokenParam := None; Http.headers := h;
       Http.formData := None |} in
  Origin.validateOrigin Origin.whatwgOrigin cfg
    (request {[ lit "origin" := lit "http://localhost:4321" ]}) = Normal true
  /\ Origin.validateOrigin Origin.whatwgOrigin cfg
       (request {[ lit "origin" := lit "https://evil.example" ]}) = Normal false
  /\ Origin.validateOrigin Origin.whatwgOrigin cfg
       (request {[ lit "referer" := lit "http://localhost:3000/login?x=1" ]})
       = Normal true
  /\ Origin.validateOrigin Origin.whatwgOrigin cfg (request ∅) = Normal true.
Proof.
  intros cfg request. split; [|split; [|split]].
  - apply (proj1 (proj2 (proj2
             (validateOrigin_allow_list Origin.whatwgOrigin cfg
                (request {[ lit "origin" := lit "http://localhost:4321" ]}))))
             (lit "http://localhost:4321")); [discriminate|reflexivity|discriminate].
  - apply (proj1 (proj2 (proj2
             (validateOrigin_allow_list Origin.whatwgOrigin cfg
                (request {[ lit "origin" := lit "https://evil.example" ]}))))
             (lit "https://evil.example")); [discriminate|reflexivity|discriminate].
  - apply (proj2 (proj2 (proj2
             (validateOrigin_allow_list Origin.whatwgOrigin cfg
                (request {[ lit "referer" := lit "http://localhost:3000/login?x=1" ]}))))
             (lit "http://localhost:3000/login?x=1") (lit "http://localhost:3000"));
      [discriminate|reflexivity|reflexivity|discriminate|reflexivity].
  - apply (proj1 (validateOrigin_allow_list Origin.whatwgOrigin cfg (request ∅)));
      reflexivity.
Defined.

(** ** The middleware *)

(** The only exception that leaves [onRequest] is the one of
    [validateOrigin]. *)
Lemma afterRateLimit_throws (urlOrigin : jsstring -> option jsstring)
    (cfg : Config.t) (io : Middleware.Inputs) (request : Http.Request)
    (response : Http.Response) (st : Middleware.Stores) :
  fst (Middleware.afterRateLimit urlOrigin cfg io request response st)
    = ThrowTypeError ->
  Origin.validateOrigin urlOrigin cfg request = ThrowTypeError.
Proof.
  unfold Middleware.afterRateLimit.
  repeat case_match; simplify_eq; cbn; try discriminate; done.
Qed.

Lemma onRequest_throws (urlOrigin : jsstring -> option jsstring)
    (cfg : Config.t) (io : Middleware.Inputs) (request : Http.Request)
    (st : Middleware.Stores) :
  fst (Middleware.onRequest urlOrigin cfg io request st) = ThrowTypeError ->
  Origin.validateOrigin urlOrigin cfg request = ThrowTypeError.
Proof.
  unfold Middleware.onRequest.
  repeat case_match; simplify_eq; cbn [fst]; try discriminate;
    apply afterRateLimit_throws.
Qed.

(** C7 fails on the code: a [GET] request for a page that is neither a
    static asset nor rate limited, without an [Origin] value and with a
    [Referer] value that does not parse as a URL, checked against a
    non-empty allow-list, makes [onRequest] throw the [TypeError] of
    [new URL]; no response is returned. *)
Theorem onRequest_malformed_referer_throws :
  forall (urlOrigin : jsstring -> option jsstring) (cfg : Config.t)
         (io : Middleware.Inputs) (request : Http.Request)
         (st : Middleware.Stores) (r : jsstring),
    Middleware.isStaticAsset (Http.pathname request) = false ->
    Middleware.isSensitive (Http.pathname request) = false ->
    Http.method request = lit "GET" ->
    Config.allowedOrigins cfg ≠ [] ->
    truthyOpt (Http.headers request !! lit "origin") = false ->
    Http.headers request !! lit "referer" = Some r ->
    r ≠ [] ->
    urlOrigin r = None ->
    Middleware.onRequest urlOrigin cfg io request st = (ThrowTypeError, st).
Proof.
  intros urlOrigin cfg io request st r Hstatic Hsens Hget Hal Ho Hr Hne Hu.
  assert (Hthrow : Origin.validateOrigin urlOrigin cfg request = ThrowTypeError).
  { apply validateOrigin_throws_iff. eauto 6. }
  unfold Middleware.onRequest. rewrite Hstatic, Hsens, Hget.
  change (JS.eqb (lit "GET") (lit "OPTIONS")) with false.
  rewrite andb_false_r. cbv iota.
  unfold Middleware.afterRateLimit. rewrite Hget.
  change (Middleware.isStateChanging (lit "GET")) with false.
  rewrite andb_false_r. cbv iota beta zeta.
  change (negb true) with false. cbv iota.
  by rewrite Hthrow.
Qed.

(** [GET /dashboard] with the header [Referer: not-a-url], in the default
    configuration. *)
Lemma onRequest_malformed_referer_throws_witness :
  let request :=
    {| Http.method := lit "GET";
       Http.pathname := lit "/dashboard";
       Http.csrfTokenParam := None;
       Http.headers := {[ lit "referer" := lit "not-a-url" ]};
       Http.formData := None |} in
  let io :=
    {| Middleware.next := {| Http.status := 200; Http.responseHeaders := ∅;
                             Http.body := Http.Page 0 |};
       Middleware.now := 1000; Middleware.nowAfter := 1000;
       Middleware.randomUUID := Csrf.sampleUuid 0%nat |} in
  let st := {| Middleware.rateLimitStore := ∅; Middleware.csrfTokens := [] |} in
  Middleware.onRequest Origin.whatwgOrigin (Config.config Config.unsetEnv)
    io request st = (ThrowTypeError, st).
Proof.
  intros request io st.
  apply (onRequest_malformed_referer_throws Origin.whatwgOrigin
           (Config.config Config.unsetEnv) io request st (lit "not-a-url")).
  - vm_compute. reflexivity.
  - vm_compute. reflexivity.
  - reflexivity.
  - discriminate.
  - reflexivity.
  - reflexivity.
  - discriminate.
  - vm_compute. reflexivity.
Defined.

(** ** Field and form validation *)

Section ValidatorProperties.
Import Validator.

(** A truthy value has a [toString()], unless it is an object whose
    [toString()] throws. *)
Lemma toString_truthy (v : Value) :
  falsy v = false -> v <> VObject None -> exists s, toString v = Some s.
Proof.
  destruct v as [| |b|z| |s|[text|]]; simpl; try discriminate; eauto.
  intros _ Hv. by destruct Hv.
Qed.

(** Sanitizing touches strings only. *)
Lemma sanitized_object (rules : ValidationRule) (value : Value)
    (text : option jsstring) :
  sanitized rules value = VObject text -> value = VObject text.
Proof.
  unfold sanitized. destruct (sanitize rules), value; congruence.
Qed.

Lemma trimStart_blank (s : jsstring) :
  forallb isWhiteSpace s = true -> trimStart s = [].
Proof.
  induction s as [|c s IH]; [reflexivity|]. simpl.
  destruct (isWhiteSpace c); [exact IH|discriminate].
Qed.

Lemma trim_blank (s : jsstring) : forallb isWhiteSpace s = true -> trim s = [].
Proof. intros H. unfold trim. by rewrite trimStart_blank. Qed.

(** The required check: a missing value is reported at once. *)
Lemma validateField_missing (value : Value) (rules : ValidationRule) :
  isTrue (required rules) = true ->
  (falsy (sanitized rules value) = true
   \/ exists s, toString (sanitized rules value) = Some s /\ trim s = []) ->
  validateField value rules =
    Some {| isValid := false; errors := [msgRequired];
            sanitizedValue := sanitized rules value |}.
Proof.
  intros Hreq Hmissing. unfold validateField. rewrite Hreq.
  destruct (falsy (sanitized rules value)) eqn:Hf; [reflexivity|].
  destruct Hmissing as [|(s & Hs & Ht)]; [discriminate|].
  rewrite Hs. cbn. rewrite Ht. reflexivity.
Qed.


(** Every result of [validateField] is made of a list of at most four
    errors, and hands back the sanitized value. *)
Lemma validateField_result (value : Value) (rules : ValidationRule)
    (result : ValidationResult) :
  validateField value rules = Some result ->
  exists errs,
    (length errs <= 4)%nat
    /\ result = {| isValid := (length errs =? 0)%nat; errors := errs;
                   sanitizedValue := sanitized rules value |}.
Proof.
  unfold validateField.
  destruct (isTrue (required rules)), (falsy (sanitized rules value)),
    (toString (sanitized rules value)) as [s|]; cbn -[trim JS.eqb];
    try destruct (JS.eqb (trim s) []); cbn -[trim JS.eqb];
    try discriminate;
    try (intros [= <-]; exists [msgRequired]; split; [cbn; lia|reflexivity]);
    try (intros [= <-]; exists []; split; [cbn; lia|reflexivity]).
  all: destruct (nonZero (minLength rules)) as [n|],
         (nonZero (maxLength rules)) as [m|],
         (pattern rules) as [test|]; cbn; try discriminate;
       intros [= <-]; eexists; (split; [|reflexivity]);
       rewrite ?length_app;
       repeat match goal with
              | |- context [if ?b then _ else _] => destruct b
              | |- context [match ?x with _ => _ end] => destruct x
              end; cbn; lia.
Qed.

Lemma validateField_sanitizedValue (value : Value) (rules : ValidationRule)
    (result : ValidationResult) :
  validateField value rules = Some result ->
  sanitizedValue result = sanitized rules value.
Proof. intros (errs & _ & ->)%validateField_result. reflexivity. Qed.

(** [validateField] throws on no value but an object whose [toString()]
    throws, and always hands back the sanitized value. *)
Lemma validateField_total (value : Value) (rules : ValidationRule) :
  value <> VObject None ->
  exists result,
    validateField value rules = Some result
    /\ sanitizedValue result = sanitized rules value.
Proof.
  intros Hvalue.
  assert (Hsome : exists result, validateField value rules = Some result).
  { unfold validateField.
    destruct (falsy (sanitized rules value)) eqn:Hf.
    - destruct (isTrue (required rules)); cbn; eauto.
    - destruct (toString_truthy _ Hf) as [s Hs].
      { intros Hobj. by apply sanitized_object in Hobj. }
      rewrite Hs.
      destruct (isTrue (required rules)); cbn -[trim JS.eqb];
        try destruct (JS.eqb (trim s) []); cbn -[trim JS.eqb]; eauto;
        destruct (nonZero (minLength rules)), (nonZero (maxLength rules)),
          (pattern rules); cbn; eauto. }
  destruct Hsome as [result Hrun]. exists result. split; [exact Hrun|].
  by apply validateField_sanitizedValue in Hrun.
Qed.

End ValidatorProperties.

(** C8. For every rule with [required: true] and every value whose
    sanitized form is a string that is empty or holds white space only,
    [validateField] returns [isValid: false] with exactly one error, the
    required-field message, whatever [minLength], [maxLength], [pattern]
    and [custom] are: the result is that of the return that follows the
    required check, in which none of them takes part.  In particular this
    is the result of [validateField("", {required: true})]. *)
Theorem validateField_required_blank :
  forall (rules : Validator.ValidationRule) (value : Validator.Value)
         (s : jsstring),
    Validator.required rules = Some true ->
    Validator.sanitized rules value = Validator.VStr s ->
    forallb isWhiteSpace s = true ->
    Validator.validateField value rules =
      Some {| Validator.isValid := false;
              Validator.errors := [Validator.msgRequired];
              Validator.sanitizedValue := Validator.VStr s |}
    /\ Validator.validateField (Validator.VStr [])
         {| Validator.required := Some true; Validator.minLength := None;
            Validator.maxLength := None; Validator.pattern := None;
            Validator.custom := None; Validator.sanitize := None |} =
         Some {| Validator.isValid := false;
                 Validator.errors := [Validator.msgRequired];
                 Validator.sanitizedValue := Validator.VStr [] |}.
Proof.
  intros rules value s Hreq Hs Hblank. split; [|reflexivity].
  rewrite <- Hs.
  apply validateField_missing.
  - by rewrite Hreq.
  - rewrite Hs. destruct s as [|c s]; [by left|]. right.
    exists (c :: s). split; [reflexivity|]. by apply trim_blank.
Qed.

(** A password field that holds blanks only: the required error alone is
    reported, though the value is also shorter than [minLength] and the
    custom validator rejects everything. *)
Lemma validateField_required_blank_witness :
  Validator.validateField (Validator.VStr (lit "   "))
    {| Validator.required := Some true; Validator.minLength := Some 8;
       Validator.maxLength := Some 128;
       Validator.pattern := Some (fun _ => false);
       Validator.custom := Some (fun _ => Validator.CBool false);
       Validator.sanitize := Some Sanitizer.sanitizeString |} =
    Some {| Validator.isValid := false;
            Validator.errors := [Validator.msgRequired];
            Validator.sanitizedValue := Validator.VStr [] |}.
Proof.
  apply (proj1 (validateField_required_blank
           {| Validator.required := Some true; Validator.minLength := Some 8;
              Validator.maxLength := Some 128;
              Validator.pattern := Some (fun _ => false);
              Validator.custom := Some (fun _ => Validator.CBool false);
              Validator.sanitize := Some Sanitizer.sanitizeString |}
           (Validator.VStr (lit "   ")) [] eq_refl eq_refl eq_refl)).
Defined.




Section FormProperties.
Import Validator.

Variable nativeText : jsstring -> jsstring.
Variable data : gmap jsstring Value.

(** Reading a property after an assignment. *)
Lemma lookup_assign_eq {A : Type} (name : jsstring) (value : A)
    (obj : gmap jsstring A) :
  name <> lit "__proto__" -> assign name value obj !! name = Some value.
Proof.
  intros Hname. unfold assign, JS.eqb.
  rewrite bool_decide_eq_false_2 by exact Hname. apply lookup_insert_eq.
Qed.

Lemma lookup_assign_ne {A : Type} (name other : jsstring) (value : A)
    (obj : gmap jsstring A) :
  name <> other -> assign name value obj !! other = obj !! other.
Proof.
  intros Hne. unfold assign.
  destruct (JS.eqb name (lit "__proto__")); [reflexivity|].
  by apply lookup_insert_ne.
Qed.

Lemma assign_proto {A : Type} (value : A) (obj : gmap jsstring A) :
  assign (lit "__proto__") value obj = obj.
Proof. reflexivity. Qed.

(** One round of the loop, for a field whose validation gave [res]. *)
Lemma validateEntry_step (acc : FormValidationResult) (fieldName : jsstring)
    (rules : ValidationRule) (res : ValidationResult) :
  validateField (field nativeText data fieldName) rules = Some res ->
  validateEntry nativeText data (Some acc) (fieldName, rules) =
    Some {| formIsValid := formIsValid acc && isValid res;
            formErrors :=
              if isValid res then formErrors acc
              else assign fieldName (errors res) (formErrors acc);
            sanitizedData :=
              assign fieldName (sanitizedValue res) (sanitizedData acc) |}.
Proof.
  intros Hres. unfold validateEntry. cbn. rewrite Hres. cbn.
  destruct (isValid res); cbn; [by rewrite andb_true_r|by rewrite andb_false_r].
Qed.

(** One round of the loop, for a field whose validation throws. *)
Lemma validateEntry_throws (acc : option FormValidationResult)
    (fieldName : jsstring) (rules : ValidationRule) :
  acc = None \/ validateField (field nativeText data fieldName) rules = None ->
  validateEntry nativeText data acc (fieldName, rules) = None.
Proof.
  intros [->|Hres]; [reflexivity|]. unfold validateEntry.
  destruct acc; cbn; [|reflexivity]. by rewrite Hres.
Qed.

Lemma elem_of_snoc_entry (entries : list (jsstring * ValidationRule))
    (f0 f : jsstring) (rules0 rules : ValidationRule) :
  (f, rules) ∈ entries ++ [(f0, rules0)] <->
  (f, rules) ∈ entries \/ (f = f0 /\ rules = rules0).
Proof.
  rewrite elem_of_app, list_elem_of_singleton. split.
  - intros [H|[= -> ->]]; [by left|by right].
  - intros [H|[-> ->]]; [by left|by right].
Qed.

(** The loop over a list of entries with distinct field names: it throws
    exactly when the validation of one of the fields does, and otherwise
    merges the results of the fields. *)
Lemma validateEntries_spec (entries : list (jsstring * ValidationRule)) :
  NoDup entries.*1 ->
  (validateEntries nativeText data entries = None <->
   exists f rules,
     (f, rules) ∈ entries
     /\ validateField (field nativeText data f) rules = None)
  /\ forall r,
       validateEntries nativeText data entries = Some r ->
       (forall (f : jsstring) (errs : list jsstring),
          formErrors r !! f = Some errs <->
          f <> lit "__proto__"
          /\ exists rules res,
               (f, rules) ∈ entries
               /\ validateField (field nativeText data f) rules = Some res
               /\ isValid res = false /\ errors res = errs)
       /\ (forall (f : jsstring) (v : Value),
             sanitizedData r !! f = Some v <->
             f <> lit "__proto__"
             /\ exists rules,
                  (f, rules) ∈ entries
                  /\ v = sanitized rules (field nativeText data f))
       /\ (formIsValid r = true <->
           forall (f : jsstring) (rules : ValidationRule)
                  (res : ValidationResult),
             (f, rules) ∈ entries ->
             validateField (field nativeText data f) rules = Some res ->
             isValid res = true).
Proof.
  induction entries as [|[f0 rules0] entries IH] using rev_ind; intros Hnd.
  - split.
    + split; [discriminate|]. intros (f & rules & []%elem_of_nil & _).
    + intros r [= <-]. cbn. split; [|split].
      * intros f errs. rewrite lookup_empty. split; [done|].
        intros (_ & ? & ? & []%elem_of_nil & _).
      * intros f v. rewrite lookup_empty. split; [done|].
        intros (_ & ? & []%elem_of_nil & _).
      * split; [|done]. intros _ f rules res []%elem_of_nil.
  - rewrite fmap_app in Hnd. apply NoDup_app in Hnd as (Hnd & Hfresh & _).
    assert (Hf0 : forall rules, (f0, rules) ∉ entries).
    { intros rules Hin. apply (Hfresh f0).
      - apply list_elem_of_fmap. by exists (f0, rules).
      - cbn. left. }
    destruct (IH Hnd) as [Hthrows Hmerged]. clear IH.
    assert (Hrun : validateEntries nativeText data (entries ++ [(f0, rules0)]) =
                   validateEntry nativeText data
                     (validateEntries nativeText data entries) (f0, rules0)).
    { unfold validateEntries. by rewrite foldl_app. }
    rewrite Hrun. setoid_rewrite elem_of_snoc_entry.
    destruct (validateEntries nativeText data entries) as [r0|] eqn:Hr0.
    2:{ rewrite validateEntry_throws by (by left). split; [|discriminate].
        split; [intros _|done].
        destruct (proj1 Hthrows eq_refl) as (f & rules & Hin & Hres).
        exists f, rules. split; [by left|done]. }
    assert (Hquiet : forall (f : jsstring) (rules : ValidationRule),
               (f, rules) ∈ entries ->
               validateField (field nativeText data f) rules <> None).
    { intros f rules Hin Hres.
      assert (H : Some r0 = None) by (apply Hthrows; by exists f, rules).
      discriminate H. }
    destruct (Hmerged r0 eq_refl) as (Herr & Hsan & Hval). clear Hmerged.
    destruct (validateField (field nativeText data f0) rules0) as [res0|] eqn:Hres0.
    2:{ rewrite validateEntry_throws by (by right). split; [|discriminate].
        split; [intros _|done]. exists f0, rules0. split; [by right|done]. }
    rewrite (validateEntry_step r0 f0 rules0 res0 Hres0).
    pose proof (validateField_sanitizedValue _ _ _ Hres0) as Hsv.
    split.
    { split; [discriminate|]. intros (f & rules & [Hin|[-> ->]] & Hres).
      - by destruct (Hquiet f rules Hin).
      - congruence. }
    intros r [= <-]. cbn [formErrors sanitizedData formIsValid].
    split; [|split].
    + intros f errs.
      destruct (isValid res0) eqn:Hv0.
      * rewrite Herr. split.
        -- intros (Hf & rules & res & Hin & H).
           split; [exact Hf|]. exists rules, res. split; [by left|exact H].
        -- intros (Hf & rules & res & [Hin|[-> ->]] & Hres & Hinv & Herrs).
           ++ split; [exact Hf|]. by exists rules, res.
           ++ congruence.
      * destruct (decide (f0 = f)) as [<-|Hne].
        -- destruct (decide (f0 = lit "__proto__")) as [->|Hproto].
           ++ rewrite assign_proto, Herr. split; intros [Hf _]; by destruct Hf.
           ++ rewrite lookup_assign_eq by exact Hproto. split.
              ** intros [= <-]. split; [exact Hproto|].
                 exists rules0, res0. split; [by right|done].
              ** intros (_ & rules & res & [Hin|[_ ->]] & Hres & _ & <-).
                 --- by destruct (Hf0 rules).
                 --- congruence.
        -- rewrite lookup_assign_ne by exact Hne. rewrite Herr. split.
           ++ intros (Hf & rules & res & Hin & H).
              split; [exact Hf|]. exists rules, res. split; [by left|exact H].
           ++ intros (Hf & rules & res & [Hin|[-> _]] & H).
              ** split; [exact Hf|]. by exists rules, res.
              ** by destruct Hne.
    + intros f v. destruct (decide (f0 = f)) as [<-|Hne].
      * destruct (decide (f0 = lit "__proto__")) as [->|Hproto].
        -- rewrite assign_proto, Hsan. split; intros [Hf _]; by destruct Hf.
        -- rewrite lookup_assign_eq by exact Hproto. split.
           ++ intros [= <-]. split; [exact Hproto|].
              exists rules0. split; [by right|exact Hsv].
           ++ intros (_ & rules & [Hin|[_ ->]] & ->).
              ** by destruct (Hf0 rules).
              ** by rewrite Hsv.
      * rewrite lookup_assign_ne by exact Hne. rewrite Hsan. split.
        -- intros (Hf & rules & Hin & H).
           split; [exact Hf|]. exists rules. split; [by left|exact H].
        -- intros (Hf & rules & [Hin|[-> _]] & H).
           ++ split; [exact Hf|]. by exists rules.
           ++ by destruct Hne.
    + rewrite andb_true_iff, Hval. split.
      * intros [Hall Hv0] f rules res [Hin|[-> ->]] Hres.
        -- by apply (Hall f rules).
        -- congruence.
      * intros Hall. split.
        -- intros f rules res Hin. apply Hall. by left.
        -- apply (Hall f0 rules0 res0); [by right|exact Hres0].
Qed.

End FormProperties.

(** C9 fails on the code as it is stated.  A schema can have a field named
    [__proto__], and so can the data: the objects parsed from the JSON
    texts [{"__proto__": {"required": true, "minLength": 5}}] and
    [{"__proto__": "x"}] have one.  The validation of this field fails, so
    the form is not valid; but an assignment under the name [__proto__]
    makes no property, so [errors] has no entry for the field that failed
    and [sanitizedData] has no value for this field of the schema.  And a
    required field whose value is an object without a [toString] method
    makes [validateForm] throw: no result is returned at all. *)
Lemma validateForm_proto_field_not_stored :
  let rules :=
    {| Validator.required := Some true; Validator.minLength := Some 5;
       Validator.maxLength := None; Validator.pattern := None;
       Validator.custom := None; Validator.sanitize := None |} in
  let schema : gmap jsstring Validator.ValidationRule :=
    {[ lit "__proto__" := rules ]} in
  let data : gmap jsstring Validator.Value :=
    {[ lit "__proto__" := Validator.VStr (lit "x") ]} in
  (exists res r,
     schema !! lit "__proto__" = Some rules
     /\ Validator.validateField
          (Validator.field Validator.nativeCode data (lit "__proto__")) rules
        = Some res
     /\ Validator.isValid res = false
     /\ Validator.validateForm Validator.nativeCode data schema = Some r
     /\ Validator.formIsValid r = false
     /\ Validator.formErrors r !! lit "__proto__" = None
     /\ Validator.sanitizedData r !! lit "__proto__" = None)
  /\ Validator.validateForm Validator.nativeCode
       {[ lit "name" := Validator.VObject None ]} {[ lit "name" := rules ]}
     = None.
Proof.
  intros rules schema data. split.
  - exists {| Validator.isValid := false;
              Validator.errors := [Validator.msgMinLength 5];
              Validator.sanitizedValue := Validator.VStr (lit "x") |},
      {| Validator.formIsValid := false; Validator.formErrors := ∅;
         Validator.sanitizedData := ∅ |}.
    split; [reflexivity|]. split; [vm_compute; reflexivity|].
    split; [reflexivity|]. split; [vm_compute; reflexivity|].
    split; [reflexivity|]. split; reflexivity.
  - vm_compute. reflexivity.
Qed.

(** C9, as the code has it.  [validateForm] validates the value
    [data[f]] of every field [f] of the schema on its own; for a field
    that the data do not have, that value is what a plain object inherits
    under the name (a function for [toString] or [constructor]), and
    [undefined] when there is no such thing.  When one of the validations
    throws, as [validateField] does on an object whose [toString()]
    throws, [validateForm] throws.  Otherwise it merges the results: the
    [errors] map has an entry for exactly the fields other than
    [__proto__] whose validation failed, holding the errors of that
    field; the [sanitizedData] map has an entry for every field of the
    schema other than [__proto__], valid or not, holding its sanitized
    value; and [isValid] is true exactly when no field failed.  The
    numbers among the data are integers that JavaScript prints digit by
    digit.  For the sample submission, in which both [email] and
    [password] break their rule, [errors] has both keys and
    [sanitizedData] has both sanitized values. *)
Theorem validateForm_merges_fields :
  (forall (nativeText : jsstring -> jsstring)
          (data : gmap jsstring Validator.Value)
          (schema : gmap jsstring Validator.ValidationRule),
     map_Forall (fun _ v => Validator.safe v = true) data ->
     (Validator.validateForm nativeText data schema = None <->
      exists f rules,
        schema !! f = Some rules
        /\ Validator.validateField (Validator.field nativeText data f) rules
           = None)
     /\ forall r,
          Validator.validateForm nativeText data schema = Some r ->
          (forall (f : jsstring) (errs : list jsstring),
             Validator.formErrors r !! f = Some errs <->
             f <> lit "__proto__"
             /\ exists rules res,
                  schema !! f = Some rules
                  /\ Validator.validateField
                       (Validator.field nativeText data f) rules = Some res
                  /\ Validator.isValid res = false
                  /\ Validator.errors res = errs)
          /\ (forall (f : jsstring) (v : Validator.Value),
                Validator.sanitizedData r !! f = Some v <->
                f <> lit "__proto__"
                /\ exists rules,
                     schema !! f = Some rules
                     /\ v = Validator.sanitized rules
                              (Validator.field nativeText data f))
          /\ (Validator.formIsValid r = true <->
              forall (f : jsstring) (rules : Validator.ValidationRule)
                     (res : Validator.ValidationResult),
                schema !! f = Some rules ->
                Validator.validateField (Validator.field nativeText data f) rules
                  = Some res ->
                Validator.isValid res = true))
  /\ Validator.validateForm Validator.nativeCode Validator.sampleData
       Validator.sampleSchema =
       Some {| Validator.formIsValid := false;
               Validator.formErrors :=
                 {[ lit "email" := [Validator.msgMinLength 5];
                    lit "password" := [Validator.msgMinLength 8] ]};
               Validator.sanitizedData :=
                 {[ lit "email" := Validator.VStr (lit "bad");
                    lit "password" := Validator.VStr (lit "x") ]} |}.
Proof.
  split; [|vm_compute; reflexivity].
  intros nativeText data schema _. unfold Validator.validateForm.
  destruct (validateEntries_spec nativeText data (map_to_list schema)
              (NoDup_fst_map_to_list schema)) as [Hthrows Hmerged].
  split.
  - rewrite Hthrows.
    split; intros (f & rules & Hin & Hres); exists f, rules;
      (split; [|exact Hres]); by apply elem_of_map_to_list.
  - intros r Hr. destruct (Hmerged r Hr) as (Herr & Hsan & Hval).
    split; [|split].
    + intros f errs. rewrite Herr.
      split; intros (Hf & rules & res & Hin & H); (split; [exact Hf|]);
        exists rules, res; (split; [|exact H]); by apply elem_of_map_to_list.
    + intros f v. rewrite Hsan.
      split; intros (Hf & rules & Hin & H); (split; [exact Hf|]);
        exists rules; (split; [|exact H]); by apply elem_of_map_to_list.
    + rewrite Hval. split; intros Hall f rules res Hin; apply Hall;
        by apply elem_of_map_to_list.
Qed.

(** A schema field named [toString] and data without such a field: the
    value validated is the function that the data inherit, which is there,
    so the required check passes; and the function is stored as the
    sanitized value. *)
Lemma validateForm_inherited_member :
  Validator.validateForm Validator.nativeCode ∅
    {[ lit "toString" :=
         {| Validator.required := Some true; Validator.minLength := None;
            Validator.maxLength := None; Validator.pattern := None;
            Validator.custom := None; Validator.sanitize := None |} ]} =
    Some {| Validator.formIsValid := true;
            Validator.formErrors := ∅;
            Validator.sanitizedData :=
              {[ lit "toString" :=
                   Validator.VObject
                     (Some (lit "function toString() { [native code] }")) ]} |}.
Proof. vm_compute. reflexivity. Qed.

(** The sample submission: both fields are reported, both sanitized values
    are kept, the form is not valid. *)
Lemma validateForm_merges_fields_witness :
  exists r,
    Validator.validateForm Validator.nativeCode Validator.sampleData
      Validator.sampleSchema = Some r
    /\ Validator.formErrors r !! lit "email" = Some [Validator.msgMinLength 5]
    /\ Validator.formErrors r !! lit "password" = Some [Validator.msgMinLength 8]
    /\ Validator.sanitizedData r !! lit "email" = Some (Validator.VStr (lit "bad"))
    /\ Validator.formIsValid r <> true.
Proof.
  assert (Hsafe : map_Forall (fun _ v => Validator.safe v = true)
                    Validator.sampleData).
  { unfold Validator.sampleData. apply map_Forall_insert_2; [reflexivity|].
    apply map_Forall_singleton. reflexivity. }
  assert (Hproto : lit "email" <> lit "__proto__"
                   /\ lit "password" <> lit "__proto__")
    by (split; vm_compute; discriminate).
  destruct Hproto as [Hemail Hpassword].
  pose proof (proj2 validateForm_merges_fields) as Hrun.
  destruct (proj2 (proj1 validateForm_merges_fields Validator.nativeCode
                     Validator.sampleData Validator.sampleSchema Hsafe)
              _ Hrun) as (Herr & Hsan & Hval).
  eexists. split; [exact Hrun|]. split; [|split; [|split]].
  - apply Herr. split; [exact Hemail|].
    exists Validator.sampleEmailRule,
      {| Validator.isValid := false;
         Validator.errors := [Validator.msgMinLength 5];
         Validator.sanitizedValue := Validator.VStr (lit "bad") |}.
    split; [reflexivity|]. split; [vm_compute; reflexivity|].
    split; reflexivity.
  - apply Herr. split; [exact Hpassword|].
    exists Validator.samplePasswordRule,
      {| Validator.isValid := false;
         Validator.errors := [Validator.msgMinLength 8];
         Validator.sanitizedValue := Validator.VStr (lit "x") |}.
    split; [reflexivity|]. split; [vm_compute; reflexivity|].
    split; reflexivity.
  - apply Hsan. split; [exact Hemail|]. exists Validator.sampleEmailRule.
    split; [reflexivity|]. vm_compute. reflexivity.
  - intros Hvalid. rewrite Hval in Hvalid.
    assert (H : false = true); [|discriminate H].
    apply (Hvalid (lit "email") Validator.sampleEmailRule
             {| Validator.isValid := false;
                Validator.errors := [Validator.msgMinLength 5];
                Validator.sanitizedValue := Validator.VStr (lit "bad") |});
      [reflexivity|vm_compute; reflexivity].
Defined.

(* ===================================================================== *)
(** * Part III: further properties of the code                            *)
(* ===================================================================== *)

(** ** The rate limiter when its settings do not parse *)

Section RateLimitMisconfigured.
Import RateLimit.

Variable cfg : Config.t.

(** An entry whose reset time is [NaN] is never replaced: inside the
    quota a call is counted. *)
Lemma checkRateLimit_nan_counted (m : Z) (ip endpoint : jsstring) (now : Z)
    (st : Store) (c : Z) :
  Config.loginAttempts cfg = Some m ->
  st !! key ip endpoint = Some {| count := c; resetTime := None |} ->
  c < m ->
  checkRateLimit cfg ip endpoint now st =
    (okResult,
     <[key ip endpoint := {| count := c + 1; resetTime := None |}]> st).
Proof.
  intros Hm Hk Hc. unfold checkRateLimit. rewrite Hk, Hm.
  cbn [num_gt num_ge count resetTime].
  destruct (Z.leb_spec m c); [lia|]. reflexivity.
Qed.

Lemma checkRateLimit_nan_refused (m : Z) (ip endpoint : jsstring) (now : Z)
    (st : Store) (c : Z) :
  Config.loginAttempts cfg = Some m ->
  st !! key ip endpoint = Some {| count := c; resetTime := None |} ->
  m <= c ->
  checkRateLimit cfg ip endpoint now st =
    ({| allowed := false; resultResetTime := Some None |}, st).
Proof.
  intros Hm Hk Hc. unfold checkRateLimit. rewrite Hk, Hm.
  cbn [num_gt num_ge count resetTime].
  destruct (Z.leb_spec m c); [|lia]. reflexivity.
Qed.

Lemma calls_nan_counted (m : Z) (ip endpoint : jsstring) (times : list Z) :
  Config.loginAttempts cfg = Some m ->
  forall (st : Store) (c : Z),
    st !! key ip endpoint = Some {| count := c; resetTime := None |} ->
    c + Z.of_nat (length times) <= m ->
    exists st',
      calls cfg ip endpoint times st = (replicate (length times) okResult, st')
      /\ st' !! key ip endpoint =
           Some {| count := c + Z.of_nat (length times); resetTime := None |}.
Proof.
  intros Hm. induction times as [|t times IH]; intros st c Hk Hlen.
  - exists st. simpl. rewrite Z.add_0_r. auto.
  - simpl length in Hlen. simpl.
    rewrite (checkRateLimit_nan_counted m _ _ _ _ c Hm Hk) by lia.
    destruct (IH (<[key ip endpoint := {| count := c + 1; resetTime := None |}]> st)
                (c + 1)) as (st' & Hcalls & Hk').
    + by rewrite lookup_insert_eq.
    + lia.
    + exists st'. rewrite Hcalls. split; [reflexivity|].
      rewrite Hk'. do 2 f_equal. lia.
Qed.

Lemma calls_refused_forever (ip endpoint : jsstring) (st : Store)
    (r : Result) :
  (forall now : Z, checkRateLimit cfg ip endpoint now st = (r, st)) ->
  forall times : list Z,
    calls cfg ip endpoint times st = (replicate (length times) r, st).
Proof.
  intros Hr. induction times as [|t times IH]; [reflexivity|].
  simpl. by rewrite Hr, IH.
Qed.

End RateLimitMisconfigured.

(** X1. When [PUBLIC_LOGIN_MAX_ATTEMPTS] does not parse, so that the
    quota is [NaN], [checkRateLimit] refuses nothing: from any store, every
    call of every client is allowed. *)
Theorem checkRateLimit_quota_nan_allows_everything :
  forall (cfg : Config.t) (ip endpoint : jsstring) (now : Z)
         (st : RateLimit.Store),
    Config.loginAttempts cfg = None ->
    fst (RateLimit.checkRateLimit cfg ip endpoint now st) = RateLimit.okResult.
Proof.
  intros cfg ip endpoint now st Hm. unfold RateLimit.checkRateLimit.
  rewrite Hm. destruct (st !! RateLimit.key ip endpoint) as [e|]; [|reflexivity].
  destruct (num_gt (Some now) (RateLimit.resetTime e)); reflexivity.
Qed.

(** The quota is set to the word [unlimited]; a client that is at the
    default quota already goes on. *)
Lemma checkRateLimit_quota_nan_allows_everything_witness :
  let env :=
    {| Config.PUBLIC_API_URL := None; Config.PROD := true; Config.DEV := false;
       Config.PUBLIC_ENABLE_CSRF := None;
       Config.PUBLIC_ENABLE_RATE_LIMITING := None;
       Config.PUBLIC_ALLOWED_ORIGINS := None;
       Config.PUBLIC_LOGIN_MAX_ATTEMPTS := Some (lit "unlimited");
       Config.PUBLIC_LOGIN_WINDOW_MS := None |} in
  let st : RateLimit.Store :=
    {[ RateLimit.key (lit "203.0.113.7") (lit "/login") :=
         {| RateLimit.count := 5; RateLimit.resetTime := Some 301000 |} ]} in
  fst (RateLimit.checkRateLimit (Config.config env) (lit "203.0.113.7")
         (lit "/login") 2000 st) = RateLimit.okResult.
Proof.
  intros env st.
  apply (checkRateLimit_quota_nan_allows_everything (Config.config env)).
  reflexivity.
Defined.

(** X2. When [PUBLIC_LOGIN_WINDOW_MS] does not parse, so that the window
    is [NaN], a window never ends: for a client without an entry, the
    first [maxAttempts] calls are allowed, whenever they come, and every
    call after them is refused, whenever it comes, with the reset time
    [NaN]. *)
Theorem checkRateLimit_window_nan_never_resets :
  forall (cfg : Config.t) (maxAttempts : Z) (ip endpoint : jsstring)
         (first later : list Z) (st : RateLimit.Store),
    Config.loginWindowMs cfg = None ->
    Config.loginAttempts cfg = Some maxAttempts ->
    st !! RateLimit.key ip endpoint = None ->
    first <> [] ->
    Z.of_nat (length first) = maxAttempts ->
    exists st',
      RateLimit.calls cfg ip endpoint first st =
        (replicate (length first) RateLimit.okResult, st')
      /\ RateLimit.calls cfg ip endpoint later st' =
           (replicate (length later)
              {| RateLimit.allowed := false;
                 RateLimit.resultResetTime := Some None |}, st').
Proof.
  intros cfg m ip endpoint first later st Hw Hm Hk Hne Hlen.
  destruct first as [|t0 first]; [done|]. simpl length in Hlen.
  destruct (calls_nan_counted cfg m ip endpoint first Hm
              (<[RateLimit.key ip endpoint :=
                   {| RateLimit.count := 1; RateLimit.resetTime := None |}]> st) 1)
    as (st' & Hcalls & Hk').
  - by rewrite lookup_insert_eq.
  - lia.
  - exists st'. split.
    + simpl. unfold RateLimit.checkRateLimit at 1. rewrite Hk, Hw.
      cbn [num_add]. rewrite Hcalls. reflexivity.
    + apply calls_refused_forever. intros now.
      apply (checkRateLimit_nan_refused cfg m _ _ _ _ _ Hm Hk'). lia.
Qed.

(** The window is set to the word [forever]: five calls in a second, then
    calls a day and a year later. *)
Lemma checkRateLimit_window_nan_never_resets_witness :
  let env :=
    {| Config.PUBLIC_API_URL := None; Config.PROD := true; Config.DEV := false;
       Config.PUBLIC_ENABLE_CSRF := None;
       Config.PUBLIC_ENABLE_RATE_LIMITING := None;
       Config.PUBLIC_ALLOWED_ORIGINS := None;
       Config.PUBLIC_LOGIN_MAX_ATTEMPTS := None;
       Config.PUBLIC_LOGIN_WINDOW_MS := Some (lit "forever") |} in
  exists st',
    RateLimit.calls (Config.config env) (lit "203.0.113.7") (lit "/login")
      [1000; 1100; 1200; 1300; 1400] ∅ =
      (replicate 5 RateLimit.okResult, st')
    /\ RateLimit.calls (Config.config env) (lit "203.0.113.7") (lit "/login")
         [86401000; 31536001000] st' =
         (replicate 2 {| RateLimit.allowed := false;
                         RateLimit.resultResetTime := Some None |}, st').
Proof.
  intros env.
  apply (checkRateLimit_window_nan_never_resets (Config.config env) 5
           (lit "203.0.113.7") (lit "/login") [1000; 1100; 1200; 1300; 1400]
           [86401000; 31536001000] ∅).
  - reflexivity.
  - reflexivity.
  - apply lookup_empty.
  - discriminate.
  - reflexivity.
Defined.

(** ** The configured allow-list *)

Lemma splitGo_all_empty (sep : N) (s : jsstring) : forall acc : jsstring,
  Forall (fun piece => piece = []) (splitGo sep acc s) <->
  acc = [] /\ Forall (fun c => c = sep) s.
Proof.
  induction s as [|c s IH]; intros acc; cbn [splitGo].
  - rewrite Forall_singleton. split.
    + intros H. split; [|constructor].
      apply (f_equal (@rev N)) in H. by rewrite rev_involutive in H.
    + intros [-> _]. reflexivity.
  - destruct (N.eqb_spec c sep) as [->|Hne].
    + rewrite Forall_cons, IH, Forall_cons. split.
      * intros (H & _ & Hs). split; [|by split].
        apply (f_equal (@rev N)) in H. by rewrite rev_involutive in H.
      * intros (-> & _ & Hs). by repeat split.
    + rewrite IH, Forall_cons. split.
      * intros [H _]. discriminate H.
      * intros (_ & Hc & _). done.
Qed.

Lemma filter_truthy_nil (l : list jsstring) :
  filter (fun s => Is_true (truthyStr s)) l = [] <->
  Forall (fun piece => piece = []) l.
Proof.
  induction l as [|x l IH]; [split; [constructor|done]|].
  rewrite filter_cons, Forall_cons. destruct x as [|c x]; cbn.
  - rewrite decide_False by (intros []). rewrite IH. tauto.
  - rewrite decide_True by exact I. split; [discriminate|]. intros [H _].
    discriminate H.
Qed.

(** X3. Whatever the environment, the configured allow-list never holds
    the empty string, and it is empty exactly when
    [PUBLIC_ALLOWED_ORIGINS] is set to a non-empty string made of commas
    only; an unset or empty variable gives the six default origins. *)
Theorem allowedOrigins_configuration :
  forall env : Config.Env,
    ([] ∉ Config.allowedOrigins (Config.config env))
    /\ (Config.allowedOrigins (Config.config env) = [] <->
        exists s, Config.PUBLIC_ALLOWED_ORIGINS env = Some s
                  /\ s <> [] /\ Forall (fun c => c = 44%N) s)
    /\ (truthyOpt (Config.PUBLIC_ALLOWED_ORIGINS env) = false ->
        Config.allowedOrigins (Config.config env) =
          map lit ["http://localhost:4321"; "http://localhost:3000";
                   "http://127.0.0.1:4321"; "http://127.0.0.1:3000";
                   "http://192.168.1.7:4321"; "http://192.168.56.1:4321"]%string).
Proof.
  intros env. cbn [Config.config Config.allowedOrigins].
  split; [|split].
  - intros [H _]%(list_elem_of_filter (fun s => Is_true (truthyStr s))).
    exact H.
  - rewrite filter_truthy_nil. unfold split. rewrite splitGo_all_empty.
    destruct (Config.PUBLIC_ALLOWED_ORIGINS env) as [[|c s]|]; cbn [orElse truthyStr].
    + split.
      * intros [_ H]. exfalso. revert H. apply (bool_decide_unpack _).
        vm_compute. exact I.
      * intros (s & [= <-] & Hs & _). done.
    + split.
      * intros [_ H]. exists (c :: s). done.
      * intros (s' & [= <-] & _ & H). done.
    + split.
      * intros [_ H]. exfalso. revert H. apply (bool_decide_unpack _).
        vm_compute. exact I.
      * intros (s & [=] & _).
  - intros H. destruct (Config.PUBLIC_ALLOWED_ORIGINS env) as [[|c s]|];
      try discriminate H; vm_compute; reflexivity.
Qed.

(** The variable set to two commas: no origin is configured. *)
Lemma allowedOrigins_configuration_witness :
  let env :=
    {| Config.PUBLIC_API_URL := None; Config.PROD := true; Config.DEV := false;
       Config.PUBLIC_ENABLE_CSRF := None;
       Config.PUBLIC_ENABLE_RATE_LIMITING := None;
       Config.PUBLIC_ALLOWED_ORIGINS := Some (lit ",,");
       Config.PUBLIC_LOGIN_MAX_ATTEMPTS := None;
       Config.PUBLIC_LOGIN_WINDOW_MS := None |} in
  Config.allowedOrigins (Config.config env) = [].
Proof.
  intros env.
  apply (proj2 (proj1 (proj2 (allowedOrigins_configuration env)))).
  exists (lit ",,"). split; [reflexivity|]. split; [discriminate|].
  repeat constructor.
Defined.

(** ** The caller's address *)

Lemma orElse_nonempty (a : option jsstring) (b : jsstring) :
  b <> [] -> orElse a b <> [].
Proof. destruct a as [[|c s]|]; cbn; done. Qed.

Lemma orElse_truthy (v : jsstring) (b : jsstring) :
  v <> [] -> orElse (Some v) b = v.
Proof. destruct v; cbn; done. Qed.

(** X4. [getClientIP] never returns the empty string, whatever the
    headers hold (an empty header value, or a forwarding list that begins
    with a comma, is passed over); and a non-empty [cf-connecting-ip]
    value is returned as it is, before all the other headers. *)
Theorem getClientIP_never_empty :
  forall request : Http.Request,
    Middleware.getClientIP request <> []
    /\ (forall v : jsstring,
          Http.headers request !! lit "cf-connecting-ip" = Some v -> v <> [] ->
          Middleware.getClientIP request = v).
Proof.
  intros request. unfold Middleware.getClientIP. split.
  - do 4 apply orElse_nonempty. discriminate.
  - intros v -> Hv. by apply orElse_truthy.
Qed.

(** A request that went through two proxies, the first of which left its
    place in the forwarding list empty. *)
Lemma getClientIP_never_empty_witness :
  let request :=
    {| Http.method := lit "GET"; Http.pathname := lit "/login";
       Http.csrfTokenParam := None;
       Http.headers := {[ lit "x-forwarded-for" := lit ",10.0.0.1";
                          lit "cf-connecting-ip" := lit "198.51.100.4" ]};
       Http.formData := None |} in
  Middleware.getClientIP request = lit "198.51.100.4".
Proof.
  intros request.
  apply (proj2 (getClientIP_never_empty request) (lit "198.51.100.4"));
    [reflexivity|discriminate].
Defined.

(** ** The headers of the responses of [onRequest] *)

(** Closes a decidable statement about literals, such as [lit a <> lit b]
    or [lit a ∈ l], by evaluation. *)
Ltac by_computation := apply (bool_decide_unpack _); vm_compute; exact I.

Section ResponseHeaders.
Import Http Middleware.

Variable urlOrigin : jsstring -> option jsstring.

Lemma lookup_set_other (k name value : jsstring) (h : Headers) :
  name <> k -> set name value h !! k = h !! k.
Proof. intros H. unfold set. by rewrite lookup_insert_ne. Qed.

Lemma lookup_jsonHeaders_other (k : jsstring) (h : Headers) :
  lit "content-type" <> k -> jsonHeaders h !! k = h !! k.
Proof.
  intros H. unfold jsonHeaders.
  destruct (h !! lit "content-type"); by rewrite lookup_insert_ne.
Qed.

Lemma lookup_setAll_other (k : jsstring) (kvs : list (jsstring * jsstring)) :
  forall h : Headers, k ∉ kvs.*1 -> setAll kvs h !! k = h !! k.
Proof.
  unfold setAll. induction kvs as [|[name value] kvs IH]; intros h Hk; [done|].
  cbn [foldl fst snd]. cbn in Hk. apply not_elem_of_cons in Hk as [Hne Hk].
  rewrite IH by done. apply lookup_set_other. congruence.
Qed.

(** No stage after the CORS stage touches a header outside [lateNames]. *)
Lemma late_name (k name : jsstring) :
  k ∉ lateNames -> name ∈ lateNames -> name <> k.
Proof. intros Hk Hin ->. done. Qed.

Lemma finish_headers_frame (cfg : Config.t) (io : Inputs) (request : Request)
    (resp : Response) (st : Stores) (k : jsstring) :
  k ∉ lateNames ->
  responseHeaders (response (fst (finish cfg io request resp st))) !! k =
    responseHeaders resp !! k.
Proof.
  intros Hk. unfold finish.
  destruct (Config.enableCSRF cfg && JS.eqb (method request) (lit "GET")
            && (includes (lit "/login") (pathname request)
                || includes (lit "/register") (pathname request)
                || includes (lit "/dashboard") (pathname request)));
    [|reflexivity].
  destruct (Csrf.generateCSRFToken (randomUUID io) (csrfTokens st)) as [token tokens].
  cbn [fst response responseHeaders].
  rewrite !lookup_set_other; [reflexivity| |];
    apply (late_name k); [done|by_computation|done|by_computation].
Qed.

Lemma jsonResponse_headers_frame (code : Z) (b : ErrorBody) (h : Headers)
    (k : jsstring) :
  k ∉ lateNames ->
  responseHeaders (jsonResponse code b h) !! k = h !! k.
Proof.
  intros Hk. unfold jsonResponse. cbn [responseHeaders].
  apply lookup_jsonHeaders_other. apply (late_name k); [done|by_computation].
Qed.

Lemma afterRateLimit_headers_frame (cfg : Config.t) (io : Inputs)
    (request : Request) (resp : Response) (st st' : Stores) (out : Outcome)
    (k : jsstring) :
  afterRateLimit urlOrigin cfg io request resp st = (Normal out, st') ->
  k ∉ lateNames ->
  responseHeaders (response out) !! k = responseHeaders resp !! k.
Proof.
  intros Hrun Hk. unfold afterRateLimit in Hrun.
  match type of Hrun with
  | (let '(passed, st) := ?check in _) = _ =>
      destruct check as [passed st1]
  end.
  destruct (negb passed).
  { injection Hrun as <- _. by apply jsonResponse_headers_frame. }
  destruct (Origin.validateOrigin urlOrigin cfg request) as [[|]|];
    [| |discriminate Hrun].
  - pose proof (finish_headers_frame cfg io request resp st1 k Hk) as Hf.
    destruct (finish cfg io request resp st1) as [o st2].
    injection Hrun as <- _. exact Hf.
  - injection Hrun as <- _. by apply jsonResponse_headers_frame.
Qed.

Lemma onRequest_headers_frame (cfg : Config.t) (io : Inputs)
    (request : Request) (st st' : Stores) (out : Outcome) (k : jsstring) :
  isStaticAsset (pathname request) = false ->
  onRequest urlOrigin cfg io request st = (Normal out, st') ->
  k ∉ lateNames ->
  responseHeaders (response out) !! k =
    decorated cfg request (responseHeaders (next io)) !! k.
Proof.
  intros Hstatic Hrun Hk.
  unfold onRequest in Hrun. rewrite Hstatic in Hrun.
  fold (decorated cfg request (responseHeaders (next io))) in Hrun.
  remember (decorated cfg request (responseHeaders (next io))) as h eqn:Hh.
  clear Hh.
  destruct (JS.eqb (method request) (lit "OPTIONS")).
  { injection Hrun as <- _. cbn [response responseHeaders].
    rewrite !lookup_set_other; [reflexivity|..];
      (apply (late_name k); [assumption|by_computation]). }
  destruct (Config.enableRateLimiting cfg && isSensitive (pathname request)).
  - destruct (RateLimit.checkRateLimit cfg (getClientIP request)
                (pathname request) (now io) (rateLimitStore st)) as [r store].
    destruct (negb (RateLimit.allowed r)).
    + injection Hrun as <- _. cbn [response].
      rewrite jsonResponse_headers_frame by done.
      rewrite !lookup_set_other; [reflexivity|..];
        (apply (late_name k); [assumption|by_computation]).
    + by rewrite (afterRateLimit_headers_frame _ _ _ _ _ _ _ _ Hrun Hk).
  - by rewrite (afterRateLimit_headers_frame _ _ _ _ _ _ _ _ Hrun Hk).
Qed.

Lemma lookup_setAll_member (kvs : list (jsstring * jsstring)) :
  forall (h : Headers) (name value : jsstring),
    NoDup kvs.*1 -> (name, value) ∈ kvs -> setAll kvs h !! name = Some value.
Proof.
  unfold setAll.
  induction kvs as [|[n v] kvs IH]; intros h name value Hnd Hin;
    [by apply elem_of_nil in Hin|].
  cbn in Hnd. apply NoDup_cons in Hnd as [Hfresh Hnd].
  cbn [foldl fst snd]. apply elem_of_cons in Hin as [[= -> ->]|Hin].
  - fold (setAll kvs (set n v h)). rewrite lookup_setAll_other by done.
    unfold set. apply lookup_insert_eq.
  - by apply IH.
Qed.

Lemma securityHeaders_names (cfg : Config.t) :
  (securityHeaders cfg).*1 =
    map lit ["x-content-type-options"; "x-frame-options"; "x-xss-protection";
             "referrer-policy"; "permissions-policy";
             "strict-transport-security"; "content-security-policy"]%string.
Proof. reflexivity. Qed.

Lemma decorated_security (cfg : Config.t) (request : Request) (h0 : Headers)
    (name value : jsstring) :
  (name, value) ∈ securityHeaders cfg ->
  decorated cfg request h0 !! name = Some value.
Proof.
  intros Hin.
  assert (Hset : setAll (securityHeaders cfg) h0 !! name = Some value).
  { apply lookup_setAll_member; [|done]. rewrite securityHeaders_names.
    by_computation. }
  assert (Hname : name ∈ (securityHeaders cfg).*1).
  { apply list_elem_of_fmap. by exists (name, value). }
  rewrite securityHeaders_names in Hname.
  assert (Hcors : forall (o : jsstring) (h : Headers),
             set (lit "access-control-allow-credentials") (lit "true")
               (set (lit "access-control-allow-origin") o h) !! name = h !! name).
  { intros o h. cbn [map] in Hname.
    rewrite !lookup_set_other; [done| |]; intros <-;
      repeat (apply elem_of_cons in Hname as [Hname|Hname];
              [revert Hname; by_computation|]);
      by apply elem_of_nil in Hname. }
  unfold decorated. cbv zeta.
  repeat case_match; rewrite ?Hcors; exact Hset.
Qed.

End ResponseHeaders.

(** X5. Every response that [onRequest] returns for a path that is not a
    static asset carries the seven security headers with their configured
    values: the rewritten response of the route handler, the preflight
    answer, and the JSON rejections 429 and 403 alike. *)
Theorem onRequest_sets_security_headers :
  forall (urlOrigin : jsstring -> option jsstring) (cfg : Config.t)
         (io : Middleware.Inputs) (request : Http.Request)
         (st st' : Middleware.Stores) (out : Middleware.Outcome)
         (name value : jsstring),
    Middleware.isStaticAsset (Http.pathname request) = false ->
    Middleware.onRequest urlOrigin cfg io request st = (Normal out, st') ->
    (name, value) ∈ Middleware.securityHeaders cfg ->
    Http.responseHeaders (Middleware.response out) !! name = Some value.
Proof.
  intros urlOrigin cfg io request st st' out name value Hstatic Hrun Hin.
  rewrite (onRequest_headers_frame urlOrigin cfg io request st st' out name
             Hstatic Hrun).
  - by apply decorated_security.
  - assert (Hname : name ∈ (Middleware.securityHeaders cfg).*1).
    { apply list_elem_of_fmap. by exists (name, value). }
    rewrite securityHeaders_names in Hname. cbn [map] in Hname.
    repeat (apply elem_of_cons in Hname as [->|Hname]; [by_computation|]).
    by apply elem_of_nil in Hname.
Qed.

(** A request from an origin that is not allowed: the 403 answer says
    [X-Frame-Options: DENY]. *)
Lemma onRequest_sets_security_headers_witness :
  let request :=
    {| Http.method := lit "POST"; Http.pathname := lit "/contact";
       Http.csrfTokenParam := None;
       Http.headers := {[ lit "origin" := lit "https://evil.example" ]};
       Http.formData := None |} in
  let io :=
    {| Middleware.next := {| Http.status := 200; Http.responseHeaders := ∅;
                             Http.body := Http.Page 0 |};
       Middleware.now := 1000; Middleware.nowAfter := 1000;
       Middleware.randomUUID := Csrf.sampleUuid 0%nat |} in
  let st := {| Middleware.rateLimitStore := ∅; Middleware.csrfTokens := [] |} in
  exists out st',
    Middleware.onRequest Origin.whatwgOrigin (Config.config Config.unsetEnv)
      io request st = (Normal out, st')
    /\ Http.status (Middleware.response out) = 403
    /\ Http.responseHeaders (Middleware.response out) !! lit "x-frame-options"
       = Some (lit "DENY").
Proof.
  intros request io st. eexists _, _.
  split; [vm_compute; reflexivity|]. split; [reflexivity|].
  eapply (onRequest_sets_security_headers Origin.whatwgOrigin
            (Config.config Config.unsetEnv) io request st).
  - vm_compute. reflexivity.
  - vm_compute. reflexivity.
  - by_computation.
Defined.

Section Cors.
Import Http Middleware.

Lemma decorated_allow_origin (cfg : Config.t) (request : Request) (h0 : Headers) :
  decorated cfg request h0 !! lit "access-control-allow-origin" =
    match headers request !! lit "origin" with
    | Some o =>
        if bool_decide (o <> [] /\ o ∈ Config.allowedOrigins cfg) then Some o
        else h0 !! lit "access-control-allow-origin"
    | None => h0 !! lit "access-control-allow-origin"
    end.
Proof.
  assert (Hsec : setAll (securityHeaders cfg) h0
                   !! lit "access-control-allow-origin"
                 = h0 !! lit "access-control-allow-origin").
  { apply lookup_setAll_other. rewrite securityHeaders_names. by_computation. }
  unfold decorated. cbv zeta.
  destruct (headers request !! lit "origin") as [[|c o]|].
  - rewrite bool_decide_eq_false_2 by tauto. by destruct (0 <? _)%nat.
  - destruct (Config.allowedOrigins cfg) as [|a l] eqn:Hal.
    + cbn. rewrite bool_decide_eq_false_2; [done|].
      intros [_ Hin]. by apply elem_of_nil in Hin.
    + cbn [length Nat.ltb Nat.leb]. destruct (decide (c :: o ∈ a :: l)) as [Hin|Hin].
      * rewrite !bool_decide_eq_true_2 by done.
        rewrite lookup_set_other by by_computation.
        unfold set. apply lookup_insert_eq.
      * rewrite !bool_decide_eq_false_2 by tauto. done.
  - by destruct (0 <? _)%nat.
Qed.

End Cors.

(** X6. On a response for a path that is not a static asset, the header
    [Access-Control-Allow-Origin] names the [Origin] of the request when
    that origin is not empty and is on the allow-list; in every other case
    [onRequest] leaves the header as the route handler set it, so it never
    grants an origin that is not on the list. *)
Theorem onRequest_cors_allow_listed_only :
  forall (urlOrigin : jsstring -> option jsstring) (cfg : Config.t)
         (io : Middleware.Inputs) (request : Http.Request)
         (st st' : Middleware.Stores) (out : Middleware.Outcome),
    Middleware.isStaticAsset (Http.pathname request) = false ->
    Middleware.onRequest urlOrigin cfg io request st = (Normal out, st') ->
    Http.responseHeaders (Middleware.response out)
      !! lit "access-control-allow-origin" =
      match Http.headers request !! lit "origin" with
      | Some o =>
          if bool_decide (o <> [] /\ o ∈ Config.allowedOrigins cfg) then Some o
          else Http.responseHeaders (Middleware.next io)
                 !! lit "access-control-allow-origin"
      | None =>
          Http.responseHeaders (Middleware.next io)
            !! lit "access-control-allow-origin"
      end.
Proof.
  intros urlOrigin cfg io request st st' out Hstatic Hrun.
  rewrite (onRequest_headers_frame urlOrigin cfg io request st st' out _
             Hstatic Hrun) by by_computation.
  apply decorated_allow_origin.
Qed.

(** A page asked from an allowed origin, and the same page asked from
    another one. *)
Lemma onRequest_cors_allow_listed_only_witness :
  let request o :=
    {| Http.method := lit "GET"; Http.pathname := lit "/pricing";
       Http.csrfTokenParam := None;
       Http.headers := {[ lit "origin" := o ]};
       Http.formData := None |} in
  let io :=
    {| Middleware.next := {| Http.status := 200; Http.responseHeaders := ∅;
                             Http.body := Http.Page 0 |};
       Middleware.now := 1000; Middleware.nowAfter := 1000;
       Middleware.randomUUID := Csrf.sampleUuid 0%nat |} in
  let st := {| Middleware.rateLimitStore := ∅; Middleware.csrfTokens := [] |} in
  let granted o :=
    match Middleware.onRequest Origin.whatwgOrigin
            (Config.config Config.unsetEnv) io (request o) st with
    | (Normal out, _) =>
        Http.responseHeaders (Middleware.response out)
          !! lit "access-control-allow-origin"
    | (ThrowTypeError, _) => None
    end in
  granted (lit "http://localhost:3000") = Some (lit "http://localhost:3000")
  /\ granted (lit "https://evil.example") = None.
Proof.
  intros request io st granted. subst granted. cbv beta. split.
  - destruct (Middleware.onRequest Origin.whatwgOrigin
                (Config.config Config.unsetEnv) io
                (request (lit "http://localhost:3000")) st)
      as [[out|] st'] eqn:Hrun.
    + rewrite (onRequest_cors_allow_listed_only Origin.whatwgOrigin
                 (Config.config Config.unsetEnv) io
                 (request (lit "http://localhost:3000")) st st' out
                 eq_refl Hrun).
      reflexivity.
    + vm_compute in Hrun. discriminate Hrun.
  - destruct (Middleware.onRequest Origin.whatwgOrigin
                (Config.config Config.unsetEnv) io
                (request (lit "https://evil.example")) st)
      as [[out|] st'] eqn:Hrun.
    + rewrite (onRequest_cors_allow_listed_only Origin.whatwgOrigin
                 (Config.config Config.unsetEnv) io
                 (request (lit "https://evil.example")) st st' out
                 eq_refl Hrun).
      reflexivity.
    + reflexivity.
Defined.

(** ** What one request does to the two stores *)

Section StoreChanges.
Import Http Middleware.

Variable urlOrigin : jsstring -> option jsstring.

Lemma checkRateLimit_other_keys (cfg : Config.t) (ip endpoint : jsstring)
    (now : Z) (st st' : RateLimit.Store) (r : RateLimit.Result) (k : jsstring) :
  RateLimit.checkRateLimit cfg ip endpoint now st = (r, st') ->
  k <> RateLimit.key ip endpoint ->
  st' !! k = st !! k.
Proof.
  unfold RateLimit.checkRateLimit. intros H Hk.
  destruct (st !! RateLimit.key ip endpoint) as [e|].
  - destruct (num_gt (Some now) (RateLimit.resetTime e)).
    + injection H as _ <-. by apply lookup_insert_ne.
    + destruct (num_ge (Some (RateLimit.count e)) (Config.loginAttempts cfg));
        injection H as _ <-; [done|by apply lookup_insert_ne].
  - injection H as _ <-. by apply lookup_insert_ne.
Qed.

Lemma validateCSRFToken_result (t : jsstring) (tokens tokens' : Csrf.TokenSet)
    (ok : bool) :
  Csrf.validateCSRFToken t tokens = (ok, tokens') ->
  (ok = true /\ t ∈ tokens /\ tokens' = Csrf.delete t tokens)
  \/ (ok = false /\ tokens' = tokens).
Proof.
  unfold Csrf.validateCSRFToken. destruct (Csrf.has t tokens) eqn:Hh;
    intros [= <- <-]; [left|right; done].
  apply has_spec in Hh. done.
Qed.

Lemma finish_stores (cfg : Config.t) (io : Inputs) (request : Request)
    (response : Response) (st : Stores) :
  rateLimitStore (snd (finish cfg io request response st)) = rateLimitStore st
  /\ csrfTokens (snd (finish cfg io request response st)) =
       if issuesToken cfg request
       then snd (Csrf.generateCSRFToken (randomUUID io) (csrfTokens st))
       else csrfTokens st.
Proof.
  unfold finish, issuesToken.
  destruct (Config.enableCSRF cfg && JS.eqb (method request) (lit "GET")
            && (includes (lit "/login") (pathname request)
                || includes (lit "/register") (pathname request)
                || includes (lit "/dashboard") (pathname request)));
    [|done].
  by destruct (Csrf.generateCSRFToken (randomUUID io) (csrfTokens st)).
Qed.

Lemma isStateChanging_not_GET (m : jsstring) :
  isStateChanging m = true -> JS.eqb m (lit "GET") = false.
Proof.
  unfold isStateChanging, JS.eqb. intros H%bool_decide_eq_true.
  apply bool_decide_eq_false. intros ->. revert H. by_computation.
Qed.

Lemma afterRateLimit_stores (cfg : Config.t) (io : Inputs) (request : Request)
    (response : Response) (st : Stores) :
  let st' := snd (afterRateLimit urlOrigin cfg io request response st) in
  rateLimitStore st' = rateLimitStore st
  /\ (csrfTokens st' = csrfTokens st
      \/ (Config.isProd cfg = true /\ isStateChanging (method request) = true
          /\ exists t, t ∈ csrfTokens st
                       /\ csrfTokens st' = Csrf.delete t (csrfTokens st))
      \/ (issuesToken cfg request = true
          /\ csrfTokens st' =
               snd (Csrf.generateCSRFToken (randomUUID io) (csrfTokens st)))).
Proof.
  unfold afterRateLimit.
  match goal with
  | |- context [let '(passed, st0) := ?check in _] =>
      assert (Hstage :
        rateLimitStore (snd check) = rateLimitStore st
        /\ (csrfTokens (snd check) = csrfTokens st
            \/ (Config.isProd cfg = true
                /\ isStateChanging (method request) = true
                /\ exists t, t ∈ csrfTokens st
                             /\ csrfTokens (snd check) =
                                  Csrf.delete t (csrfTokens st))));
      [|destruct check as [passed st1]]
  end.
  { destruct (Config.isProd cfg && Config.enableCSRF cfg
              && isStateChanging (method request)) eqn:Hcheck;
      [|split; [done|by left]].
    apply andb_prop in Hcheck as [[Hprod Hcsrf]%andb_prop Hsc].
    destruct (negb (startsWith (lit "/api/") (pathname request))
              || negb (truthyOpt (headers request !! lit "authorization")));
      [|split; [done|by left]].
    destruct (match headers request !! lit "x-csrf-token" with
              | Some (c :: t) => Some (c :: t)
              | _ => csrfTokenParam request
              end) as [[|c t]|]; [split; [done|by left]| |split; [done|by left]].
    destruct (Csrf.validateCSRFToken (c :: t) (csrfTokens st)) as [ok tokens]
      eqn:Hv.
    apply validateCSRFToken_result in Hv as [(-> & Hin & ->)|(-> & ->)];
      cbn [snd rateLimitStore csrfTokens].
    - split; [done|]. right. eauto.
    - split; [done|]. by left. }
  cbn [snd] in Hstage. destruct Hstage as [Hrate Htok].
  destruct (negb passed); [cbn [snd]; split; [done|tauto]|].
  destruct (Origin.validateOrigin urlOrigin cfg request) as [[|]|];
    [|cbn [snd]; split; [done|tauto]..].
  pose proof (finish_stores cfg io request response st1) as [Hr Ht].
  destruct (finish cfg io request response st1) as [o st2].
  cbn [snd] in *. rewrite Hr, Ht, Hrate. split; [done|].
  destruct Htok as [Hsame|(Hprod & Hsc & t & Hin & Hdel)].
  - rewrite Hsame.
    destruct (issuesToken cfg request); [right; right; done|by left].
  - assert (Hno : issuesToken cfg request = false).
    { unfold issuesToken. rewrite (isStateChanging_not_GET _ Hsc).
      by rewrite andb_false_r. }
    rewrite Hno. right. left. eauto.
Qed.

End StoreChanges.

(** X7. One request changes at most one entry of the rate-limit store,
    the one of its own client address and path; and it changes none when
    the path is a static asset or is not a sensitive one, when the method
    is [OPTIONS], or when rate limiting is switched off.  This holds also
    when [onRequest] throws. *)
Theorem onRequest_rate_limit_store_frame :
  forall (urlOrigin : jsstring -> option jsstring) (cfg : Config.t)
         (io : Middleware.Inputs) (request : Http.Request)
         (st : Middleware.Stores),
    let st' := snd (Middleware.onRequest urlOrigin cfg io request st) in
    (forall k : jsstring,
       k <> RateLimit.key (Middleware.getClientIP request) (Http.pathname request) ->
       Middleware.rateLimitStore st' !! k = Middleware.rateLimitStore st !! k)
    /\ (Middleware.isStaticAsset (Http.pathname request) = true
        \/ Middleware.isSensitive (Http.pathname request) = false
        \/ Http.method request = lit "OPTIONS"
        \/ Config.enableRateLimiting cfg = false ->
        Middleware.rateLimitStore st' = Middleware.rateLimitStore st).
Proof.
  intros urlOrigin cfg io request st st'. subst st'.
  unfold Middleware.onRequest.
  destruct (Middleware.isStaticAsset (Http.pathname request)) eqn:Hstatic;
    [split; [done|done]|].
  destruct (JS.eqb (Http.method request) (lit "OPTIONS")) eqn:Hopt;
    [split; [done|done]|].
  assert (Hnot : Http.method request <> lit "OPTIONS").
  { intros H. rewrite H in Hopt. discriminate Hopt. }
  destruct (Config.enableRateLimiting cfg && Middleware.isSensitive (Http.pathname request))
    eqn:Hrl.
  - apply andb_prop in Hrl as [Hen Hsens].
    destruct (RateLimit.checkRateLimit cfg (Middleware.getClientIP request)
                (Http.pathname request) (Middleware.now io)
                (Middleware.rateLimitStore st)) as [r store] eqn:Hcheck.
    split.
    + intros k Hk.
      pose proof (checkRateLimit_other_keys _ _ _ _ _ _ _ k Hcheck Hk) as Hframe.
      destruct (negb (RateLimit.allowed r)); [exact Hframe|].
      match goal with
      | |- context [Middleware.afterRateLimit ?u ?c ?i ?rq ?resp ?s] =>
          destruct (afterRateLimit_stores u c i rq resp s) as [Hr _]
      end.
      rewrite Hr. exact Hframe.
    + intros [H|[H|[H|H]]]; congruence.
  - match goal with
    | |- context [Middleware.afterRateLimit ?u ?c ?i ?rq ?resp ?s] =>
        destruct (afterRateLimit_stores u c i rq resp s) as [Hr _]
    end.
    rewrite Hr. split; [done|done].
Qed.

(** The fifth [POST /login] of a client: its own entry is counted, the
    entry of another client stays. *)
Lemma onRequest_rate_limit_store_frame_witness :
  let request :=
    {| Http.method := lit "POST"; Http.pathname := lit "/login";
       Http.csrfTokenParam := None;
       Http.headers := {[ lit "x-real-ip" := lit "198.51.100.4" ]};
       Http.formData := None |} in
  let io :=
    {| Middleware.next := {| Http.status := 200; Http.responseHeaders := ∅;
                             Http.body := Http.Page 0 |};
       Middleware.now := 2000; Middleware.nowAfter := 2000;
       Middleware.randomUUID := Csrf.sampleUuid 0%nat |} in
  let other := RateLimit.key (lit "203.0.113.7") (lit "/login") in
  let entry := {| RateLimit.count := 5; RateLimit.resetTime := Some 301000 |} in
  let st :=
    {| Middleware.rateLimitStore :=
         {[ other := entry;
            RateLimit.key (lit "198.51.100.4") (lit "/login") :=
              {| RateLimit.count := 4; RateLimit.resetTime := Some 301000 |} ]};
       Middleware.csrfTokens := [] |} in
  Middleware.rateLimitStore
    (snd (Middleware.onRequest Origin.whatwgOrigin
            (Config.config Config.unsetEnv) io request st)) !! other
  = Some entry.
Proof.
  intros request io other entry st.
  etrans;
    [apply (proj1 (onRequest_rate_limit_store_frame Origin.whatwgOrigin
                     (Config.config Config.unsetEnv) io request st) other);
     by_computation|].
  vm_compute. reflexivity.
Defined.

(** X8. One request does to the set of CSRF tokens one of three things:
    nothing; or it removes one token that was active, which only a
    [POST], [PUT], [DELETE] or [PATCH] request in production does; or it
    performs one [generateCSRFToken] call, which only a request that
    meets the issuing condition ([GET], CSRF enabled, a login, register or
    dashboard path) does.  No request both uses and issues a token, and a
    static asset or [OPTIONS] request does neither. *)
Theorem onRequest_csrf_token_set :
  forall (urlOrigin : jsstring -> option jsstring) (cfg : Config.t)
         (io : Middleware.Inputs) (request : Http.Request)
         (st : Middleware.Stores),
    let st' := snd (Middleware.onRequest urlOrigin cfg io request st) in
    (Middleware.csrfTokens st' = Middleware.csrfTokens st
     \/ (Config.isProd cfg = true
         /\ Middleware.isStateChanging (Http.method request) = true
         /\ exists t, t ∈ Middleware.csrfTokens st
                      /\ Middleware.csrfTokens st' =
                           Csrf.delete t (Middleware.csrfTokens st))
     \/ (Middleware.issuesToken cfg request = true
         /\ Middleware.csrfTokens st' =
              snd (Csrf.generateCSRFToken (Middleware.randomUUID io)
                     (Middleware.csrfTokens st))))
    /\ (Middleware.isStaticAsset (Http.pathname request) = true
        \/ Http.method request = lit "OPTIONS" ->
        Middleware.csrfTokens st' = Middleware.csrfTokens st).
Proof.
  intros urlOrigin cfg io request st st'. subst st'.
  unfold Middleware.onRequest.
  destruct (Middleware.isStaticAsset (Http.pathname request)) eqn:Hstatic;
    [split; [by left|done]|].
  destruct (JS.eqb (Http.method request) (lit "OPTIONS")) eqn:Hopt;
    [split; [by left|done]|].
  assert (Hnot : Http.method request <> lit "OPTIONS").
  { intros H. rewrite H in Hopt. discriminate Hopt. }
  split; [|intros [H|H]; congruence].
  destruct (Config.enableRateLimiting cfg && Middleware.isSensitive (Http.pathname request)).
  - destruct (RateLimit.checkRateLimit cfg (Middleware.getClientIP request)
                (Http.pathname request) (Middleware.now io)
                (Middleware.rateLimitStore st)) as [r store].
    destruct (negb (RateLimit.allowed r)); [by left|].
    match goal with
    | |- context [Middleware.afterRateLimit ?u ?c ?i ?rq ?resp ?s] =>
        destruct (afterRateLimit_stores u c i rq resp s) as [_ Ht]
    end.
    exact Ht.
  - match goal with
    | |- context [Middleware.afterRateLimit ?u ?c ?i ?rq ?resp ?s] =>
        destruct (afterRateLimit_stores u c i rq resp s) as [_ Ht]
    end.
    exact Ht.
Qed.

(** A preflight request for the login page while three tokens are
    active. *)
Lemma onRequest_csrf_token_set_witness :
  let u := Csrf.sampleUuid in
  let request :=
    {| Http.method := lit "OPTIONS"; Http.pathname := lit "/login";
       Http.csrfTokenParam := Some (u 1%nat);
       Http.headers := ∅; Http.formData := None |} in
  let io :=
    {| Middleware.next := {| Http.status := 200; Http.responseHeaders := ∅;
                             Http.body := Http.Page 0 |};
       Middleware.now := 2000; Middleware.nowAfter := 2000;
       Middleware.randomUUID := u 0%nat |} in
  let st := {| Middleware.rateLimitStore := ∅;
               Middleware.csrfTokens := [u 1%nat; u 2%nat; u 3%nat] |} in
  Middleware.csrfTokens
    (snd (Middleware.onRequest Origin.whatwgOrigin
            (Config.config Config.unsetEnv) io request st))
  = [u 1%nat; u 2%nat; u 3%nat].
Proof.
  intros u request io st.
  apply (proj2 (onRequest_csrf_token_set Origin.whatwgOrigin
                  (Config.config Config.unsetEnv) io request st)).
  right. reflexivity.
Defined.

(** ** The answer to a rate-limited request *)

Lemma ceilDiv1000_spec (x : Z) :
  exists q, ceilDiv1000 (Some x) = Some q /\ 1000 * (q - 1) < x <= 1000 * q.
Proof.
  exists (- ((- x) / 1000)). split; [reflexivity|].
  pose proof (Z.div_mod (- x) 1000 ltac:(lia)) as Hdm.
  pose proof (Z.mod_pos_bound (- x) 1000 ltac:(lia)) as Hb. lia.
Qed.

(** X9. A request for a sensitive path, from a client whose entry is at
    the quota and whose window has not ended, gets the status 429 with the
    JSON error body; the stores stay as they are (no token is used or
    issued); [Retry-After] and the [retryAfter] of the body are the number
    of seconds to the reset time, rounded up, [X-RateLimit-Limit] is the
    quota, [X-RateLimit-Remaining] is 0 and [X-RateLimit-Reset] is the
    reset time.  (At the very millisecond of the reset time the request is
    still refused, and [Retry-After] is 0.) *)
Theorem onRequest_rate_limited :
  forall (urlOrigin : jsstring -> option jsstring) (cfg : Config.t)
         (io : Middleware.Inputs) (request : Http.Request)
         (st : Middleware.Stores) (maxAttempts c r : Z),
    Middleware.isStaticAsset (Http.pathname request) = false ->
    Http.method request <> lit "OPTIONS" ->
    Config.enableRateLimiting cfg = true ->
    Middleware.isSensitive (Http.pathname request) = true ->
    Config.loginAttempts cfg = Some maxAttempts ->
    Middleware.rateLimitStore st
      !! RateLimit.key (Middleware.getClientIP request) (Http.pathname request)
      = Some {| RateLimit.count := c; RateLimit.resetTime := Some r |} ->
    Middleware.now io <= r ->
    maxAttempts <= c ->
    exists (out : Middleware.Outcome) (seconds : Z),
      Middleware.onRequest urlOrigin cfg io request st = (Normal out, st)
      /\ 1000 * (seconds - 1) < r - Middleware.nowAfter io <= 1000 * seconds
      /\ Http.status (Middleware.response out) = 429
      /\ Http.body (Middleware.response out) =
           Http.Json {| Http.error := lit "Too many requests";
                        Http.message :=
                          lit "Rate limit exceeded. Please try again later.";
                        Http.retryAfter := Some (Some seconds) |}
      /\ Http.responseHeaders (Middleware.response out) !! lit "retry-after"
         = Some (numToString (Some seconds))
      /\ Http.responseHeaders (Middleware.response out) !! lit "x-ratelimit-limit"
         = Some (numToString (Some maxAttempts))
      /\ Http.responseHeaders (Middleware.response out)
           !! lit "x-ratelimit-remaining" = Some (lit "0")
      /\ Http.responseHeaders (Middleware.response out) !! lit "x-ratelimit-reset"
         = Some (numToString (Some r))
      /\ Middleware.sanitizedForm out = None.
Proof.
  intros urlOrigin cfg io request st m c r Hstatic Hopt Hen Hsens Hm Hk Hnow Hc.
  destruct (ceilDiv1000_spec (r - Middleware.nowAfter io)) as (q & Hq & Hbound).
  unfold Middleware.onRequest. rewrite Hstatic, Hen, Hsens.
  rewrite (checkRateLimit_refused cfg m Hm _ _ _ _ c r Hk Hnow Hc).
  assert (Hoptb : JS.eqb (Http.method request) (lit "OPTIONS") = false).
  { unfold JS.eqb. by apply bool_decide_eq_false. }
  rewrite Hoptb.
  cbn [andb negb RateLimit.allowed RateLimit.resultResetTime default id num_add].
  replace (r + - Middleware.nowAfter io) with
    (r - Middleware.nowAfter io) by lia.
  rewrite Hq, Hm. destruct st as [store tokens]. cbn [Middleware.rateLimitStore Middleware.csrfTokens].
  eexists _, q. split; [reflexivity|]. split; [exact Hbound|].
  cbn [Middleware.response Middleware.sanitizedForm Http.jsonResponse
         Http.status Http.body Http.responseHeaders].
  split; [reflexivity|]. split; [reflexivity|].
  repeat split;
    (rewrite lookup_jsonHeaders_other by by_computation;
     apply lookup_setAll_member; [by_computation|];
     repeat first [apply list_elem_of_here | apply list_elem_of_further]).
Qed.

(** The sixth [POST /login] of a client, 1.5 seconds before the end of
    its window. *)
Lemma onRequest_rate_limited_witness :
  let request :=
    {| Http.method := lit "POST"; Http.pathname := lit "/login";
       Http.csrfTokenParam := None;
       Http.headers := {[ lit "x-real-ip" := lit "198.51.100.4" ]};
       Http.formData := None |} in
  let io :=
    {| Middleware.next := {| Http.status := 200; Http.responseHeaders := ∅;
                             Http.body := Http.Page 0 |};
       Middleware.now := 299500; Middleware.nowAfter := 299500;
       Middleware.randomUUID := Csrf.sampleUuid 0%nat |} in
  let st :=
    {| Middleware.rateLimitStore :=
         {[ RateLimit.key (lit "198.51.100.4") (lit "/login") :=
              {| RateLimit.count := 5; RateLimit.resetTime := Some 301000 |} ]};
       Middleware.csrfTokens := [] |} in
  exists (out : Middleware.Outcome),
    Middleware.onRequest Origin.whatwgOrigin (Config.config Config.unsetEnv)
      io request st = (Normal out, st)
    /\ Http.status (Middleware.response out) = 429
    /\ Http.responseHeaders (Middleware.response out) !! lit "retry-after"
       = Some (lit "2").
Proof.
  intros request io st.
  destruct (onRequest_rate_limited Origin.whatwgOrigin
              (Config.config Config.unsetEnv) io request st 5 5 301000)
    as (out & seconds & Hrun & Hsec & Hstatus & _ & Hretry & _);
    [vm_compute; reflexivity | discriminate | reflexivity
    | vm_compute; reflexivity | reflexivity | vm_compute; reflexivity
    | cbn; lia | lia |].
  exists out. split; [exact Hrun|]. split; [exact Hstatus|].
  rewrite Hretry. cbn in Hsec.
  assert (seconds = 2) as -> by lia. reflexivity.
Defined.

(** ** The sanitization of form posts *)

Lemma sanitizeInput_clean (s : jsstring) (c : N) :
  c ∈ Sanitizer.sanitizeInput s -> c <> 60%N /\ c <> 62%N.
Proof.
  unfold Sanitizer.sanitizeInput, slice0.
  rewrite replace_angleBrackets, replace_javascript, replace_eventHandler.
  intros H%elem_of_take_full%elem_of_trim.
  unfold Policy.stripHandlers, Policy.stripJavascript in H.
  apply elem_of_removeEvery, elem_of_removeEvery in H.
  apply (list_elem_of_filter (fun c => c ≠ 60%N ∧ c ≠ 62%N)) in H. tauto.
Qed.

Section FormSanitization.
Import Http Middleware.

Variable urlOrigin : jsstring -> option jsstring.

Lemma finish_sanitizedForm (cfg : Config.t) (io : Inputs) (request : Request)
    (resp : Response) (st : Stores) (form : list (jsstring * FormValue)) :
  sanitizedForm (fst (finish cfg io request resp st)) = Some form ->
  method request = lit "POST"
  /\ exists entries,
       formData request = Some entries /\ form = map sanitizeEntry entries.
Proof.
  unfold finish.
  destruct (JS.eqb (method request) (lit "POST")) eqn:Hpost; cbn [andb].
  - apply bool_decide_eq_true in Hpost.
    destruct (headers request !! lit "content-type") as [ct|];
      [destruct (includes (lit "application/x-www-form-urlencoded") ct)|];
      destruct (formData request) as [entries|];
      repeat match goal with
             | |- context [if ?b then _ else _] => destruct b
             | |- context [let '(_, _) := ?p in _] => destruct p
             end;
      cbn [fst sanitizedForm]; intros [= <-] || intros [=];
      (split; [done|]); by exists entries.
  - repeat match goal with
           | |- context [if ?b then _ else _] => destruct b
           | |- context [let '(_, _) := ?p in _] => destruct p
           end; cbn [fst sanitizedForm]; intros [=].
Qed.

Lemma afterRateLimit_sanitizedForm (cfg : Config.t) (io : Inputs)
    (request : Request) (resp : Response) (st st' : Stores) (out : Outcome)
    (form : list (jsstring * FormValue)) :
  afterRateLimit urlOrigin cfg io request resp st = (Normal out, st') ->
  sanitizedForm out = Some form ->
  method request = lit "POST"
  /\ exists entries,
       formData request = Some entries /\ form = map sanitizeEntry entries.
Proof.
  intros Hrun Hform. unfold afterRateLimit in Hrun.
  match type of Hrun with
  | (let '(passed, st) := ?check in _) = _ =>
      destruct check as [passed st1]
  end.
  destruct (negb passed); [injection Hrun as <- _; discriminate Hform|].
  destruct (Origin.validateOrigin urlOrigin cfg request) as [[|]|];
    [|injection Hrun as <- _; discriminate Hform|discriminate Hrun].
  pose proof (finish_sanitizedForm cfg io request resp st1 form) as Hf.
  destruct (finish cfg io request resp st1) as [o st2].
  injection Hrun as <- _. by apply Hf.
Qed.

End FormSanitization.

(** X10. Whenever [onRequest] puts sanitized form data in the place of
    the request's, the request is a [POST] whose form data could be
    parsed, and the new data are the old entries, in their order and under
    their keys, with every text value passed through [sanitizeInput] and
    every file left as it is; so no text value holds [<] or [>], and none
    is longer than 10,000 characters.  (When the form data cannot be
    parsed, nothing is put in their place.) *)
Theorem onRequest_sanitizes_form_entries :
  forall (urlOrigin : jsstring -> option jsstring) (cfg : Config.t)
         (io : Middleware.Inputs) (request : Http.Request)
         (st st' : Middleware.Stores) (out : Middleware.Outcome)
         (form : list (jsstring * Http.FormValue)),
    Middleware.onRequest urlOrigin cfg io request st = (Normal out, st') ->
    Middleware.sanitizedForm out = Some form ->
    Http.method request = lit "POST"
    /\ exists entries,
         Http.formData request = Some entries
         /\ form = map Middleware.sanitizeEntry entries
         /\ map fst form = map fst entries
         /\ Forall2 (fun new old =>
                       match snd old with
                       | Http.Text v =>
                           snd new = Http.Text (Sanitizer.sanitizeInput v)
                           /\ (forall c, c ∈ Sanitizer.sanitizeInput v ->
                                         c <> 60%N /\ c <> 62%N)
                           /\ Z.of_nat (length (Sanitizer.sanitizeInput v)) <= 10000
                       | Http.File f => snd new = Http.File f
                       end) form entries.
Proof.
  intros urlOrigin cfg io request st st' out form Hrun Hform.
  assert (Hmain : Http.method request = lit "POST"
                  /\ exists entries,
                       Http.formData request = Some entries
                       /\ form = map Middleware.sanitizeEntry entries).
  { unfold Middleware.onRequest in Hrun.
    destruct (Middleware.isStaticAsset (Http.pathname request));
      [injection Hrun as <- _; discriminate Hform|].
    destruct (JS.eqb (Http.method request) (lit "OPTIONS"));
      [injection Hrun as <- _; discriminate Hform|].
    destruct (Config.enableRateLimiting cfg
              && Middleware.isSensitive (Http.pathname request)).
    - destruct (RateLimit.checkRateLimit cfg (Middleware.getClientIP request)
                  (Http.pathname request) (Middleware.now io)
                  (Middleware.rateLimitStore st)) as [r store].
      destruct (negb (RateLimit.allowed r));
        [injection Hrun as <- _; discriminate Hform|].
      exact (afterRateLimit_sanitizedForm urlOrigin _ _ _ _ _ _ _ _ Hrun Hform).
    - exact (afterRateLimit_sanitizedForm urlOrigin _ _ _ _ _ _ _ _ Hrun Hform). }
  destruct Hmain as [Hpost (entries & Hdata & ->)].
  split; [exact Hpost|]. exists entries. split; [exact Hdata|].
  split; [reflexivity|]. split.
  - rewrite map_map. apply map_ext. intros [k [v|f]]; reflexivity.
  - clear. induction entries as [|[k [v|f]] entries IH]; cbn [map].
    + constructor.
    + constructor; [|exact IH]. cbn. split; [reflexivity|]. split.
      * intros c. apply sanitizeInput_clean.
      * unfold Sanitizer.sanitizeInput, slice0. rewrite length_take. lia.
    + constructor; [reflexivity|exact IH].
Qed.

(** A contact form with a name in bold and an attachment. *)
Lemma onRequest_sanitizes_form_entries_witness :
  let request :=
    {| Http.method := lit "POST"; Http.pathname := lit "/contact";
       Http.csrfTokenParam := None;
       Http.headers :=
         {[ lit "content-type" := lit "application/x-www-form-urlencoded" ]};
       Http.formData :=
         Some [(lit "name", Http.Text (lit "<b>Ann</b>"));
               (lit "photo", Http.File 7)] |} in
  let io :=
    {| Middleware.next := {| Http.status := 200; Http.responseHeaders := ∅;
                             Http.body := Http.Page 0 |};
       Middleware.now := 1000; Middleware.nowAfter := 1000;
       Middleware.randomUUID := Csrf.sampleUuid 0%nat |} in
  let st := {| Middleware.rateLimitStore := ∅; Middleware.csrfTokens := [] |} in
  match Middleware.onRequest Origin.whatwgOrigin
          (Config.config Config.unsetEnv) io request st with
  | (Normal out, _) =>
      Middleware.sanitizedForm out =
        Some [(lit "name", Http.Text (lit "bAnn/b")); (lit "photo", Http.File 7)]
  | (ThrowTypeError, _) => False
  end.
Proof.
  intros request io st.
  destruct (Middleware.onRequest Origin.whatwgOrigin
              (Config.config Config.unsetEnv) io request st)
    as [[out|] st'] eqn:Hrun.
  - destruct (Middleware.sanitizedForm out) as [form|] eqn:Hform.
    + destruct (onRequest_sanitizes_form_entries Origin.whatwgOrigin
                  (Config.config Config.unsetEnv) io request st st' out form
                  Hrun Hform) as (_ & entries & [= <-] & -> & _).
      vm_compute. reflexivity.
    + vm_compute in Hrun. injection Hrun as <- _. discriminate Hform.
  - vm_compute in Hrun. discriminate Hrun.
Defined.

(** ** The sanitizers of the validation module *)

Section MoreSanitizers.
Import Regex.

Lemma removeEvery_nothing (occurrence : jsstring -> option nat) (s : jsstring) :
  (forall pre post : jsstring, s = pre ++ post -> occurrence post = None) ->
  Policy.removeEvery occurrence 0 s = s.
Proof.
  induction s as [|c s IH]; intros Hnone; [reflexivity|].
  cbn [Policy.removeEvery]. rewrite (Hnone [] (c :: s) eq_refl).
  f_equal. apply IH. intros pre post ->. by apply (Hnone (c :: pre)).
Qed.

Lemma trim_length (s : jsstring) : (length (trim s) <= length s)%nat.
Proof.
  assert (Hstart : forall l : jsstring, (length (trimStart l) <= length l)%nat).
  { induction l as [|c l IH]; [done|]. cbn [trimStart].
    destruct (isWhiteSpace c); simpl; lia. }
  unfold trim, trimEnd. rewrite length_rev.
  etrans; [apply Hstart|]. rewrite length_rev. apply Hstart.
Qed.

(** A global removal of the characters of a class is a filter. *)
Lemma removeFrom_classAt (member : N -> bool) (s : jsstring) :
  removeFrom (classAt member) 0 s = filter (fun c => member c = false) s.
Proof.
  induction s as [|c s IH]; [reflexivity|].
  cbn [removeFrom classAt]. rewrite filter_cons.
  destruct (member c) eqn:Hc.
  - rewrite decide_False by congruence. exact IH.
  - rewrite decide_True by done. by rewrite IH.
Qed.

(** A global replacement of one character by a text without it. *)
Lemma replaceAll_char (x : N) (by_ : jsstring) (s : jsstring) :
  replaceAll false (Atom (Chr x)) by_ s =
    flat_map (fun c => if (x =? c)%N then by_ else [c]) s.
Proof.
  unfold replaceAll. induction s as [|c s IH]; [reflexivity|].
  cbn [substituteFrom flat_map]. unfold execAt at 1.
  cbn [matchFrom atomMatches canonicalize].
  destruct (x =? c)%N.
  - replace (length (c :: s) - length s)%nat with 1%nat by (simpl; lia).
    by rewrite IH.
  - by rewrite IH.
Qed.

Lemma flat_map_flat_map (f g : N -> jsstring) (s : jsstring) :
  flat_map f (flat_map g s) = flat_map (fun c => flat_map f (g c)) s.
Proof.
  induction s as [|c s IH]; [reflexivity|].
  cbn [flat_map]. by rewrite flat_map_app, IH.
Qed.

Lemma sanitizeHTML_escape (s : jsstring) :
  Sanitizer.sanitizeHTML s = Policy.escape s.
Proof.
  unfold Sanitizer.sanitizeHTML, Policy.escape.
  rewrite !replaceAll_char, !flat_map_flat_map.
  apply flat_map_ext. intros c. unfold Policy.entity.
  destruct (N.eqb_spec c 60) as [->|H60]; [reflexivity|].
  destruct (N.eqb_spec c 62) as [->|H62]; [reflexivity|].
  destruct (N.eqb_spec c 34) as [->|H34]; [reflexivity|].
  destruct (N.eqb_spec c 39) as [->|H39]; [reflexivity|].
  destruct (N.eqb_spec c 47) as [->|H47]; [reflexivity|].
  cbn [flat_map app].
  repeat match goal with
         | |- context [(?a =? c)%N] =>
             destruct (N.eqb_spec a c); [congruence|]; cbn [flat_map app]
         end.
  reflexivity.
Qed.

Lemma entity_safe (c d : N) :
  d ∈ Policy.entity c ->
  d <> 60%N /\ d <> 62%N /\ d <> 34%N /\ d <> 39%N /\ d <> 47%N.
Proof.
  unfold Policy.entity.
  repeat match goal with
         | |- context [(c =? ?a)%N] => destruct (N.eqb_spec c a)
         end.
  1-5: intros H; revert d H; apply Forall_forall; by_computation.
  intros ->%list_elem_of_singleton. repeat split; congruence.
Qed.

End MoreSanitizers.

(** X11. [Validator.sanitizeString] is the policy of [sanitizeInput] with
    the trim first: trim, strip angle brackets, strip [javascript:], strip
    event handlers, truncate.  Its result never holds [<] or [>] and is at
    most 10,000 characters long; so the [sanitizedValue] that
    [validateField] returns for a text under a rule that sanitizes with it
    is free of angle brackets, whether the field is valid or not. *)
Theorem sanitizeString_result :
  forall s : jsstring,
    Sanitizer.sanitizeString s =
      Policy.truncate
        (Policy.stripHandlers
           (Policy.stripJavascript (Policy.stripAngleBrackets (trim s))))
    /\ (forall c : N, c ∈ Sanitizer.sanitizeString s -> c <> 60%N /\ c <> 62%N)
    /\ Z.of_nat (length (Sanitizer.sanitizeString s)) <= 10000
    /\ (forall rules : Validator.ValidationRule,
          Validator.sanitize rules = Some Sanitizer.sanitizeString ->
          exists result,
            Validator.validateField (Validator.VStr s) rules = Some result
            /\ Validator.sanitizedValue result =
                 Validator.VStr (Sanitizer.sanitizeString s)).
Proof.
  intros s.
  assert (Heq : Sanitizer.sanitizeString s =
                Policy.truncate
                  (Policy.stripHandlers
                     (Policy.stripJavascript
                        (Policy.stripAngleBrackets (trim s))))).
  { unfold Sanitizer.sanitizeString, Policy.truncate, slice0.
    by rewrite replace_angleBrackets, replace_javascript, replace_eventHandler. }
  split; [exact Heq|]. split; [|split].
  - intros c. rewrite Heq. unfold Policy.truncate.
    intros H%elem_of_take_full.
    unfold Policy.stripHandlers, Policy.stripJavascript in H.
    apply elem_of_removeEvery, elem_of_removeEvery in H.
    apply (list_elem_of_filter (fun c => c ≠ 60%N ∧ c ≠ 62%N)) in H. tauto.
  - unfold Sanitizer.sanitizeString, slice0. rewrite length_take. lia.
  - intros rules Hs.
    destruct (validateField_total (Validator.VStr s) rules) as (r & Hr & Hv);
      [discriminate|].
    exists r. split; [exact Hr|]. rewrite Hv. unfold Validator.sanitized.
    by rewrite Hs.
Qed.

(** A chatbot name that is too short: it is rejected, and handed back
    without its brackets. *)
Lemma sanitizeString_result_witness :
  exists result,
    Validator.validateField (Validator.VStr (lit " <b> "))
      {| Validator.required := Some true; Validator.minLength := Some 3;
         Validator.maxLength := Some 100; Validator.pattern := None;
         Validator.custom := None;
         Validator.sanitize := Some Sanitizer.sanitizeString |} = Some result
    /\ Validator.sanitizedValue result = Validator.VStr (lit "b").
Proof.
  destruct (proj2 (proj2 (proj2 (sanitizeString_result (lit " <b> "))))
              {| Validator.required := Some true; Validator.minLength := Some 3;
                 Validator.maxLength := Some 100; Validator.pattern := None;
                 Validator.custom := None;
                 Validator.sanitize := Some Sanitizer.sanitizeString |} eq_refl)
    as (result & Hr & Hv).
  exists result. split; [exact Hr|]. rewrite Hv. vm_compute. reflexivity.
Defined.

(** X12. [sanitizeInput] leaves a clean text as it is: a text of at most
    10,000 characters without [<] and [>], without white space at its
    ends, in which no [javascript:] and no event handler begins, comes
    back unchanged. *)
Theorem sanitizeInput_keeps_clean_text :
  forall s : jsstring,
    Forall (fun c => c <> 60%N /\ c <> 62%N) s ->
    (forall pre post : jsstring,
       s = pre ++ post ->
       Policy.javascriptAt post = None /\ Policy.handlerAt post = None) ->
    trim s = s ->
    Z.of_nat (length s) <= 10000 ->
    Sanitizer.sanitizeInput s = s.
Proof.
  intros s Hangle Hnone Htrim Hlen.
  unfold Sanitizer.sanitizeInput, slice0.
  rewrite replace_angleBrackets, replace_javascript, replace_eventHandler.
  assert (H1 : Policy.stripAngleBrackets s = s).
  { unfold Policy.stripAngleBrackets. clear -Hangle.
    induction Hangle as [|c s Hc _ IH]; [reflexivity|].
    rewrite filter_cons_True by done. by rewrite IH. }
  rewrite H1. unfold Policy.stripJavascript, Policy.stripHandlers.
  rewrite (removeEvery_nothing Policy.javascriptAt s)
    by (intros pre post Hs; by apply (Hnone pre post)).
  rewrite (removeEvery_nothing Policy.handlerAt s)
    by (intros pre post Hs; by apply (Hnone pre post)).
  rewrite Htrim. apply take_ge. lia.
Qed.

Lemma tails_of_app (pre post : jsstring) :
  post ∈ Policy.tails_of (pre ++ post).
Proof.
  induction pre as [|c pre IH]; cbn [app Policy.tails_of].
  - destruct post; left.
  - right. exact IH.
Qed.

(** A name with an apostrophe and an accent. *)
Lemma sanitizeInput_keeps_clean_text_witness :
  Sanitizer.sanitizeInput (lit "O'Brien, Se" ++ [225%N] ++ lit "n")
  = lit "O'Brien, Se" ++ [225%N] ++ lit "n".
Proof.
  apply sanitizeInput_keeps_clean_text.
  - by_computation.
  - intros pre post Hs.
    assert (Hpost : post ∈ Policy.tails_of (lit "O'Brien, Se" ++ [225%N] ++ lit "n")).
    { rewrite Hs. apply tails_of_app. }
    clear Hs. revert post Hpost. apply Forall_forall. by_computation.
  - reflexivity.
  - vm_compute. discriminate.
Defined.

(** X13. [Validator.sanitizeHTML] writes each of the characters [<], [>],
    the double quote, the apostrophe and [/] as its entity, character by
    character, though it is made of five replacements in a row; its result
    holds none of the five, and a text without them, also one with an
    ampersand, comes back unchanged. *)
Theorem sanitizeHTML_escapes :
  forall s : jsstring,
    Sanitizer.sanitizeHTML s = Policy.escape s
    /\ (forall d : N,
          d ∈ Sanitizer.sanitizeHTML s ->
          d <> 60%N /\ d <> 62%N /\ d <> 34%N /\ d <> 39%N /\ d <> 47%N)
    /\ (Forall (fun c => c <> 60%N /\ c <> 62%N /\ c <> 34%N /\ c <> 39%N
                         /\ c <> 47%N) s ->
        Sanitizer.sanitizeHTML s = s).
Proof.
  intros s. rewrite sanitizeHTML_escape. split; [reflexivity|]. split.
  - intros d. unfold Policy.escape. rewrite list_elem_of_In, in_flat_map.
    intros (c & _ & Hd%list_elem_of_In). by apply (entity_safe c).
  - unfold Policy.escape. induction 1 as [|c s (H1 & H2 & H3 & H4 & H5) _ IH];
      [reflexivity|].
    cbn [flat_map]. rewrite IH. unfold Policy.entity.
    repeat match goal with
           | |- context [(c =? ?a)%N] =>
               destruct (N.eqb_spec c a); [congruence|]
           end.
    reflexivity.
Qed.

(** A message that holds an ampersand and a question mark only. *)
Lemma sanitizeHTML_escapes_witness :
  Sanitizer.sanitizeHTML (lit "Tom & Ana?") = lit "Tom & Ana?".
Proof.
  apply (proj2 (proj2 (sanitizeHTML_escapes (lit "Tom & Ana?")))).
  by_computation.
Defined.

(** X14. Whatever [toLowerCase] does, the result of
    [Validator.sanitizeEmail] holds word characters, [@], dots and hyphens
    only, so no white space and nothing outside ASCII, and is at most 254
    characters long. *)
Theorem sanitizeEmail_alphabet :
  forall (toLowerCase : jsstring -> jsstring) (email : jsstring),
    Forall (fun c => Regex.isWordChar c = true \/ c = 64%N \/ c = 46%N \/ c = 45%N)
      (Sanitizer.sanitizeEmail toLowerCase email)
    /\ Z.of_nat (length (Sanitizer.sanitizeEmail toLowerCase email)) <= 254.
Proof.
  intros toLowerCase email. unfold Sanitizer.sanitizeEmail, slice0.
  rewrite removeFrom_classAt. split.
  - apply Forall_take. apply Forall_forall. intros c.
    intros [Hc _]%(list_elem_of_filter
                     (fun c => Sanitizer.notEmailChar c = false)).
    unfold Sanitizer.notEmailChar in Hc. apply negb_false_iff in Hc.
    apply orb_prop in Hc as [Hc|Hc];
      [apply orb_prop in Hc as [Hc|Hc];
       [apply orb_prop in Hc as [Hc|Hc]|]|];
      rewrite ?N.eqb_eq in Hc; auto.
  - rewrite length_take. lia.
Qed.

(** ** The checks of [validateField] on a value that is there *)

Section FieldChecks.
Import Validator.

Lemma validateField_present (value : Value) (rules : ValidationRule)
    (s : jsstring) :
  falsy (sanitized rules value) = false ->
  toString (sanitized rules value) = Some s ->
  (isTrue (required rules) = true -> trim s <> []) ->
  validateField value rules =
    Some {| isValid :=
              (length (checkErrors rules (sanitized rules value) s) =? 0)%nat;
            errors := checkErrors rules (sanitized rules value) s;
            sanitizedValue := sanitized rules value |}.
Proof.
  intros Hf Hs Hreq. unfold validateField, checkErrors. rewrite Hf, Hs.
  destruct (isTrue (required rules)) eqn:Hr; cbn -[trim].
  - unfold JS.eqb. rewrite bool_decide_eq_false_2 by auto.
    destruct (nonZero (minLength rules)), (nonZero (maxLength rules)),
      (pattern rules); reflexivity.
  - destruct (nonZero (minLength rules)), (nonZero (maxLength rules)),
      (pattern rules); reflexivity.
Qed.

Lemma checkErrors_length (rules : ValidationRule) (v : Value) (s : jsstring) :
  (length (checkErrors rules v s) <= 4)%nat.
Proof.
  unfold checkErrors. rewrite !length_app.
  repeat match goal with
         | |- context [match ?x with _ => _ end] => destruct x
         end; simpl; lia.
Qed.

Lemma nonZero_Some (o : option Z) (n : Z) :
  nonZero o = Some n <-> o = Some n /\ n <> 0.
Proof.
  unfold nonZero. destruct o as [z|]; [|split; [done|intros [[=] _]]].
  destruct (Z.eqb_spec z 0) as [->|Hz].
  - split; [done|]. intros [[= <-] H]. done.
  - split; [intros [= <-]; done|]. intros [[= <-] _]. done.
Qed.

Lemma checkErrors_nil (rules : ValidationRule) (v : Value) (s : jsstring) :
  checkErrors rules v s = [] <->
    (forall n, minLength rules = Some n -> n <> 0 -> n <= Z.of_nat (length s))
    /\ (forall n, maxLength rules = Some n -> n <> 0 -> Z.of_nat (length s) <= n)
    /\ (forall test, pattern rules = Some test -> test s = true)
    /\ (forall f, custom rules = Some f -> f v = CBool true).
Proof.
  unfold checkErrors. rewrite !app_nil.
  assert (Hmin :
    match nonZero (minLength rules) with
    | Some n => if Z.of_nat (length s) <? n then [msgMinLength n] else []
    | None => []
    end = [] <->
    forall n, minLength rules = Some n -> n <> 0 -> n <= Z.of_nat (length s)).
  { destruct (nonZero (minLength rules)) as [n|] eqn:Hn.
    - apply nonZero_Some in Hn as [Hn Hn0].
      destruct (Z.ltb_spec (Z.of_nat (length s)) n).
      + split; [discriminate|]. intros H'. specialize (H' n Hn Hn0). lia.
      + split; [|done]. intros _ n' Hn' _. congruence.
    - split; [|done]. intros _ n Hn' Hn0.
      assert (nonZero (minLength rules) = Some n) by by apply nonZero_Some.
      congruence. }
  assert (Hmax :
    match nonZero (maxLength rules) with
    | Some n => if n <? Z.of_nat (length s) then [msgMaxLength n] else []
    | None => []
    end = [] <->
    forall n, maxLength rules = Some n -> n <> 0 -> Z.of_nat (length s) <= n).
  { destruct (nonZero (maxLength rules)) as [n|] eqn:Hn.
    - apply nonZero_Some in Hn as [Hn Hn0].
      destruct (Z.ltb_spec n (Z.of_nat (length s))).
      + split; [discriminate|]. intros H'. specialize (H' n Hn Hn0). lia.
      + split; [|done]. intros _ n' Hn' _. congruence.
    - split; [|done]. intros _ n Hn' Hn0.
      assert (nonZero (maxLength rules) = Some n) by by apply nonZero_Some.
      congruence. }
  rewrite Hmin, Hmax.
  assert (Hpat :
    match pattern rules with
    | Some test => if test s then [] else [msgPattern]
    | None => []
    end = [] <-> forall test, pattern rules = Some test -> test s = true).
  { destruct (pattern rules) as [test|].
    - destruct (test s) eqn:Ht.
      + split; [|done]. intros _ test' [= <-]. done.
      + split; [discriminate|]. intros H'. specialize (H' test eq_refl).
        congruence.
    - split; [|done]. intros _ test [=]. }
  assert (Hcus :
    match custom rules with
    | Some f =>
        match f v with
        | CString m => [m]
        | CBool b => if b then [] else [msgCustom]
        end
    | None => []
    end = [] <-> forall f, custom rules = Some f -> f v = CBool true).
  { destruct (custom rules) as [f|].
    - destruct (f v) as [[|]|m] eqn:Hfv.
      + split; [|done]. intros _ f' [= <-]. done.
      + split; [discriminate|]. intros H'. specialize (H' f eq_refl).
        congruence.
      + split; [discriminate|]. intros H'. specialize (H' f eq_refl).
        congruence.
    - split; [|done]. intros _ f [=]. }
  rewrite Hpat, Hcus. reflexivity.
Qed.

End FieldChecks.

(** X15. Every result of [validateField] is consistent: [isValid] is true
    exactly when the list of errors is empty, and at most four errors are
    reported, one for each of the checks [minLength], [maxLength],
    [pattern] and [custom]. *)
Theorem validateField_result_consistent :
  forall (value : Validator.Value) (rules : Validator.ValidationRule)
         (result : Validator.ValidationResult),
    Validator.validateField value rules = Some result ->
    (Validator.isValid result = true <-> Validator.errors result = [])
    /\ (length (Validator.errors result) <= 4)%nat.
Proof.
  intros value rules result Hrun.
  apply validateField_result in Hrun as (errs & Hlen & ->).
  cbn [Validator.isValid Validator.errors]. split; [|exact Hlen].
  rewrite Nat.eqb_eq. apply length_zero_iff_nil.
Qed.

(** A name of two letters under a rule that asks for three and for
    letters from a to f only: two errors. *)
Lemma validateField_result_consistent_witness :
  let rules :=
    {| Validator.required := Some true; Validator.minLength := Some 3;
       Validator.maxLength := None;
       Validator.pattern :=
         Some (forallb (fun c => (97 <=? c) && (c <=? 102))%N);
       Validator.custom := None; Validator.sanitize := None |} in
  let result :=
    {| Validator.isValid := false;
       Validator.errors := [Validator.msgMinLength 3; Validator.msgPattern];
       Validator.sanitizedValue := Validator.VStr (lit "zz") |} in
  (Validator.isValid result = true <-> Validator.errors result = [])
  /\ (length (Validator.errors result) <= 4)%nat.
Proof.
  intros rules result.
  apply (validateField_result_consistent (Validator.VStr (lit "zz")) rules result).
  vm_compute. reflexivity.
Defined.

(** X16. A value that is there (its sanitized form is truthy and, under
    [required], not made of white space only) is valid exactly when its
    text is at least [minLength] and at most [maxLength] characters long,
    where a bound of 0 counts as no bound, the [test] of the pattern
    accepts the text, and the custom validator returns [true]; any string
    that the custom validator returns, the empty one too, makes the value
    invalid.  The text is that of [toString()]; a number is an integer
    that JavaScript prints digit by digit, one of at most 2^53 - 1 in
    size. *)
Theorem validateField_valid_iff :
  forall (value : Validator.Value) (rules : Validator.ValidationRule)
         (s : jsstring),
    Validator.safe value = true ->
    Validator.falsy (Validator.sanitized rules value) = false ->
    Validator.toString (Validator.sanitized rules value) = Some s ->
    (Validator.isTrue (Validator.required rules) = true -> trim s <> []) ->
    exists result,
      Validator.validateField value rules = Some result
      /\ (Validator.isValid result = true <->
          (forall n, Validator.minLength rules = Some n -> n <> 0 ->
                     n <= Z.of_nat (length s))
          /\ (forall n, Validator.maxLength rules = Some n -> n <> 0 ->
                        Z.of_nat (length s) <= n)
          /\ (forall test, Validator.pattern rules = Some test -> test s = true)
          /\ (forall f, Validator.custom rules = Some f ->
                        f (Validator.sanitized rules value) = Validator.CBool true)).
Proof.
  intros value rules s _ Hf Hs Hreq. eexists. split.
  - by apply validateField_present.
  - cbn [Validator.isValid]. rewrite Nat.eqb_eq, length_zero_iff_nil.
    apply checkErrors_nil.
Qed.

(** A description of 600 characters under the rule of the chatbot schema,
    then under the same rule with the bound 0; and the number 123456
    under a rule that allows five characters. *)
Lemma validateField_valid_iff_witness :
  let rule bound :=
    {| Validator.required := Some false; Validator.minLength := None;
       Validator.maxLength := Some bound; Validator.pattern := None;
       Validator.custom := None; Validator.sanitize := None |} in
  let value := Validator.VStr (repeat 120%N 600) in
  (exists result, Validator.validateField value (rule 500) = Some result
                  /\ Validator.isValid result <> true)
  /\ (exists result, Validator.validateField value (rule 0) = Some result
                     /\ Validator.isValid result = true)
  /\ (exists result,
        Validator.validateField (Validator.VNum 123456) (rule 5) = Some result
        /\ Validator.isValid result <> true).
Proof.
  intros rule value. split; [|split].
  - destruct (validateField_valid_iff value (rule 500) (repeat 120%N 600))
      as (result & Hrun & Hvalid);
      [reflexivity|reflexivity|reflexivity|discriminate|].
    exists result. split; [exact Hrun|]. rewrite Hvalid.
    intros (_ & Hmax & _). specialize (Hmax 500 eq_refl ltac:(lia)).
    rewrite repeat_length in Hmax. lia.
  - destruct (validateField_valid_iff value (rule 0) (repeat 120%N 600))
      as (result & Hrun & Hvalid);
      [reflexivity|reflexivity|reflexivity|discriminate|].
    exists result. split; [exact Hrun|]. apply Hvalid.
    repeat split; intros ? [= <-]; try done.
  - destruct (validateField_valid_iff (Validator.VNum 123456) (rule 5)
                (lit "123456"))
      as (result & Hrun & Hvalid);
      [reflexivity|reflexivity|reflexivity|discriminate|].
    exists result. split; [exact Hrun|]. rewrite Hvalid.
    intros (_ & Hmax & _). specialize (Hmax 5 eq_refl ltac:(lia)).
    vm_compute in Hmax. by apply Hmax.
Defined.

(** ** The patterns of the validation helpers *)

Section Patterns.
Import Regex.

(** What a greedy run with backtracking can match: the run succeeds
    exactly when the text splits into a non-empty piece of characters of
    the class and a rest that the continuation accepts. *)
Lemma plusFrom_succeeds (ok : N -> bool) (k : jsstring -> option jsstring)
    (s : jsstring) :
  is_Some (plusFrom ok s k) <->
  exists pre post,
    s = pre ++ post /\ pre <> [] /\ Forall (fun c => ok c = true) pre
    /\ is_Some (k post).
Proof.
  induction s as [|c s IH]; cbn [plusFrom].
  - split; [intros [? [=]]|]. intros (pre & post & Hs & Hne & _).
    destruct pre; [done|discriminate Hs].
  - destruct (ok c) eqn:Hc.
    + split.
      * intros Hsome.
        destruct (plusFrom ok s k) as [r|] eqn:Hrun.
        -- destruct (proj1 IH (mk_is_Some _ _ eq_refl))
             as (pre & post & -> & Hne & Hall & Hk).
           exists (c :: pre), post. repeat split; [done| |done].
           by constructor.
        -- exists [c], s. repeat split; [done| |done].
           by repeat constructor.
      * intros (pre & post & Hs & Hne & Hall & Hk).
        destruct pre as [|c' pre]; [done|]. injection Hs as <- ->.
        apply Forall_cons in Hall as [_ Hall].
        destruct pre as [|c'' pre].
        -- cbn [app]. destruct (plusFrom ok post k); [by eexists|exact Hk].
        -- assert (Hrun : is_Some (plusFrom ok ((c'' :: pre) ++ post) k)).
           { apply IH. exists (c'' :: pre), post. repeat split; done. }
           destruct Hrun as [r ->]. by eexists.
    + split; [intros [? [=]]|]. intros (pre & post & Hs & Hne & Hall & _).
      destruct pre as [|c' pre]; [done|]. injection Hs as <- ->.
      apply Forall_cons in Hall as [Hc' _]. congruence.
Qed.

Lemma atEnd_succeeds (s : jsstring) : is_Some (atEnd s) <-> s = [].
Proof.
  destruct s as [|c s]; cbn.
  - split; [done|]. intros _. by eexists.
  - split; [intros [? [=]]|discriminate].
Qed.

(** The continuations of the e-mail pattern after a run: the sign [@],
    then the dot. *)
Lemma then_at_sign (k : jsstring -> option jsstring) (s : jsstring) :
  is_Some (match s with 64%N :: s' => k s' | _ => None end) <->
  exists s', s = 64%N :: s' /\ is_Some (k s').
Proof.
  split.
  - intros H. destruct s as [|c s']; [by destruct H as [? [=]]|].
    destruct c as [|p]; [by destruct H as [? [=]]|].
    do 7 (destruct p as [p|p|]; try (by destruct H as [? [=]])).
    by exists s'.
  - intros (s' & -> & H). exact H.
Qed.

Lemma then_dot (k : jsstring -> option jsstring) (s : jsstring) :
  is_Some (match s with 46%N :: s' => k s' | _ => None end) <->
  exists s', s = 46%N :: s' /\ is_Some (k s').
Proof.
  split.
  - intros H. destruct s as [|c s']; [by destruct H as [? [=]]|].
    destruct c as [|p]; [by destruct H as [? [=]]|].
    do 6 (destruct p as [p|p|]; try (by destruct H as [? [=]])).
    by exists s'.
  - intros (s' & -> & H). exact H.
Qed.

Lemma validateEmail_is_Some (s : jsstring) :
  ConfigHelpers.validateEmail s = true <-> is_Some (ConfigHelpers.emailPattern s).
Proof.
  unfold ConfigHelpers.validateEmail.
  destruct (ConfigHelpers.emailPattern s) as [r|].
  - split; [intros _; by eexists|done].
  - split; [discriminate|intros [? [=]]].
Qed.

End Patterns.

(** X17. [validateEmail] accepts exactly the texts of the form
    [local@domain.tld] in which the three parts are not empty and hold
    neither white space nor [@] (the domain and the last part may hold
    further dots).  So an accepted address has exactly one [@] and no
    white space. *)
Theorem validateEmail_accepts :
  forall s : jsstring,
    ConfigHelpers.validateEmail s = true <->
    exists local domain tld,
      s = local ++ [64%N] ++ domain ++ [46%N] ++ tld
      /\ local <> [] /\ domain <> [] /\ tld <> []
      /\ Forall (fun c => isWhiteSpace c = false /\ c <> 64%N)
           (local ++ domain ++ tld).
Proof.
  intros s.
  assert (Hclass : forall l : jsstring,
             Forall (fun c => ConfigHelpers.notSpaceNorAt c = true) l <->
             Forall (fun c => isWhiteSpace c = false /\ c <> 64%N) l).
  { intros l. apply Forall_iff. intros c. unfold ConfigHelpers.notSpaceNorAt.
    rewrite negb_true_iff, orb_false_iff, N.eqb_neq. reflexivity. }
  rewrite validateEmail_is_Some. unfold ConfigHelpers.emailPattern.
  rewrite plusFrom_succeeds. split.
  - intros (local & rest1 & -> & Hl & Hlall & Hk1).
    apply then_at_sign in Hk1 as (rest1' & -> & Hk1).
    apply plusFrom_succeeds in Hk1
      as (domain & rest2 & -> & Hd & Hdall & Hk2).
    apply then_dot in Hk2 as (rest2' & -> & Hk2).
    apply plusFrom_succeeds in Hk2 as (tld & rest3 & -> & Ht & Htall & Hk3).
    apply atEnd_succeeds in Hk3 as ->. rewrite app_nil_r.
    exists local, domain, tld. split; [reflexivity|].
    split; [done|]. split; [done|]. split; [done|].
    rewrite !Forall_app, <- !Hclass. done.
  - intros (local & domain & tld & -> & Hl & Hd & Ht & Hall).
    rewrite !Forall_app, <- !Hclass in Hall. destruct Hall as (Hla & Hda & Hta).
    exists local, ([64%N] ++ domain ++ [46%N] ++ tld).
    split; [done|]. split; [done|]. split; [done|].
    cbn [app]. apply plusFrom_succeeds.
    exists domain, ([46%N] ++ tld).
    split; [done|]. split; [done|]. split; [done|].
    cbn [app]. apply plusFrom_succeeds. exists tld, []. rewrite app_nil_r.
    split; [done|]. split; [done|]. split; [done|].
    by apply atEnd_succeeds.
Qed.

(** An address with a subdomain. *)
Lemma validateEmail_accepts_witness :
  ConfigHelpers.validateEmail (lit "ana@mail.example.com") = true.
Proof.
  apply validateEmail_accepts.
  exists (lit "ana"), (lit "mail"), (lit "example.com").
  split; [reflexivity|]. split; [discriminate|]. split; [discriminate|].
  split; [discriminate|]. by_computation.
Defined.

Section PasswordRules.
Import Regex.

Lemma execAt_oneOf (cs : list N) (s : jsstring) :
  execAt false (Atom (OneOf cs)) s =
    match s with
    | c :: _ => if existsb (fun p => (p =? c)%N) cs then Some 1%nat else None
    | [] => None
    end.
Proof.
  unfold execAt. destruct s as [|c s]; [reflexivity|].
  cbn [matchFrom atomMatches canonicalize].
  destruct (existsb (fun p => (p =? c)%N) cs); [|reflexivity].
  f_equal. simpl. lia.
Qed.

Lemma test_oneOf (cs : list N) (s : jsstring) :
  test false (Atom (OneOf cs)) s = true <->
  exists c, c ∈ s /\ c ∈ cs.
Proof.
  induction s as [|c s IH]; cbn [test]; rewrite execAt_oneOf.
  - split; [discriminate|]. intros (c & Hc%elem_of_nil & _). done.
  - destruct (existsb (fun p => (p =? c)%N) cs) eqn:Hex.
    + split; [|done]. intros _. exists c. split; [left|].
      apply existsb_exists in Hex as (p & Hp & ->%N.eqb_eq).
      by apply list_elem_of_In.
    + rewrite IH. split.
      * intros (d & Hd & Hcs). exists d. split; [by right|done].
      * intros (d & [->|Hd]%elem_of_cons & Hcs); [|by exists d].
        exfalso. apply not_true_iff_false in Hex. apply Hex.
        apply existsb_exists. exists c. split; [by apply list_elem_of_In|].
        apply N.eqb_refl.
Qed.

Lemma elem_of_range (first : N) (n : nat) (c : N) :
  c ∈ range first n <-> (first <= c < first + N.of_nat n)%N.
Proof.
  unfold range. rewrite list_elem_of_fmap. split.
  - intros (i & -> & Hi%list_elem_of_In%in_seq). lia.
  - intros Hc. exists (N.to_nat (c - first)). split; [lia|].
    apply list_elem_of_In, in_seq. lia.
Qed.

Lemma test_range (first : N) (n : nat) (s : jsstring) :
  test false (Atom (OneOf (range first n))) s = true <->
  exists c, c ∈ s /\ (first <= c < first + N.of_nat n)%N.
Proof.
  rewrite test_oneOf. split; intros (c & Hc & Hr); exists c;
    (split; [done|]); by apply elem_of_range.
Qed.

(** A literal text matched case by case. *)
Lemma matchFrom_text_exact (p : jsstring) : forall (s : jsstring) k,
  matchFrom false (text p) s k =
    if startsWith p s then k (drop (length p) s) else None.
Proof.
  induction p as [|a p IH]; intros s k; [reflexivity|].
  cbn [text foldr matchFrom]. destruct s as [|b s]; [reflexivity|].
  cbn [startsWith atomMatches canonicalize]. fold (text p).
  destruct (a =? b)%N; [|reflexivity]. rewrite IH. reflexivity.
Qed.

Lemma testAtStart_text_exact (p s : jsstring) :
  testAtStart false (text p) s = startsWith p s.
Proof.
  unfold testAtStart, execAt. rewrite matchFrom_text_exact.
  by destruct (startsWith p s).
Qed.

Lemma testAtStart_text_anyCase (p s : jsstring) :
  testAtStart true (text p) s = Policy.startsWithAnyCase p s.
Proof.
  unfold testAtStart. rewrite execAt_text.
  by destruct (Policy.startsWithAnyCase p s).
Qed.

Lemma hasRepeatedRun_spec (s : jsstring) :
  Validation.hasRepeatedRun s = true <->
  exists pre c post,
    s = pre ++ c :: c :: c :: c :: post /\ isLineTerminator c = false.
Proof.
  induction s as [|a s IH]; cbn [Validation.hasRepeatedRun].
  - split; [discriminate|]. intros (pre & c & post & Hs & _).
    destruct pre; discriminate Hs.
  - rewrite orb_true_iff, IH. split.
    + intros [Hhere|(pre & c & post & -> & Hc)].
      * destruct s as [|b [|c [|d post]]]; try discriminate Hhere.
        apply andb_prop in Hhere as [[[Ha ->%N.eqb_eq]%andb_prop
                                        ->%N.eqb_eq]%andb_prop ->%N.eqb_eq].
        exists [], d, post. split; [reflexivity|]. by apply negb_true_iff.
      * exists (a :: pre), c, post. done.
    + intros (pre & c & post & Hs & Hc). destruct pre as [|a' pre].
      * injection Hs as -> ->. left. rewrite Hc, !N.eqb_refl. reflexivity.
      * injection Hs as -> ->. right. by exists pre, c, post.
Qed.

Lemma ruleErrors_nil (password : jsstring) :
  ConfigHelpers.ruleErrors password = [] <->
    8 <= Z.of_nat (length password)
    /\ (exists c, c ∈ password /\ (65 <= c <= 90)%N)
    /\ (exists c, c ∈ password /\ (97 <= c <= 122)%N)
    /\ (exists c, c ∈ password /\ (48 <= c <= 57)%N).
Proof.
  unfold ConfigHelpers.ruleErrors, Config.passwordMinLength,
    Config.requireUppercase, Config.requireLowercase, Config.requireNumbers,
    Config.requireSpecialChars.
  cbn [andb]. rewrite app_nil_r, !app_nil.
  assert (Hcase : forall (b : bool) (m : jsstring),
             (if negb b then [m] else []) = [] <-> b = true).
  { intros [|] m; cbn; split; done. }
  rewrite !Hcase.
  unfold ConfigHelpers.upperCase, ConfigHelpers.lowerCase, ConfigHelpers.digit.
  rewrite !test_range.
  destruct (Z.ltb_spec (Z.of_nat (length password)) 8) as [Hlt|Hge].
  - split; [intros [[=] _]|intros [? _]; lia].
  - split.
    + intros (_ & (u & Hu & ?) & (l & Hl & ?) & (d & Hd & ?)).
      split; [done|]. split; [exists u|split; [exists l|exists d]];
        (split; [done|lia]).
    + intros (_ & (u & Hu & ?) & (l & Hl & ?) & (d & Hd & ?)).
      split; [done|]. split; [exists u|split; [exists l|exists d]];
        (split; [done|lia]).
Qed.

End PasswordRules.

(** X18. [validatePassword] of [config.ts] accepts a password exactly
    when it has at least 8 characters, among them a letter from A to Z, a
    letter from a to z and a digit; a special character is never asked
    for, and accented letters count neither as upper nor as lower case.
    It reports at most four errors. *)
Theorem validatePassword_accepts :
  forall password : jsstring,
    (ConfigHelpers.isValid (ConfigHelpers.validatePassword password) = true <->
     8 <= Z.of_nat (length password)
     /\ (exists c, c ∈ password /\ (65 <= c <= 90)%N)
     /\ (exists c, c ∈ password /\ (97 <= c <= 122)%N)
     /\ (exists c, c ∈ password /\ (48 <= c <= 57)%N))
    /\ (length (ConfigHelpers.errors (ConfigHelpers.validatePassword password))
        <= 4)%nat.
Proof.
  intros password. split.
  - unfold ConfigHelpers.validatePassword. cbn [ConfigHelpers.isValid].
    rewrite Nat.eqb_eq, length_zero_iff_nil. apply ruleErrors_nil.
  - unfold ConfigHelpers.validatePassword, ConfigHelpers.ruleErrors.
    cbn [ConfigHelpers.errors]. rewrite !length_app.
    unfold Config.requireSpecialChars. cbn [andb length].
    repeat match goal with
           | |- context [if ?b then _ else _] => destruct b
           end; simpl; lia.
Qed.

(** A password of eight characters with an upper case letter, lower case
    letters and a digit, and no special character. *)
Lemma validatePassword_accepts_witness :
  ConfigHelpers.isValid (ConfigHelpers.validatePassword (lit "Secreto1")) = true.
Proof.
  apply (proj1 (validatePassword_accepts (lit "Secreto1"))).
  split; [vm_compute; discriminate|].
  split; [exists 83%N|split; [exists 101%N|exists 49%N]];
    (split; [by_computation|lia]).
Defined.

(** X19. [validatePassword] of the validation module reports the errors
    of the one in [config.ts], followed by at most one more; it accepts a
    password exactly when that one accepts it and the password neither
    begins with [123456], nor with [password], [qwerty] or [admin] in any
    mix of cases, nor holds a character (other than a line terminator)
    four times in a row. *)
Theorem validatePassword_rejects_weak :
  forall password : jsstring,
    (exists more,
       ConfigHelpers.errors (Validation.validatePassword password) =
         ConfigHelpers.errors (ConfigHelpers.validatePassword password) ++ more
       /\ (length more <= 1)%nat)
    /\ (ConfigHelpers.isValid (Validation.validatePassword password) = true <->
        ConfigHelpers.isValid (ConfigHelpers.validatePassword password) = true
        /\ startsWith (lit "123456") password = false
        /\ Policy.startsWithAnyCase (lit "password") password = false
        /\ Policy.startsWithAnyCase (lit "qwerty") password = false
        /\ Policy.startsWithAnyCase (lit "admin") password = false
        /\ (forall pre c post,
              password = pre ++ c :: c :: c :: c :: post ->
              Regex.isLineTerminator c = true)).
Proof.
  intros password. split.
  - unfold Validation.validatePassword, ConfigHelpers.validatePassword.
    cbn [ConfigHelpers.errors]. eexists. split; [reflexivity|].
    destruct (Validation.isWeak password); simpl; lia.
  - unfold Validation.validatePassword, ConfigHelpers.validatePassword.
    cbn [ConfigHelpers.isValid].
    rewrite !Nat.eqb_eq, !length_zero_iff_nil, app_nil.
    assert (Hweak : (if Validation.isWeak password then [Validation.msgWeak]
                     else []) = [] <-> Validation.isWeak password = false).
    { destruct (Validation.isWeak password); split; done. }
    rewrite Hweak. unfold Validation.isWeak.
    rewrite testAtStart_text_exact, !testAtStart_text_anyCase.
    rewrite !orb_false_iff.
    assert (Hrun : Validation.hasRepeatedRun password = false <->
                   forall pre c post,
                     password = pre ++ c :: c :: c :: c :: post ->
                     Regex.isLineTerminator c = true).
    { rewrite <- not_true_iff_false, hasRepeatedRun_spec. split.
      - intros Hno pre c post Hs.
        destruct (Regex.isLineTerminator c) eqn:Hc; [done|].
        exfalso. apply Hno. by exists pre, c, post.
      - intros Hall (pre & c & post & Hs & Hc).
        rewrite (Hall pre c post Hs) in Hc. discriminate Hc. }
    rewrite Hrun. tauto.
Qed.

(** A password that meets the rules of [config.ts] and begins with
    [Admin]. *)
Lemma validatePassword_rejects_weak_witness :
  ConfigHelpers.isValid (ConfigHelpers.validatePassword (lit "Admin2024")) = true
  /\ ConfigHelpers.isValid (Validation.validatePassword (lit "Admin2024")) <> true.
Proof.
  split; [vm_compute; reflexivity|].
  intros H.
  apply (proj1 (proj2 (validatePassword_rejects_weak (lit "Admin2024")))) in H
    as (_ & _ & _ & _ & Hadmin & _).
  vm_compute in Hadmin. discriminate Hadmin.
Defined.

(** X20. [validateUsername] accepts a name exactly when it has between 3
    and 30 characters, all of them ASCII letters, digits, underscores or
    hyphens. *)
Theorem validateUsername_accepts :
  forall username : jsstring,
    ConfigHelpers.isValid (ConfigHelpers.validateUsername username) = true <->
    3 <= Z.of_nat (length username) <= 30
    /\ Forall (fun c => Regex.isWordChar c = true \/ c = 45%N) username.
Proof.
  intros username. unfold ConfigHelpers.validateUsername.
  cbn [ConfigHelpers.isValid]. rewrite Nat.eqb_eq, length_zero_iff_nil, !app_nil.
  unfold Config.usernameMinLength, Config.usernameMaxLength.
  assert (Hpat : match ConfigHelpers.usernamePattern username with
                 | Some _ => []
                 | None => [ConfigHelpers.msgUsernameChars]
                 end = [] <->
                 username <> []
                 /\ Forall (fun c => Regex.isWordChar c = true \/ c = 45%N) username).
  { assert (Hsome : match ConfigHelpers.usernamePattern username with
                    | Some _ => []
                    | None => [ConfigHelpers.msgUsernameChars]
                    end = [] <-> is_Some (ConfigHelpers.usernamePattern username)).
    { destruct (ConfigHelpers.usernamePattern username).
      - split; [by eexists|done].
      - split; [discriminate|intros [? [=]]]. }
    rewrite Hsome. unfold ConfigHelpers.usernamePattern.
    rewrite plusFrom_succeeds.
    assert (Hclass : forall l : jsstring,
               Forall (fun c => ConfigHelpers.isUsernameChar c = true) l <->
               Forall (fun c => Regex.isWordChar c = true \/ c = 45%N) l).
    { intros l. apply Forall_iff. intros c. unfold ConfigHelpers.isUsernameChar.
      rewrite orb_true_iff, N.eqb_eq. reflexivity. }
    split.
    - intros (pre & post & -> & Hne & Hall & ->%atEnd_succeeds).
      rewrite app_nil_r. split; [done|]. by apply Hclass.
    - intros [Hne Hall]. exists username, []. rewrite app_nil_r.
      split; [done|]. split; [done|]. split; [by apply Hclass|].
      by apply atEnd_succeeds. }
  rewrite Hpat.
  destruct (Z.ltb_spec (Z.of_nat (length username)) 3),
    (Z.ltb_spec 30 (Z.of_nat (length username))).
  - split; [intros [[=] _]|lia].
  - split; [intros [[=] _]|lia].
  - split; [intros (_ & [=] & _)|lia].
  - split.
    + intros (_ & _ & _ & Hall). split; [lia|done].
    + intros [_ Hall]. split; [done|]. split; [done|]. split; [|done].
      intros ->. simpl in *. lia.
Qed.

(** A name of four characters with a hyphen. *)
Lemma validateUsername_accepts_witness :
  ConfigHelpers.isValid (ConfigHelpers.validateUsername (lit "a-b1")) = true.
Proof.
  apply validateUsername_accepts. split; [vm_compute; split; discriminate|].
  by_computation.
Defined.

(** ** The client-side rate limiter *)

Section SlidingWindow.
Import RateLimiter.

Variables (key : jsstring) (maxAttempts windowMs : option Z).

Local Abbreviation limit := (default 5 maxAttempts).
Local Abbreviation window := (default 60000 windowMs).

(** The times stored for the key. *)
Local Abbreviation stored attempts := (default [] (attempts !! key)).

(** The times of a list that lie within the window at [now]. *)
Local Abbreviation recent now l := (filter (fun time => now - time < window) l).

Lemma isAllowed_unfold (now : Z) (attempts : Attempts) :
  isAllowed key maxAttempts windowMs now attempts =
    if limit <=? Z.of_nat (length (recent now (stored attempts)))
    then (false, attempts)
    else (true, <[key := recent now (stored attempts) ++ [now]]> attempts).
Proof. reflexivity. Qed.

Lemma isAllowed_answer (now : Z) (attempts : Attempts) :
  (isAllowed key maxAttempts windowMs now attempts).1 = true <->
  Z.of_nat (length (recent now (stored attempts))) < limit.
Proof.
  rewrite isAllowed_unfold.
  destruct (Z.leb_spec limit (Z.of_nat (length (recent now (stored attempts)))));
    cbn [fst]; split; (done || lia).
Qed.

Lemma isAllowed_refused (now : Z) (attempts : Attempts) :
  (isAllowed key maxAttempts windowMs now attempts).1 = false ->
  (isAllowed key maxAttempts windowMs now attempts).2 = attempts.
Proof.
  rewrite isAllowed_unfold.
  by destruct (limit <=? Z.of_nat (length (recent now (stored attempts)))).
Qed.

Lemma isAllowed_allowed (now : Z) (attempts : Attempts) :
  (isAllowed key maxAttempts windowMs now attempts).1 = true ->
  stored (isAllowed key maxAttempts windowMs now attempts).2 =
    recent now (stored attempts) ++ [now].
Proof.
  rewrite isAllowed_unfold.
  destruct (limit <=? Z.of_nat (length (recent now (stored attempts))));
    cbn [fst snd]; [done|].
  intros _. by rewrite lookup_insert_eq.
Qed.

Lemma isAllowed_other_keys (now : Z) (attempts : Attempts) (other : jsstring) :
  other <> key ->
  (isAllowed key maxAttempts windowMs now attempts).2 !! other = attempts !! other.
Proof.
  intros Hne. rewrite isAllowed_unfold.
  destruct (limit <=? Z.of_nat (length (recent now (stored attempts))));
    cbn [snd]; [done|].
  by rewrite lookup_insert_ne.
Qed.

Lemma recent_recent (now later : Z) (l : list Z) :
  now <= later -> recent later (recent now l) = recent later l.
Proof.
  intros Hle. rewrite list_filter_filter.
  apply list_filter_iff. intros time. lia.
Qed.

Lemma recent_all (now : Z) (l : list Z) :
  (length l <= length (recent now l))%nat ->
  Forall (fun time => now - time < window) l.
Proof.
  intros Hlen. apply Forall_forall. intros time Hin.
  destruct (decide (now - time < window)) as [|Hout]; [done|].
  pose proof (length_filter_lt (fun time => now - time < window) l time Hin Hout)
    as Hlt.
  lia.
Qed.

Lemma recent_Forall (now : Z) (l : list Z) :
  Forall (fun time => now - time < window) l -> recent now l = l.
Proof.
  induction 1 as [|time l Htime _ IH]; [done|].
  by rewrite filter_cons_True, IH.
Qed.

Lemma calls_cons (now : Z) (times : list Z) (attempts : Attempts) :
  calls key maxAttempts windowMs (now :: times) attempts =
    ((isAllowed key maxAttempts windowMs now attempts).1
       :: (calls key maxAttempts windowMs times
             (isAllowed key maxAttempts windowMs now attempts).2).1,
     (calls key maxAttempts windowMs times
        (isAllowed key maxAttempts windowMs now attempts).2).2).
Proof.
  cbn [calls].
  destruct (isAllowed key maxAttempts windowMs now attempts) as [ok attempts1].
  cbn [fst snd].
  by destruct (calls key maxAttempts windowMs times attempts1).
Qed.

(** With a clock that never goes back, the stored times and the times of
    the allowed calls agree on every window still to come. *)
Lemma calls_recent (times : list Z) :
  forall (attempts : Attempts) (before : list Z) (ahead : Z -> Prop),
    (forall later, ahead later ->
       recent later (stored attempts) = recent later before) ->
    StronglySorted Z.le times ->
    forall later,
      ahead later -> Forall (fun time => time <= later) times ->
      recent later (stored (calls key maxAttempts windowMs times attempts).2) =
        recent later
          (before ++ granted times (calls key maxAttempts windowMs times attempts).1).
Proof.
  induction times as [|now times IH]; intros attempts before ahead Hinv Hsorted
    later Hahead Hle.
  - cbn [calls granted fst snd]. rewrite app_nil_r. by apply Hinv.
  - apply StronglySorted_inv in Hsorted as [Hsorted Hnow].
    apply Forall_cons_1 in Hle as [Hnow_le Hle].
    rewrite calls_cons. cbn [fst snd granted].
    destruct (isAllowed key maxAttempts windowMs now attempts).1 eqn:Hok.
    + replace (before ++ now :: granted times
                 (calls key maxAttempts windowMs times
                    (isAllowed key maxAttempts windowMs now attempts).2).1)
        with ((before ++ [now]) ++ granted times
                 (calls key maxAttempts windowMs times
                    (isAllowed key maxAttempts windowMs now attempts).2).1)
        by (by rewrite <- app_assoc).
      apply (IH _ (before ++ [now]) (fun t => ahead t /\ now <= t)); [|done|done|done].
      intros t [Ht Hnt]. rewrite (isAllowed_allowed _ _ Hok).
      rewrite filter_app, (recent_recent _ _ _ Hnt), (Hinv _ Ht).
      by rewrite filter_app.
    + rewrite (isAllowed_refused _ _ Hok).
      by apply (IH _ before ahead).
Qed.

(** The list stored for the key never grows beyond the limit. *)
Lemma calls_length (times : list Z) :
  forall attempts : Attempts,
    Z.of_nat (length (stored attempts)) <= Z.max 0 limit ->
    Z.of_nat (length (stored (calls key maxAttempts windowMs times attempts).2))
      <= Z.max 0 limit.
Proof.
  induction times as [|now times IH]; intros attempts Hlen; [done|].
  rewrite calls_cons. cbn [snd]. apply IH.
  destruct (isAllowed key maxAttempts windowMs now attempts).1 eqn:Hok.
  - rewrite (isAllowed_allowed _ _ Hok), length_app. cbn [length].
    apply isAllowed_answer in Hok. lia.
  - by rewrite (isAllowed_refused _ _ Hok).
Qed.

Lemma calls_other_keys (times : list Z) (other : jsstring) :
  other <> key ->
  forall attempts : Attempts,
    (calls key maxAttempts windowMs times attempts).2 !! other = attempts !! other.
Proof.
  intros Hne. induction times as [|now times IH]; intros attempts; [done|].
  rewrite calls_cons. cbn [snd]. by rewrite IH, isAllowed_other_keys.
Qed.

Lemma minimum_le (l : list Z) :
  forall x : Z, minimum x l <= x /\ Forall (fun time => minimum x l <= time) l.
Proof.
  unfold minimum. induction l as [|y l IH]; intros x; cbn [foldl].
  - split; [lia|constructor].
  - destruct (IH (Z.min x y)) as [Hx Hl]. split; [lia|].
    constructor; [lia|done].
Qed.

Lemma minimum_elem (l : list Z) :
  forall x : Z, minimum x l ∈ x :: l.
Proof.
  unfold minimum. induction l as [|y l IH]; intros x; cbn [foldl].
  - apply list_elem_of_here.
  - specialize (IH (Z.min x y)). apply elem_of_cons in IH as [Heq|Hin].
    + rewrite Heq. destruct (Z.min_spec x y) as [[_ ->]|[_ ->]].
      * apply list_elem_of_here.
      * apply list_elem_of_further, list_elem_of_here.
    + by do 2 apply list_elem_of_further.
Qed.

Lemma granted_nothing (times : list Z) (answers : list bool) :
  Forall (fun ok => ok = false) answers -> granted times answers = [].
Proof.
  intros Hall. revert times.
  induction Hall as [|ok answers -> _ IH]; intros [|time times]; try done.
  cbn [granted]. apply IH.
Qed.

End SlidingWindow.

(** X21. A sliding window.  When the clock never goes back, [isAllowed]
    allows a call exactly when fewer than [maxAttempts] of the calls it
    allowed before for that key were made less than [windowMs] before
    it; the calls it refused do not count. *)
Theorem isAllowed_sliding_window :
  forall (key : jsstring) (maxAttempts windowMs : option Z) (times : list Z)
         (now : Z) (attempts : RateLimiter.Attempts),
    attempts !! key = None ->
    StronglySorted Z.le (times ++ [now]) ->
    let history := RateLimiter.calls key maxAttempts windowMs times attempts in
    (RateLimiter.isAllowed key maxAttempts windowMs now history.2).1 = true <->
    Z.of_nat (length (filter (fun time => now - time < default 60000 windowMs)
                        (RateLimiter.granted times history.1)))
      < default 5 maxAttempts.
Proof.
  intros key maxAttempts windowMs times now attempts Hfresh Hsorted history.
  rewrite isAllowed_answer.
  assert (Hle : StronglySorted Z.le times /\ Forall (fun time => time <= now) times).
  { clear -Hsorted. induction times as [|time times IH].
    - split; constructor.
    - cbn [app] in Hsorted. apply StronglySorted_inv in Hsorted as [Hrest Htime].
      destruct (IH Hrest) as [Hs Hn]. split.
      + constructor; [done|]. apply Forall_app in Htime as [Htime _]. done.
      + constructor; [|done]. apply Forall_app in Htime as [_ Hnow].
        by apply Forall_cons_1 in Hnow as [Hnow _]. }
  destruct Hle as [Htimes Hnow].
  pose proof (calls_recent key maxAttempts windowMs times attempts []
                (fun _ => True)) as Hinv.
  cbn [app] in Hinv. subst history. rewrite Hinv; [done| |done|done|done].
  intros later _. by rewrite Hfresh.
Qed.

(** Six attempts in a row with the default limit of five: the sixth is
    refused, and an attempt one minute after the first is allowed. *)
Lemma isAllowed_sliding_window_witness :
  let history :=
    RateLimiter.calls (lit "login") None None [0; 1; 2; 3; 4; 5] ∅ in
  history.1 = [true; true; true; true; true; false]
  /\ (RateLimiter.isAllowed (lit "login") None None 60000 history.2).1 = true.
Proof.
  split; [vm_compute; reflexivity|].
  apply (proj2 (isAllowed_sliding_window (lit "login") None None
                  [0; 1; 2; 3; 4; 5] 60000 ∅ (lookup_empty _)
                  ltac:(repeat constructor; lia))).
  vm_compute. reflexivity.
Defined.

(** X22. [isAllowed] changes the entry of its own key only, a refused
    call changes nothing at all, and the list kept for a key that began
    without an entry never holds more than [maxAttempts] times. *)
Theorem isAllowed_store :
  forall (key : jsstring) (maxAttempts windowMs : option Z) (times : list Z)
         (now : Z) (attempts : RateLimiter.Attempts),
    (forall other : jsstring,
        other <> key ->
        (RateLimiter.isAllowed key maxAttempts windowMs now attempts).2 !! other
          = attempts !! other)
    /\ ((RateLimiter.isAllowed key maxAttempts windowMs now attempts).1 = false ->
        (RateLimiter.isAllowed key maxAttempts windowMs now attempts).2 = attempts)
    /\ (attempts !! key = None ->
        Z.of_nat (length (default []
                   ((RateLimiter.calls key maxAttempts windowMs times attempts).2
                      !! key)))
          <= Z.max 0 (default 5 maxAttempts)).
Proof.
  intros key maxAttempts windowMs times now attempts. split; [|split].
  - intros other Hne. by apply isAllowed_other_keys.
  - apply isAllowed_refused.
  - intros Hfresh. apply calls_length. rewrite Hfresh. cbn. lia.
Qed.

(** Three attempts with a limit of two: two times are kept. *)
Lemma isAllowed_store_witness :
  Z.of_nat (length (default []
             ((RateLimiter.calls (lit "login") (Some 2) None [10; 20; 30] ∅).2
                !! lit "login")))
    <= 2.
Proof.
  apply (proj2 (proj2 (isAllowed_store (lit "login") (Some 2) None
                         [10; 20; 30] 0 ∅)) (lookup_empty _)).
Defined.

(** X23. For a key that began without an entry and a limit of at least
    one, once [isAllowed] refuses a call, [getRemainingTime] with the same
    window is positive, and it is exactly the wait: a call made later is
    allowed when that much time has passed, and refused before. *)
Theorem getRemainingTime_is_the_wait :
  forall (key : jsstring) (maxAttempts windowMs : option Z) (times : list Z)
         (now delay : Z) (attempts : RateLimiter.Attempts),
    attempts !! key = None ->
    1 <= default 5 maxAttempts ->
    0 <= delay ->
    let store := (RateLimiter.calls key maxAttempts windowMs times attempts).2 in
    (RateLimiter.isAllowed key maxAttempts windowMs now store).1 = false ->
    0 < RateLimiter.getRemainingTime key windowMs now store
    /\ ((RateLimiter.isAllowed key maxAttempts windowMs (now + delay) store).1
          = true <->
        RateLimiter.getRemainingTime key windowMs now store <= delay).
Proof.
  intros key maxAttempts windowMs times now delay attempts Hfresh Hlimit Hdelay
    store Hrefused.
  assert (Hlen : Z.of_nat (length (default [] (store !! key)))
                 <= Z.max 0 (default 5 maxAttempts)).
  { apply calls_length. rewrite Hfresh. cbn. lia. }
  apply not_true_iff_false in Hrefused. rewrite isAllowed_answer in Hrefused.
  rewrite isAllowed_answer. unfold RateLimiter.getRemainingTime.
  pose proof (length_filter (fun time => now - time < default 60000 windowMs)
                (default [] (store !! key))) as Hsub.
  assert (Hall : Forall (fun time => now - time < default 60000 windowMs)
                   (default [] (store !! key))).
  { apply recent_all. lia. }
  rewrite (recent_Forall _ _ _ Hall) in Hrefused.
  destruct (default [] (store !! key)) as [|first rest] eqn:Hstored;
    [cbn in Hrefused; lia|].
  pose proof (minimum_elem rest first) as Hin.
  pose proof (minimum_le rest first) as [Hfirst Hrest].
  rewrite Forall_forall in Hall. specialize (Hall _ Hin).
  split; [lia|].
  destruct (Z_lt_le_dec delay
              (default 60000 windowMs - (now - RateLimiter.minimum first rest)))
    as [Hearly|Hlate].
  - (* before the wait is over every stored time is still in the window *)
    rewrite recent_Forall.
    + split; [cbn [length] in *; lia|lia].
    + constructor; [lia|]. eapply Forall_impl; [exact Hrest|].
      intros time Htime. cbn beta in *. lia.
  - (* afterwards the oldest time has left the window *)
    split; [lia|intros _].
    assert (Hgone : ~ now + delay - RateLimiter.minimum first rest
                      < default 60000 windowMs) by lia.
    pose proof (length_filter_lt
                  (fun time => now + delay - time < default 60000 windowMs)
                  (first :: rest) _ Hin Hgone) as Hlt.
    cbn [length] in *. lia.
Qed.

(** Two attempts at times 0 and 10 with a limit of two and a window of
    100: a third at time 20 is refused, 80 remain, and an attempt at time
    100 is allowed. *)
Lemma getRemainingTime_is_the_wait_witness :
  let store :=
    (RateLimiter.calls (lit "login") (Some 2) (Some 100) [0; 10] ∅).2 in
  RateLimiter.getRemainingTime (lit "login") (Some 100) 20 store = 80
  /\ (RateLimiter.isAllowed (lit "login") (Some 2) (Some 100) (20 + 80) store).1
       = true.
Proof.
  assert (Hrefused :
            (RateLimiter.isAllowed (lit "login") (Some 2) (Some 100) 20
               (RateLimiter.calls (lit "login") (Some 2) (Some 100) [0; 10] ∅).2).1
              = false) by (vm_compute; reflexivity).
  assert (Hlimit : 1 <= default 5 (Some 2)) by (cbn; lia).
  assert (Hdelay : 0 <= 80) by lia.
  split; [vm_compute; reflexivity|].
  apply (proj2 (getRemainingTime_is_the_wait (lit "login") (Some 2) (Some 100)
                  [0; 10] 20 80 ∅ (lookup_empty _) Hlimit Hdelay Hrefused)).
  vm_compute. discriminate.
Defined.

(** X24. With a limit of zero or less [isAllowed] refuses every call and
    never stores a time, so that [getRemainingTime] reports no wait at
    all for a key that is refused for ever. *)
Theorem isAllowed_limit_zero :
  forall (key : jsstring) (maxAttempts windowMs window' : option Z)
         (times : list Z) (now : Z) (attempts : RateLimiter.Attempts),
    attempts !! key = None ->
    default 5 maxAttempts <= 0 ->
    let history := RateLimiter.calls key maxAttempts windowMs times attempts in
    Forall (fun ok => ok = false) history.1
    /\ history.2 = attempts
    /\ RateLimiter.getRemainingTime key window' now history.2 = 0.
Proof.
  intros key maxAttempts windowMs window' times now attempts Hfresh Hlimit history.
  assert (Hcalls : Forall (fun ok => ok = false) history.1 /\ history.2 = attempts).
  { subst history. induction times as [|time times IH]; [by split|].
    rewrite calls_cons. cbn [fst snd].
    assert (Hno : (RateLimiter.isAllowed key maxAttempts windowMs time attempts).1
                  = false).
    { apply not_true_iff_false. rewrite isAllowed_answer. lia. }
    rewrite (isAllowed_refused _ _ _ _ _ Hno). destruct IH as [IH1 IH2].
    split; [by constructor|done]. }
  destruct Hcalls as [Hanswers Hstore]. split; [done|]. split; [done|].
  rewrite Hstore. unfold RateLimiter.getRemainingTime. by rewrite Hfresh.
Qed.

(** A limit of zero. *)
Lemma isAllowed_limit_zero_witness :
  (RateLimiter.calls (lit "login") (Some 0) None [0; 70000] ∅).1 = [false; false]
  /\ RateLimiter.getRemainingTime (lit "login") None 70000
       (RateLimiter.calls (lit "login") (Some 0) None [0; 70000] ∅).2 = 0.
Proof.
  destruct (isAllowed_limit_zero (lit "login") (Some 0) None None [0; 70000]
              70000 ∅ (lookup_empty _) ltac:(cbn; lia)) as (_ & _ & Hwait).
  split; [vm_compute; reflexivity|exact Hwait].
Defined.

(** ** The login form *)

Section LoginForm.
Import Validator.

Variable toLowerCase : jsstring -> jsstring.

Lemma trimStart_nil (s : jsstring) :
  trimStart s = [] <-> Forall (fun c => isWhiteSpace c = true) s.
Proof.
  induction s as [|c s IH]; cbn [trimStart]; [by split|].
  destruct (isWhiteSpace c) eqn:Hc.
  - rewrite IH. split; [by constructor|]. by intros [_ ?]%Forall_cons_1.
  - split; [discriminate|]. intros [Hws _]%Forall_cons_1. congruence.
Qed.

Lemma trimStart_head (s : jsstring) (c : N) (rest : jsstring) :
  trimStart s = c :: rest -> isWhiteSpace c = false.
Proof.
  induction s as [|d s IH]; cbn [trimStart]; [discriminate|].
  destruct (isWhiteSpace d) eqn:Hd; [exact IH|]. by intros [= <- _].
Qed.

(** [trim] leaves nothing exactly of a text made of white space. *)
Lemma trim_nil (s : jsstring) :
  trim s = [] <-> Forall (fun c => isWhiteSpace c = true) s.
Proof.
  unfold trim, trimEnd. rewrite <- trimStart_nil. split.
  - intros Hrev. apply (f_equal (@rev N)) in Hrev. rewrite rev_involutive in Hrev.
    cbn [rev] in Hrev. apply trimStart_nil in Hrev.
    destruct (trimStart s) as [|c rest] eqn:Hs; [done|].
    apply trimStart_head in Hs. apply Forall_rev in Hrev.
    rewrite rev_involutive in Hrev. apply Forall_cons_1 in Hrev as [Hc _].
    congruence.
  - by intros ->.
Qed.

Lemma validateEmail_not_blank (s : jsstring) :
  ConfigHelpers.validateEmail s = true -> trim s <> [].
Proof.
  intros Hok Hblank. apply trim_nil in Hblank.
  apply validateEmail_is_Some in Hok. unfold ConfigHelpers.emailPattern in Hok.
  apply plusFrom_succeeds in Hok as (pre & post & -> & Hne & Hall & _).
  destruct pre as [|c pre]; [done|].
  apply Forall_cons_1 in Hall as [Hc _].
  cbn [app] in Hblank. apply Forall_cons_1 in Hblank as [Hws _].
  unfold ConfigHelpers.notSpaceNorAt in Hc.
  rewrite Hws in Hc. discriminate Hc.
Qed.

(** The rule of the [email] field: the length check never fires, since
    the sanitizer has cut the text already. *)
Lemma validateField_emailRule (e : jsstring) :
  exists res,
    validateField (VStr e) (Schemas.emailRule toLowerCase) = Some res
    /\ (isValid res = true <->
        ConfigHelpers.validateEmail (Sanitizer.sanitizeEmail toLowerCase e) = true).
Proof.
  set (rules := Schemas.emailRule toLowerCase).
  set (s := Sanitizer.sanitizeEmail toLowerCase e).
  assert (Hsan : sanitized rules (VStr e) = VStr s) by reflexivity.
  destruct (decide (trim s = [])) as [Hblank|Hthere].
  - eexists. split.
    + apply validateField_missing; [reflexivity|].
      right. exists s. by rewrite Hsan.
    + cbn [isValid]. split; [discriminate|].
      intros Hok. by apply validateEmail_not_blank in Hok.
  - assert (Hne : s <> []) by (intros Hs; apply Hthere; by rewrite Hs).
    eexists. split.
    + apply (validateField_present _ _ s); rewrite ?Hsan; [|done|done].
      cbn [falsy]. by destruct s.
    + cbn [isValid]. rewrite Nat.eqb_eq, length_zero_iff_nil, checkErrors_nil.
      cbn [minLength maxLength pattern custom rules Schemas.emailRule].
      split.
      * intros (_ & _ & Hpat & _). by apply (Hpat _ eq_refl).
      * intros Hok. split; [done|]. split; [|split; [|done]].
        -- intros n [= <-] _. subst s. unfold Sanitizer.sanitizeEmail, slice0.
           rewrite length_take. lia.
        -- by intros test [= <-].
Qed.

(** The rule of the [password] field of the login form. *)
Lemma validateField_loginPasswordRule (p : jsstring) :
  exists res,
    validateField (VStr p) Schemas.loginPasswordRule = Some res
    /\ (isValid res = true <->
        trim (Sanitizer.sanitizeString p) <> []
        /\ Z.of_nat (length (Sanitizer.sanitizeString p)) <= 128).
Proof.
  set (rules := Schemas.loginPasswordRule).
  set (s := Sanitizer.sanitizeString p).
  assert (Hsan : sanitized rules (VStr p) = VStr s) by reflexivity.
  destruct (decide (trim s = [])) as [Hblank|Hthere].
  - eexists. split.
    + apply validateField_missing; [reflexivity|].
      right. exists s. by rewrite Hsan.
    + cbn [isValid]. split; [discriminate|]. by intros [? _].
  - assert (Hne : s <> []) by (intros Hs; apply Hthere; by rewrite Hs).
    eexists. split.
    + apply (validateField_present _ _ s); rewrite ?Hsan; [|done|done].
      cbn [falsy]. by destruct s.
    + cbn [isValid]. rewrite Nat.eqb_eq, length_zero_iff_nil, checkErrors_nil.
      cbn [minLength maxLength pattern custom rules Schemas.loginPasswordRule].
      split.
      * intros (_ & Hmax & _). split; [done|]. by apply (Hmax _ eq_refl).
      * intros [_ Hlen]. split; [|split; [|done]].
        -- intros n [= <-] _. destruct s; [done|]. cbn [length]. lia.
        -- by intros n [= <-] _.
Qed.

Lemma lookup_login (f : jsstring) (rules : ValidationRule) :
  Schemas.login toLowerCase !! f = Some rules <->
  (f = lit "email" /\ rules = Schemas.emailRule toLowerCase)
  \/ (f = lit "password" /\ rules = Schemas.loginPasswordRule).
Proof.
  unfold Schemas.login.
  assert (Hkeys : lit "email" <> lit "password") by (vm_compute; discriminate).
  destruct (decide (f = lit "email")) as [->|He].
  - rewrite lookup_insert_eq. split.
    + intros [= <-]. by left.
    + intros [[_ ->]|[Hf _]]; [done|]. by destruct Hkeys.
  - rewrite lookup_insert_ne by done.
    destruct (decide (f = lit "password")) as [->|Hp].
    + rewrite lookup_singleton_eq. split.
      * intros [= <-]. by right.
      * intros [[Hf _]|[_ ->]]; [by destruct He|done].
    + rewrite lookup_singleton_ne by done. split; [done|].
      intros [[Hf _]|[Hf _]]; [by destruct He|by destruct Hp].
Qed.

End LoginForm.

(** X25. The login form.  For a submission whose [email] and [password]
    are texts, [validateForm] with the [login] schema returns the two
    sanitized texts and nothing else of the submission, and accepts it
    exactly when the sanitized email has the form that [validateEmail]
    accepts and the sanitized password is not blank and at most 128
    characters long.  The limit of 254 on the email never shows, since the
    sanitizer has cut the text to that length before it is checked. *)
Theorem validateForm_login_accepts :
  forall (nativeText toLowerCase : jsstring -> jsstring)
         (data : gmap jsstring Validator.Value) (e p : jsstring),
    data !! lit "email" = Some (Validator.VStr e) ->
    data !! lit "password" = Some (Validator.VStr p) ->
    exists r,
      Validator.validateForm nativeText data (Schemas.login toLowerCase)
        = Some r
      /\ Validator.sanitizedData r =
           {[ lit "email" :=
                Validator.VStr (Sanitizer.sanitizeEmail toLowerCase e);
              lit "password" := Validator.VStr (Sanitizer.sanitizeString p) ]}
      /\ (Validator.formIsValid r = true <->
          ConfigHelpers.validateEmail (Sanitizer.sanitizeEmail toLowerCase e)
            = true
          /\ trim (Sanitizer.sanitizeString p) <> []
          /\ Z.of_nat (length (Sanitizer.sanitizeString p)) <= 128).
Proof.
  intros nativeText toLowerCase data e p Hemail Hpassword.
  unfold Validator.validateForm.
  destruct (validateEntries_spec nativeText data
              (map_to_list (Schemas.login toLowerCase))
              (NoDup_fst_map_to_list _))
    as [Hthrows Hmerged].
  assert (He : Validator.field nativeText data (lit "email") = Validator.VStr e)
    by (unfold Validator.field; by rewrite Hemail).
  assert (Hp : Validator.field nativeText data (lit "password")
               = Validator.VStr p)
    by (unfold Validator.field; by rewrite Hpassword).
  destruct (validateField_emailRule toLowerCase e) as (resE & HresE & HvalE).
  destruct (validateField_loginPasswordRule p) as (resP & HresP & HvalP).
  destruct (Validator.validateEntries nativeText data
              (map_to_list (Schemas.login toLowerCase))) as [r|] eqn:Hr.
  2:{ exfalso. destruct (proj1 Hthrows eq_refl) as (f & rules & Hin & Hres).
      apply elem_of_map_to_list, lookup_login in Hin as [[-> ->]|[-> ->]].
      - rewrite He, HresE in Hres. discriminate Hres.
      - rewrite Hp, HresP in Hres. discriminate Hres. }
  destruct (Hmerged r eq_refl) as (_ & Hsan & Hval).
  exists r. split; [reflexivity|]. split.
  - apply map_eq. intros f. apply option_eq. intros v. rewrite Hsan.
    setoid_rewrite elem_of_map_to_list.
    setoid_rewrite (lookup_login toLowerCase).
    assert (Hkeys : lit "email" <> lit "password") by (vm_compute; discriminate).
    assert (Hemail' : lit "email" <> lit "__proto__")
      by (vm_compute; discriminate).
    assert (Hpassword' : lit "password" <> lit "__proto__")
      by (vm_compute; discriminate).
    split.
    + intros (_ & rules & [[-> ->]|[-> ->]] & ->).
      * rewrite He, lookup_insert_eq. reflexivity.
      * rewrite Hp, lookup_insert_ne, lookup_singleton_eq by done. reflexivity.
    + destruct (decide (f = lit "email")) as [->|Hne].
      * rewrite lookup_insert_eq. intros [= <-]. split; [exact Hemail'|].
        exists (Schemas.emailRule toLowerCase). rewrite He.
        split; [left; split; reflexivity|reflexivity].
      * rewrite lookup_insert_ne by done.
        destruct (decide (f = lit "password")) as [->|Hne'].
        -- rewrite lookup_singleton_eq. intros [= <-].
           split; [exact Hpassword'|].
           exists Schemas.loginPasswordRule. rewrite Hp.
           split; [right; split; reflexivity|reflexivity].
        -- by rewrite lookup_singleton_ne.
  - rewrite Hval, <- HvalE, <- HvalP. split.
    + intros Hall. split.
      * apply (Hall (lit "email") (Schemas.emailRule toLowerCase)).
        -- apply elem_of_map_to_list, lookup_login. left. split; reflexivity.
        -- rewrite He. exact HresE.
      * apply (Hall (lit "password") Schemas.loginPasswordRule).
        -- apply elem_of_map_to_list, lookup_login. right. split; reflexivity.
        -- rewrite Hp. exact HresP.
    + intros [HokE HokP] f rules res Hin Hres.
      apply elem_of_map_to_list, lookup_login in Hin as [[-> ->]|[-> ->]].
      * rewrite He, HresE in Hres. injection Hres as <-. exact HokE.
      * rewrite Hp, HresP in Hres. injection Hres as <-. exact HokP.
Qed.

(** A submission with a third field, which the result drops; the case
    mapping is left out. *)
Lemma validateForm_login_accepts_witness :
  exists r,
    Validator.validateForm Validator.nativeCode
      {[ lit "email" := Validator.VStr (lit " ana@example.com ");
         lit "password" := Validator.VStr (lit "secreto");
         lit "remember" := Validator.VBool true ]}
      (Schemas.login (fun s => s)) = Some r
    /\ Validator.sanitizedData r =
         {[ lit "email" := Validator.VStr (lit "ana@example.com");
            lit "password" := Validator.VStr (lit "secreto") ]}
    /\ Validator.formIsValid r = true.
Proof.
  destruct (validateForm_login_accepts Validator.nativeCode (fun s => s)
              {[ lit "email" := Validator.VStr (lit " ana@example.com ");
                 lit "password" := Validator.VStr (lit "secreto");
                 lit "remember" := Validator.VBool true ]}
              (lit " ana@example.com ") (lit "secreto"))
    as (r & Hr & Hdata & Hvalid).
  - reflexivity.
  - reflexivity.
  - exists r. split; [exact Hr|]. split.
    + rewrite Hdata. vm_compute. reflexivity.
    + apply Hvalid. split; [vm_compute; reflexivity|].
      split; [vm_compute; discriminate|vm_compute; discriminate].
Defined.
